(** * Master controller of the home-automation hub: relay state
      synchronisation, deferred actions and the relay event log.

    Shallow embedding of [app.ino].  The sketch keeps its state in global
    arrays and talks to four collaborators: the SD card, the real-time
    clock, the ESP-NOW radio and the front panel.  The globals become the
    record [World]; the collaborators become oracles ([Env]) that are
    consulted once per call, and a chronological [trace] of the calls
    that were made. *)

From Stdlib Require Import ZArith String Ascii Bool Lia.
From stdpp Require Import base tactics option list strings gmap.

Open Scope Z_scope.

(** ** Arduino [String]

    [String] is modelled by [string]; the member functions used by the
    sketch are written after [WString.cpp].  Positions are [int] in the
    sketch and [Z] here, with [-1] for "not found". *)

Module WString.

Definition len (s : string) : Z := Z.of_nat (String.length s).

(** The arguments of [indexOf] and [substring] are [unsigned int]. *)
Definition to_unsigned (z : Z) : Z := z mod 2 ^ 32.

(** [indexOf(s2, fromIndex)]: [strstr] from [fromIndex]. *)
Definition indexOf_from (s s2 : string) (fromIndex : Z) : Z :=
  let from := to_unsigned fromIndex in
  if len s <=? from then -1
  else match String.index (Z.to_nat from) s2 s with
       | Some p => Z.of_nat p
       | None => -1
       end.

Definition indexOf (s s2 : string) : Z := indexOf_from s s2 0.

(** [lastIndexOf(ch)]: position of the last [ch], [-1] when absent.
    [go] walks the string once, [i] being the position of its head. *)
Fixpoint lastIndexOf_go (ch : ascii) (s : string) (i found : Z) : Z :=
  match s with
  | EmptyString => found
  | String c s' =>
      lastIndexOf_go ch s' (i + 1) (if Ascii.eqb c ch then i else found)
  end.

Definition lastIndexOf (s : string) (ch : ascii) : Z :=
  lastIndexOf_go ch s 0 (-1).

(** [substring(left, right)]: swaps the bounds when [left > right],
    empty when [left] is past the end, [right] clipped to the length. *)
Definition substring (s : string) (left right : Z) : string :=
  let l0 := to_unsigned left in
  let r0 := to_unsigned right in
  let l := if r0 <? l0 then r0 else l0 in
  let r := if r0 <? l0 then l0 else r0 in
  if len s <=? l then EmptyString
  else
    let r' := if len s <? r then len s else r in
    String.substring (Z.to_nat l) (Z.to_nat (r' - l)) s.

(** [toInt()] is [atol]: leading white space, an optional sign, then
    the longest run of decimal digits; [long] has 32 bits and [strtol]
    saturates. *)
Definition is_space (c : ascii) : bool :=
  let n := N_of_ascii c in
  (n =? 32)%N || ((9 <=? n)%N && (n <=? 13)%N).

Definition is_digit (c : ascii) : bool :=
  let n := N_of_ascii c in (48 <=? n)%N && (n <=? 57)%N.

Definition digit_val (c : ascii) : Z := Z.of_N (N_of_ascii c) - 48.

Fixpoint skip_space (s : string) : string :=
  match s with
  | String c s' => if is_space c then skip_space s' else s
  | EmptyString => s
  end.

Fixpoint digits_val (acc : Z) (s : string) : Z :=
  match s with
  | String c s' =>
      if is_digit c then digits_val (10 * acc + digit_val c) s' else acc
  | EmptyString => acc
  end.

Definition clamp_long (z : Z) : Z :=
  if z <? - 2 ^ 31 then - 2 ^ 31
  else if 2 ^ 31 - 1 <? z then 2 ^ 31 - 1 else z.

Definition toInt (s : string) : Z :=
  match skip_space s with
  | String "-" s' => clamp_long (- digits_val 0 s')
  | String "+" s' => clamp_long (digits_val 0 s')
  | s' => clamp_long (digits_val 0 s')
  end.

(** [String(n)] for an integer: its decimal digits, most significant
    first, with a minus sign for negative numbers.  Ten digits are
    enough for 32 bits. *)
Definition digit_char (d : Z) : ascii := ascii_of_N (Z.to_N (48 + d)).

Fixpoint dec_digits (fuel : nat) (n : Z) (acc : string) : string :=
  match fuel with
  | O => acc
  | S fuel' =>
      let acc' := String (digit_char (n mod 10)) acc in
      if n / 10 =? 0 then acc' else dec_digits fuel' (n / 10) acc'
  end.

Definition of_int (n : Z) : string :=
  if n <? 0 then String "-" (dec_digits 10 (- n) EmptyString)
  else dec_digits 10 n EmptyString.

(** [sprintf("%02x")] of one byte. *)
Definition hex_char (d : Z) : ascii :=
  if d <? 10 then ascii_of_N (Z.to_N (48 + d))
  else ascii_of_N (Z.to_N (87 + d)).

Definition hex2 (b : Z) : string :=
  String (hex_char (b / 16 mod 16)) (String (hex_char (b mod 16)) EmptyString).

End WString.

(** ** Data model *)

Definition MAX_SLAVES : Z := 10.
Definition MAX_SCHEDULES : Z := 20.

(** Pins of the four local relays. *)
Definition relayPins : list Z := [12; 13; 14; 15].

(** [struct SlaveInfo]. *)
Record SlaveInfo := mkSlave {
  macAddress : list Z;        (* uint8_t[6] *)
  active : bool;
  relayStates : list bool;    (* bool[4] *)
  name : string
}.

(** [struct ScheduleItem]; [targetTime] is an [unsigned long] of
    milliseconds, 32 bits wide. *)
Record ScheduleItem := mkSchedule {
  roomIndex : Z;              (* -1 = master, 0+ = slave index *)
  relayIndex : Z;
  targetState : bool;
  targetTime : Z;
  executed : bool
}.

(** What the clock hands out: the six fields of an RTClib [DateTime]. *)
Record DateTime := mkDateTime {
  dt_year : Z; dt_month : Z; dt_day : Z;
  dt_hour : Z; dt_minute : Z; dt_second : Z
}.

(** A request of the web layer: its query and its body parameters. *)
Record Request := mkRequest {
  get_params : list (string * string);
  post_params : list (string * string)
}.

(** Calls that leave the controller, in the order they are made.
    [EvAssign] is not a call: it marks an assignment to one cell of a
    relay-state vector ([room] [-1] is the master bank), so that
    assignments can be counted. *)
Inductive Event :=
| EvSerial (msg : string)
| EvDigitalWrite (pin : Z) (low : bool)
| EvSend (mac : list Z) (targetRelay : Z) (state : bool) (ok : bool)
| EvAddPeer (mac : list Z) (ok : bool)
| EvSetLEDs (ledValues : Z)
| EvRedirect (url : string)
| EvAssign (room relay : Z) (state : bool).

Global Instance Event_eq_dec : EqDecision Event.
Proof. solve_decision. Defined.

(** The globals of the sketch, the files of the card ([sd], lines as
    [readStringUntil] returns them, without the line feed), the calls
    made so far and the number of oracle consultations. *)
Record World := mkWorld {
  masterRelayStates : list bool;
  slaves : list SlaveInfo;
  slaveCount : Z;
  schedules : list ScheduleItem;
  scheduleCount : Z;
  rotaryPosition : Z;
  sd : gmap string (list string);
  trace : list Event;
  ticks : nat
}.

(** Results of the calls the controller cannot decide itself, one
    answer per consultation. *)
Record Env := mkEnv {
  env_sd_begin : nat -> bool;          (* SD.begin(SD_CS) *)
  env_sd_open : nat -> bool;           (* SD.open gives a usable file *)
  env_esp_now_send : nat -> bool;      (* esp_now_send(...) == ESP_OK *)
  env_esp_now_add_peer : nat -> bool;  (* esp_now_add_peer(...) == ESP_OK *)
  env_rtc_now : nat -> DateTime;       (* rtc.now() *)
  env_millis : nat -> Z                (* millis() *)
}.

Definition set_master (v : list bool) (w : World) : World :=
  mkWorld v (slaves w) (slaveCount w) (schedules w) (scheduleCount w)
          (rotaryPosition w) (sd w) (trace w) (ticks w).
Definition set_slaves (v : list SlaveInfo) (w : World) : World :=
  mkWorld (masterRelayStates w) v (slaveCount w) (schedules w)
          (scheduleCount w) (rotaryPosition w) (sd w) (trace w) (ticks w).
Definition set_slaveCount (v : Z) (w : World) : World :=
  mkWorld (masterRelayStates w) (slaves w) v (schedules w)
          (scheduleCount w) (rotaryPosition w) (sd w) (trace w) (ticks w).
Definition set_schedules (v : list ScheduleItem) (w : World) : World :=
  mkWorld (masterRelayStates w) (slaves w) (slaveCount w) v
          (scheduleCount w) (rotaryPosition w) (sd w) (trace w) (ticks w).
Definition set_scheduleCount (v : Z) (w : World) : World :=
  mkWorld (masterRelayStates w) (slaves w) (slaveCount w) (schedules w)
          v (rotaryPosition w) (sd w) (trace w) (ticks w).
Definition set_sd (v : gmap string (list string)) (w : World) : World :=
  mkWorld (masterRelayStates w) (slaves w) (slaveCount w) (schedules w)
          (scheduleCount w) (rotaryPosition w) v (trace w) (ticks w).
Definition set_trace (v : list Event) (w : World) : World :=
  mkWorld (masterRelayStates w) (slaves w) (slaveCount w) (schedules w)
          (scheduleCount w) (rotaryPosition w) (sd w) v (ticks w).
Definition set_ticks (v : nat) (w : World) : World :=
  mkWorld (masterRelayStates w) (slaves w) (slaveCount w) (schedules w)
          (scheduleCount w) (rotaryPosition w) (sd w) (trace w) v.

(** Arrays indexed by an [int].  Every index the sketch uses is checked
    against the bounds first; outside them a read gives the default and
    a write changes nothing. *)
Definition aget {A} (d : A) (l : list A) (i : Z) : A :=
  if i <? 0 then d else default d (l !! Z.to_nat i).
Definition aset {A} (l : list A) (i : Z) (x : A) : list A :=
  if i <? 0 then l else <[Z.to_nat i := x]> l.

Definition no_slave : SlaveInfo :=
  mkSlave [0; 0; 0; 0; 0; 0] false [false; false; false; false] EmptyString.
Definition no_schedule : ScheduleItem := mkSchedule 0 0 false 0 false.

Definition set_relayStates (v : list bool) (s : SlaveInfo) : SlaveInfo :=
  mkSlave (macAddress s) (active s) v (name s).
Definition set_active (v : bool) (s : SlaveInfo) : SlaveInfo :=
  mkSlave (macAddress s) v (relayStates s) (name s).
Definition set_executed (v : bool) (s : ScheduleItem) : ScheduleItem :=
  mkSchedule (roomIndex s) (relayIndex s) (targetState s) (targetTime s) v.

(** ** A state monad for the sketch

    Every function of the sketch reads and writes the globals; they are
    written here as [M A = World -> A * World]. *)

Definition M (A : Type) : Type := World -> A * World.

Definition ret {A} (a : A) : M A := fun w => (a, w).
Definition bind {A B} (m : M A) (k : A -> M B) : M B :=
  fun w => let (a, w') := m w in k a w'.

Declare Scope sketch_scope.
Delimit Scope sketch_scope with sketch.
Notation "x <- c ;; k" := (bind c (fun x => k))
  (at level 100, c at next level, k at level 200, right associativity)
  : sketch_scope.
Notation "c ;; k" := (bind c (fun _ => k))
  (at level 100, k at level 200, right associativity) : sketch_scope.
Open Scope sketch_scope.

Definition gets {A} (f : World -> A) : M A := fun w => (f w, w).
Definition modify (f : World -> World) : M unit := fun w => (tt, f w).
Definition when (b : bool) (m : M unit) : M unit := if b then m else ret tt.
Definition exec {A} (m : M A) (w : World) : World := snd (m w).

(** [for (int i = lo; i < lo + n; i++) body(i)], for a bound the body
    leaves alone. *)
Fixpoint for_loop (lo : Z) (n : nat) (body : Z -> M unit) : M unit :=
  match n with
  | O => ret tt
  | S n' => body lo ;; for_loop (lo + 1) n' body
  end.

Definition emit (e : Event) : M unit :=
  modify (fun w => set_trace (trace w ++ [e]) w).

(** ** Text written to the card *)

Definition CR : string := String (ascii_of_nat 13) EmptyString.

(** The line feed, at which [readStringUntil('\n')] ends a line. *)
Definition LF_char : ascii := ascii_of_nat 10.

(** The lines into which a printed text falls when the file is read
    back: a line ends at every line feed in the text. *)
Fixpoint lines_of (text : string) : list string :=
  match text with
  | EmptyString => [EmptyString]
  | String c rest =>
      if Ascii.eqb c LF_char then EmptyString :: lines_of rest
      else match lines_of rest with
           | line :: more => String c line :: more
           | [] => [String c EmptyString]
           end
  end.

Definition stateStr_of (state : bool) : string := if state then "ON" else "OFF".

(** [(roomIndex == -1) ? "Master" : "Slave" + String(roomIndex + 1)] *)
Definition roomName_of (room : Z) : string :=
  if room =? -1 then "Master" else "Slave" +:+ WString.of_int (room + 1).

(** The time stamp of [logRelayChange]: the six fields printed with
    [String(int)], that is, without leading zeros. *)
Definition timestamp_of (now : DateTime) : string :=
  WString.of_int (dt_year now) +:+ "-" +:+
  WString.of_int (dt_month now) +:+ "-" +:+
  WString.of_int (dt_day now) +:+ " " +:+
  WString.of_int (dt_hour now) +:+ ":" +:+
  WString.of_int (dt_minute now) +:+ ":" +:+
  WString.of_int (dt_second now).

(** One record of [/relays.txt], as the [print] calls assemble it. *)
Definition log_line (timestamp roomName : string) (relay : Z)
    (stateStr : string) (duration : Z) : string :=
  timestamp +:+ "," +:+ roomName +:+ "," +:+ WString.of_int relay +:+ "," +:+
  stateStr +:+ "," +:+ WString.of_int duration.

(** [getMacString]: ["%02x:%02x:%02x:%02x:%02x:%02x"]. *)
Definition getMacString (mac : list Z) : string :=
  WString.hex2 (aget 0 mac 0) +:+ ":" +:+ WString.hex2 (aget 0 mac 1) +:+ ":" +:+
  WString.hex2 (aget 0 mac 2) +:+ ":" +:+ WString.hex2 (aget 0 mac 3) +:+ ":" +:+
  WString.hex2 (aget 0 mac 4) +:+ ":" +:+ WString.hex2 (aget 0 mac 5).

(** The scan of [logRelayChange] over the lines of the log: the last
    line in which [roomName + "," + String(relayIndex)] occurs at a
    position greater than zero, the empty string when there is none. *)
Definition scan_step (pattern : string) (lastLine line : string) : string :=
  if 0 <? WString.indexOf line pattern then line else lastLine.

Definition scan_last (pattern : string) (lines : list string) : string :=
  fold_left (scan_step pattern) lines EmptyString.

(** [memcmp(a, b, 6) == 0] *)
Definition memcmp6 (a b : list Z) : bool := bool_decide (take 6 a = take 6 b).

(** The first [i] in [lo .. lo + n - 1] whose address is [mac], else [-1]. *)
Fixpoint find_slave (mac : list Z) (sl : list SlaveInfo) (lo : Z) (n : nat) : Z :=
  match n with
  | O => -1
  | S n' =>
      if memcmp6 mac (macAddress (aget no_slave sl lo)) then lo
      else find_slave mac sl (lo + 1) n'
  end.

(** Bits 0..3 of the LED byte, one per relay that is on. *)
Definition led_bits (states : list bool) : Z :=
  fold_left (fun acc i => if aget false states i then Z.lor acc (Z.shiftl 1 i) else acc)
            [0; 1; 2; 3] 0.

(** [request->hasParam(name)] and [request->getParam(name)->value()]. *)
Definition lookup_param (ps : list (string * string)) (key : string) : option string :=
  snd <$> List.find (fun p => bool_decide (fst p = key)) ps.
Definition hasParam (ps : list (string * string)) (key : string) : bool :=
  bool_decide (is_Some (lookup_param ps key)).
Definition param_toInt (ps : list (string * string)) (key : string) : Z :=
  WString.toInt (default EmptyString (lookup_param ps key)).

(** Lines of [/states.txt] after the header. *)
Definition state_lines (roomName : string) (states : list bool) : list string :=
  (fun i => roomName +:+ "," +:+ WString.of_int i +:+ "," +:+
            stateStr_of (aget false states i) +:+ CR) <$> [0; 1; 2; 3].

Definition states_file (w : World) : list string :=
  ("# Room,Relay,State" +:+ CR) ::
  state_lines "Master" (masterRelayStates w) ++
  mjoin ((fun s => state_lines ("Slave" +:+ WString.of_int (Z.of_nat s + 1))
                     (relayStates (aget no_slave (slaves w) (Z.of_nat s))))
         <$> seq 0 (Z.to_nat (slaveCount w))).

(** A name is any text of the request, so it may hold line feeds: what
    is printed for one slave can be more than one line of the file. *)
Definition slaves_file (w : World) : list string :=
  ("# MAC,Name" +:+ CR) ::
  mjoin ((fun s => let sl := aget no_slave (slaves w) (Z.of_nat s) in
            lines_of (getMacString (macAddress sl) +:+ "," +:+ name sl +:+ CR))
         <$> seq 0 (Z.to_nat (slaveCount w))).

(** ** The sketch *)

Module Hub.
Section Sketch.

(** [DateTime::unixtime] of RTClib, including the narrowing of the
    constructor's arguments, and [sscanf] with the format
    ["%x:%x:%x:%x:%x:%x"], which answers with the six numbers when it
    converts all six. *)
Variable unixtime : DateTime -> Z.
Variable sscanf_mac : string -> option (list Z).
Variable env : Env.

(** *** Collaborators *)

Definition ask {A} (oracle : Env -> nat -> A) : M A :=
  fun w => (oracle env (ticks w), set_ticks (S (ticks w)) w).

Definition SD_begin : M bool := ask env_sd_begin.
Definition SD_exists (path : string) : M bool :=
  gets (fun w => bool_decide (is_Some (sd w !! path))).
Definition SD_remove (path : string) : M unit :=
  modify (fun w => set_sd (delete path (sd w)) w).

(** [SD.open(path, FILE_READ)]: the lines of the file, when it exists
    and can be opened. *)
Definition SD_open_read (path : string) : M (option (list string)) :=
  ok <- ask env_sd_open ;;
  f <- gets (fun w => sd w !! path) ;;
  ret (if ok : bool then f else None).

(** [FILE_APPEND] creates a missing file, [FILE_WRITE] also empties an
    existing one. *)
Definition SD_open_append (path : string) : M bool :=
  ok <- ask env_sd_open ;;
  when ok (modify (fun w => set_sd (<[path := default [] (sd w !! path)]> (sd w)) w)) ;;
  ret ok.
Definition SD_open_write (path : string) : M bool :=
  ok <- ask env_sd_open ;;
  when ok (modify (fun w => set_sd (<[path := []]> (sd w)) w)) ;;
  ret ok.

(** [dataFile.println(text)] on the file open at [path]. *)
Definition file_println (path text : string) : M unit :=
  modify (fun w => set_sd (<[path := default [] (sd w !! path) ++ [text +:+ CR]]> (sd w)) w).
Definition file_write_lines (path : string) (lines : list string) : M unit :=
  modify (fun w => set_sd (<[path := default [] (sd w !! path) ++ lines]> (sd w)) w).

Definition Serial_println (msg : string) : M unit := emit (EvSerial msg).
Definition digitalWrite (pin : Z) (low : bool) : M unit := emit (EvDigitalWrite pin low).
Definition redirect (url : string) : M unit := emit (EvRedirect url).

Definition rtc_now : M DateTime := ask env_rtc_now.
Definition millis : M Z := t <- ask env_millis ;; ret (t mod 2 ^ 32).

Definition esp_now_send (mac : list Z) (targetRelay : Z) (state : bool) : M bool :=
  ok <- ask env_esp_now_send ;;
  emit (EvSend mac targetRelay state ok) ;;
  ret ok.
Definition esp_now_add_peer (mac : list Z) : M bool :=
  ok <- ask env_esp_now_add_peer ;;
  emit (EvAddPeer mac ok) ;;
  ret ok.

(** *** Relay-state cells *)

Definition assign_master (relay : Z) (state : bool) : M unit :=
  modify (fun w => set_master (aset (masterRelayStates w) relay state) w) ;;
  emit (EvAssign (-1) relay state).

Definition assign_slave (slaveIndex relay : Z) (state : bool) : M unit :=
  modify (fun w =>
    let s := aget no_slave (slaves w) slaveIndex in
    set_slaves (aset (slaves w) slaveIndex
                     (set_relayStates (aset (relayStates s) relay state) s)) w) ;;
  emit (EvAssign slaveIndex relay state).

(** *** [logRelayChange] *)

(** The [DateTime] rebuilt from the first field of a log line, read at
    fixed columns. *)
Definition parse_lastTime (lastTimeStr : string) : DateTime :=
  mkDateTime (WString.toInt (WString.substring lastTimeStr 0 4))
             (WString.toInt (WString.substring lastTimeStr 5 7))
             (WString.toInt (WString.substring lastTimeStr 8 10))
             (WString.toInt (WString.substring lastTimeStr 11 13))
             (WString.toInt (WString.substring lastTimeStr 14 16))
             (WString.toInt (WString.substring lastTimeStr 17 19)).

(** The part of [logRelayChange] between reading the log and writing
    the new record: the duration, from the last line that the scan
    found and, before that, from the lines read. *)
Definition duration_since (lastLine stateStr : string) (now : DateTime) : Z :=
  if bool_decide (lastLine = EmptyString) then 0
  else
    let lastComma := WString.lastIndexOf lastLine "," in
    if 0 <? lastComma then
      let prevState :=
        WString.substring lastLine
          (WString.indexOf_from lastLine "," (WString.indexOf lastLine "," + 1) + 1)
          lastComma in
      if bool_decide (prevState = stateStr) then 0
      else
        let lastTimeStr :=
          WString.substring lastLine 0 (WString.indexOf lastLine ",") in
        (unixtime now - unixtime (parse_lastTime lastTimeStr)) mod 2 ^ 32
    else 0.

Definition duration_of (lines : list string) (roomName : string)
    (relay : Z) (stateStr : string) (now : DateTime) : Z :=
  duration_since (scan_last (roomName +:+ "," +:+ WString.of_int relay) lines) stateStr now.

Definition logRelayChange (room relay : Z) (state : bool) : M unit :=
  mounted <- SD_begin ;;
  if negb mounted then Serial_println "SD Card failed to mount"
  else
    now <- rtc_now ;;
    let timestamp := timestamp_of now in
    let roomName := roomName_of room in
    let stateStr := stateStr_of state in
    dataFile <- SD_open_read "/relays.txt" ;;
    let duration :=
      match dataFile with
      | Some lines => duration_of lines roomName relay stateStr now
      | None => 0
      end in
    opened <- SD_open_append "/relays.txt" ;;
    when opened
      (file_println "/relays.txt" (log_line timestamp roomName relay stateStr duration)).

(** *** [saveRelayStates] and [saveSlaveInfo] *)

Definition saveRelayStates : M unit :=
  mounted <- SD_begin ;;
  if negb mounted then Serial_println "SD Card failed to mount"
  else
    present <- SD_exists "/states.txt" ;;
    when present (SD_remove "/states.txt") ;;
    opened <- SD_open_write "/states.txt" ;;
    when opened
      (content <- gets states_file ;;
       file_write_lines "/states.txt" content ;;
       Serial_println "Relay states saved").

Definition saveSlaveInfo : M unit :=
  mounted <- SD_begin ;;
  if negb mounted then Serial_println "SD Card failed to mount"
  else
    present <- SD_exists "/slaves.txt" ;;
    when present (SD_remove "/slaves.txt") ;;
    opened <- SD_open_write "/slaves.txt" ;;
    when opened
      (content <- gets slaves_file ;;
       file_write_lines "/slaves.txt" content ;;
       Serial_println "Slave info saved").

(** *** [updateTM1638LEDs] *)

Definition updateTM1638LEDs : M unit :=
  w <- gets id ;;
  let ledValues :=
    if rotaryPosition w =? 0 then led_bits (masterRelayStates w)
    else if rotaryPosition w <=? slaveCount w then
      led_bits (relayStates (aget no_slave (slaves w) (rotaryPosition w - 1)))
    else 0 in
  emit (EvSetLEDs ledValues).

(** *** [sendCommandToSlave] *)

Definition sendCommandToSlave (slaveIndex relay : Z) (state : bool) : M unit :=
  count <- gets slaveCount ;;
  if (slaveIndex <? 0) || (count <=? slaveIndex) then ret tt
  else
    mac <- gets (fun w => macAddress (aget no_slave (slaves w) slaveIndex)) ;;
    result <- esp_now_send mac (relay mod 256) state ;;
    if result : bool then
      Serial_println "Command sent successfully" ;;
      assign_slave slaveIndex relay state ;;
      logRelayChange slaveIndex relay state ;;
      saveRelayStates
    else Serial_println "Error sending command".

(** What [handleRelayToggle] does with its three parameters once they
    are read: the command path, for the master bank or for a slave. *)
Definition relay_command (room relay : Z) (state : bool) : M unit :=
  if room =? -1 then
    when ((0 <=? relay) && (relay <? 4))
      (assign_master relay state ;;
       digitalWrite (aget 0 relayPins relay) state ;;
       logRelayChange (-1) relay state ;;
       saveRelayStates)
  else
    count <- gets slaveCount ;;
    when ((0 <=? room) && (room <? count) && (0 <=? relay) && (relay <? 4))
      (sendCommandToSlave room relay state).

(** *** [processSchedules] *)

(** Body of the first loop, for the schedule in slot [i]. *)
Definition run_schedule (currentTime i : Z) : M unit :=
  item <- gets (fun w => aget no_schedule (schedules w) i) ;;
  if negb (executed item) && (targetTime item <=? currentTime) then
    (if roomIndex item =? -1 then
       when ((0 <=? relayIndex item) && (relayIndex item <? 4))
         (assign_master (relayIndex item) (targetState item) ;;
          cell <- gets (fun w => aget false (masterRelayStates w) (relayIndex item)) ;;
          digitalWrite (aget 0 relayPins (relayIndex item)) cell ;;
          logRelayChange (-1) (relayIndex item) cell ;;
          saveRelayStates)
     else
       let slaveIndex := roomIndex item in
       count <- gets slaveCount ;;
       when ((0 <=? slaveIndex) && (slaveIndex <? count) &&
             (0 <=? relayIndex item) && (relayIndex item <? 4))
         (sendCommandToSlave slaveIndex (relayIndex item) (targetState item))) ;;
    modify (fun w =>
      set_schedules
        (aset (schedules w) i (set_executed true (aget no_schedule (schedules w) i))) w) ;;
    position <- gets rotaryPosition ;;
    when ((position =? 0) && (roomIndex item =? -1) ||
          (position =? roomIndex item + 1))
      updateTM1638LEDs
  else ret tt.

(** Second loop: slots [lo .. lo + n - 1] are visited in order and
    each schedule that is kept is copied down to slot [newCount]. *)
Definition keep_schedule (currentTime : Z) (item : ScheduleItem) : bool :=
  negb (executed item) || ((currentTime - targetTime item) mod 2 ^ 32 <? 60000).

Fixpoint cleanup_loop (currentTime lo : Z) (n : nat) (newCount : Z) : M Z :=
  match n with
  | O => ret newCount
  | S n' =>
      item <- gets (fun w => aget no_schedule (schedules w) lo) ;;
      if keep_schedule currentTime item then
        when (negb (lo =? newCount))
          (modify (fun w => set_schedules (aset (schedules w) newCount item) w)) ;;
        cleanup_loop currentTime (lo + 1) n' (newCount + 1)
      else cleanup_loop currentTime (lo + 1) n' newCount
  end.

Definition processSchedules : M unit :=
  currentTime <- millis ;;
  count <- gets scheduleCount ;;
  for_loop 0 (Z.to_nat count) (run_schedule currentTime) ;;
  newCount <- cleanup_loop currentTime 0 (Z.to_nat count) 0 ;;
  modify (set_scheduleCount newCount).

(** *** The tick, as the design describes it

    "For every non-executed action whose fire time is at most [now],
    invoke the command with the action's parameters, then mark it
    executed", in storage order.  [spec_fire] is that step for the
    action in slot [i] (followed, as in the sketch, by the refresh of the
    panel when it shows the room), [spec_fire_all] runs it for a list of
    slots, reading each action from [items]. *)
Definition due (now : Z) (item : ScheduleItem) : bool :=
  negb (executed item) && (targetTime item <=? now).

Definition mark_executed (i : Z) (w : World) : World :=
  set_schedules (aset (schedules w) i (set_executed true (aget no_schedule (schedules w) i))) w.

Definition panel_refresh (item : ScheduleItem) : M unit :=
  position <- gets rotaryPosition ;;
  when ((position =? 0) && (roomIndex item =? -1) ||
        (position =? roomIndex item + 1))
    updateTM1638LEDs.

Definition spec_fire (i : Z) (item : ScheduleItem) : M unit :=
  relay_command (roomIndex item) (relayIndex item) (targetState item) ;;
  modify (mark_executed i) ;;
  panel_refresh item.

Fixpoint spec_fire_all (items : list ScheduleItem) (slots : list Z) : M unit :=
  match slots with
  | [] => ret tt
  | i :: slots' => spec_fire i (aget no_schedule items i) ;; spec_fire_all items slots'
  end.

(** The last two statements of [processSchedules]. *)
Definition cleanup (currentTime : Z) (count : Z) : M unit :=
  newCount <- cleanup_loop currentTime 0 (Z.to_nat count) 0 ;;
  modify (set_scheduleCount newCount).

(** *** Handlers of the web layer *)

Definition handleRelayToggle (request : Request) : M unit :=
  let q := get_params request in
  when (hasParam q "room" && hasParam q "relay" && hasParam q "state")
    (let room := param_toInt q "room" in
     let relay := param_toInt q "relay" in
     let state := param_toInt q "state" =? 1 in
     relay_command room relay state) ;;
  redirect "/".

(** The six bytes [(uint8_t)macBytes[i]]. *)
Definition mac_of_ints (macBytes : list Z) : list Z :=
  (fun i => aget 0 macBytes i mod 256) <$> [0; 1; 2; 3; 4; 5].

Definition handleAddSlave (request : Request) : M unit :=
  let q := post_params request in
  count <- gets slaveCount ;;
  when (hasParam q "mac" && hasParam q "name" && (count <? MAX_SLAVES))
    (let macStr := default EmptyString (lookup_param q "mac") in
     let name := default EmptyString (lookup_param q "name") in
     match sscanf_mac macStr with
     | Some macBytes =>
         let mac := mac_of_ints macBytes in
         modify (fun w =>
           set_slaves (aset (slaves w) count
                            (mkSlave mac false [false; false; false; false] name)) w) ;;
         added <- esp_now_add_peer mac ;;
         when added (modify (set_slaveCount (count + 1)) ;; saveSlaveInfo)
     | None => ret tt
     end) ;;
  redirect "/".

Definition handleSchedule (request : Request) : M unit :=
  let q := post_params request in
  count <- gets scheduleCount ;;
  when (hasParam q "room" && hasParam q "relay" && hasParam q "state" &&
        hasParam q "minutes" && (count <? MAX_SCHEDULES))
    (let room := param_toInt q "room" in
     let relay := param_toInt q "relay" in
     let state := param_toInt q "state" =? 1 in
     let minutes := param_toInt q "minutes" in
     when ((0 <? minutes) && (minutes <=? 1440))
       (now <- millis ;;
        modify (fun w =>
          set_schedules
            (aset (schedules w) count
                  (mkSchedule room relay state
                              ((now + minutes * 60 * 1000) mod 2 ^ 32) false)) w) ;;
        modify (set_scheduleCount (count + 1)))) ;;
  redirect "/".

(** *** Callbacks of the radio *)

Definition onDataSent (mac_addr : list Z) (success : bool) : M unit :=
  Serial_println ("Last Packet Send Status: " +:+
                  (if success then "Delivery Success" else "Delivery Fail")).

(** Body of the status loop of [onDataReceived], for channel [i]. *)
Definition reconcile_channel (slaveIndex : Z) (data : list Z) (i : Z) : M unit :=
  let newState := aget 0 data i =? 1 in
  current <- gets (fun w => aget false (relayStates (aget no_slave (slaves w) slaveIndex)) i) ;;
  when (negb (Bool.eqb current newState))
    (assign_slave slaveIndex i newState ;;
     logRelayChange slaveIndex i newState ;;
     saveRelayStates ;;
     position <- gets rotaryPosition ;;
     when (position =? slaveIndex + 1) updateTM1638LEDs).

Definition onDataReceived (mac_addr : list Z) (data : list Z) : M unit :=
  let data_len := Z.of_nat (length data) in
  count <- gets slaveCount ;;
  slaveIndex <- gets (fun w => find_slave mac_addr (slaves w) 0 (Z.to_nat count)) ;;
  if negb (slaveIndex =? -1) then
    modify (fun w =>
      set_slaves (aset (slaves w) slaveIndex
                       (set_active true (aget no_slave (slaves w) slaveIndex))) w) ;;
    when (data_len =? 4)
      (for_loop 0 4 (reconcile_channel slaveIndex data))
  else
    when (count <? MAX_SLAVES)
      (let mac := take 6 mac_addr in
       modify (fun w =>
         set_slaves (aset (slaves w) count
                          (mkSlave mac true [false; false; false; false]
                                   ("Auto " +:+ getMacString mac_addr))) w) ;;
       added <- esp_now_add_peer mac ;;
       when added (modify (set_slaveCount (count + 1)) ;; saveSlaveInfo)).

End Sketch.
End Hub.

Import Hub.

(** ** Concrete collaborators, to run the sketch *)

(** [DateTime::unixtime] as RTClib computes it (years 2000 to 2099). *)
Definition daysInMonth : list Z := [31; 28; 31; 30; 31; 30; 31; 31; 30; 31; 30].

Definition date2days (y m d : Z) : Z :=
  let y := if 2000 <=? y then y - 2000 else y in
  let days := d + fold_left Z.add (take (Z.to_nat (m - 1)) daysInMonth) 0 in
  let days := if (2 <? m) && (y mod 4 =? 0) then days + 1 else days in
  (days + 365 * y + (y + 3) / 4 - 1) mod 2 ^ 16.

Definition rtclib_unixtime (t : DateTime) : Z :=
  let days := date2days (dt_year t mod 2 ^ 16) (dt_month t mod 256) (dt_day t mod 256) in
  ((((days * 24 + dt_hour t mod 256) * 60 + dt_minute t mod 256) * 60
    + dt_second t mod 256) + 946684800) mod 2 ^ 32.

(** A stand-in for [sscanf] with ["%x:%x:%x:%x:%x:%x"], used in the
    examples only: it reads six groups of hexadecimal digits separated
    by colons.  On a text of six such groups of at most eight digits,
    and on a text that ends before the sixth group, it gives what
    [sscanf] gives.  It is narrower elsewhere: [sscanf] also takes
    white space, a sign or [0x] before a group and ignores what follows
    the sixth group.  Every theorem is stated for an arbitrary
    [sscanf_mac]. *)
Definition hex_val (c : ascii) : option Z :=
  let n := Z.of_N (N_of_ascii c) in
  if (48 <=? n) && (n <=? 57) then Some (n - 48)
  else if (97 <=? n) && (n <=? 102) then Some (n - 87)
  else if (65 <=? n) && (n <=? 70) then Some (n - 55)
  else None.

Fixpoint scan_hex_groups (s : string) (cur : option Z) (acc : list Z) : list Z :=
  match s with
  | EmptyString => match cur with Some v => acc ++ [v] | None => acc end
  | String c s' =>
      match hex_val c, cur with
      | Some d, Some v => scan_hex_groups s' (Some (16 * v + d)) acc
      | Some d, None => scan_hex_groups s' (Some d) acc
      | None, Some v =>
          if Ascii.eqb c ":" then scan_hex_groups s' None (acc ++ [v]) else acc ++ [v]
      | None, None => acc
      end
  end.

Definition scan_mac (s : string) : option (list Z) :=
  let groups := scan_hex_groups s None [] in
  if (length groups =? 6)%nat then Some groups else None.

(** A clock that advances by one second per consultation, and a card
    and a radio that always answer well. *)
Definition clock_at (k : nat) : DateTime :=
  mkDateTime 2025 11 12 13 14 (10 + Z.of_nat k).

Definition env_ok : Env :=
  mkEnv (fun _ => true) (fun _ => true) (fun _ => true) (fun _ => true)
        clock_at (fun k => 1000 * Z.of_nat k).

(** The same, with a radio that refuses every send. *)
Definition env_send_fails : Env :=
  mkEnv (fun _ => true) (fun _ => true) (fun _ => false) (fun _ => true)
        clock_at (fun k => 1000 * Z.of_nat k).

(** The same as [env_ok], with a radio that refuses every new peer. *)
Definition env_peer_fails : Env :=
  mkEnv (fun _ => true) (fun _ => true) (fun _ => true) (fun _ => false)
        clock_at (fun k => 1000 * Z.of_nat k).

(** The globals after [setup] on a fresh card: all relays off, no
    slaves, no schedules, the three files with their header lines. *)
Definition boot_world : World :=
  mkWorld [false; false; false; false]
          (replicate 10 no_slave) 0
          (replicate 20 no_schedule) 0
          0
          (<["/relays.txt" := ["Timestamp,Room,Relay,State,Duration" +:+ CR]]>
           (<["/states.txt" := ["# Room,Relay,State" +:+ CR]]>
            (<["/slaves.txt" := ["# MAC,Name" +:+ CR]]> ∅)))
          [] 0.

Definition toggle_request (room relay state : string) : Request :=
  mkRequest [("room", room); ("relay", relay); ("state", state)] [].
Definition add_slave_request (mac name : string) : Request :=
  mkRequest [] [("mac", mac); ("name", name)].
Definition schedule_request (room relay state minutes : string) : Request :=
  mkRequest [] [("room", room); ("relay", relay); ("state", state); ("minutes", minutes)].


(** ** What a run leaves behind *)

(** Lines of the relay log. *)
Definition log_of (w : World) : list string := default [] (sd w !! "/relays.txt").

(** Assignments to relay-state cells, in order. *)
Definition assigns (tr : list Event) : list (Z * Z * bool) :=
  omap (fun e => match e with EvAssign r i s => Some (r, i, s) | _ => None end) tr.

(** Commands handed to the radio, in order. *)
Definition sends (tr : list Event) : list (list Z * Z * bool * bool) :=
  omap (fun e => match e with EvSend m r s ok => Some (m, r, s, ok) | _ => None end) tr.

(** Number of completed rewrites of [/states.txt]. *)
Definition saves (tr : list Event) : nat :=
  length (filter (fun e => e = EvSerial "Relay states saved") tr).

(** The arrays have their declared sizes and the counters stay within
    them. *)
Record wf_world (w : World) : Prop := mk_wf {
  wf_master : length (masterRelayStates w) = 4%nat;
  wf_slaves : length (slaves w) = 10%nat;
  wf_relays : Forall (fun s => length (relayStates s) = 4%nat) (slaves w);
  wf_slaveCount : 0 <= slaveCount w <= MAX_SLAVES;
  wf_schedules : length (schedules w) = 20%nat;
  wf_scheduleCount : 0 <= scheduleCount w <= MAX_SCHEDULES
}.

(** [w'] differs from [w] at most in the card, the trace and [ticks],
    and the trace gained no assignment and no send. *)
Record quiet (w w' : World) : Prop := mk_quiet {
  q_master : masterRelayStates w' = masterRelayStates w;
  q_slaves : slaves w' = slaves w;
  q_slaveCount : slaveCount w' = slaveCount w;
  q_schedules : schedules w' = schedules w;
  q_scheduleCount : scheduleCount w' = scheduleCount w;
  q_rotary : rotaryPosition w' = rotaryPosition w;
  q_assigns : assigns (trace w') = assigns (trace w);
  q_sends : sends (trace w') = sends (trace w)
}.

(** From [w] to [w'] the log gained at most [nl] lines, all at its end,
    and the snapshot was rewritten at most [ns] times. *)
Definition grows (nl ns : nat) (w w' : World) : Prop :=
  (exists extra, log_of w' = log_of w ++ extra /\ (length extra <= nl)%nat) /\
  (saves (trace w) <= saves (trace w') <= saves (trace w) + ns)%nat.

(** A card that mounts and gives its files at every call. *)
Definition card_works (env : Env) : Prop :=
  forall k, env_sd_begin env k = true /\ env_sd_open env k = true.

(** [line] is a record of the log for the change [(room, relay, state)],
    whatever its time stamp and its duration. *)
Definition logged_as (change : Z * Z * bool) (line : string) : Prop :=
  exists timestamp duration,
    line = log_line timestamp (roomName_of change.1.1) change.1.2
                    (stateStr_of change.2) duration +:+ CR.

(** From [w] to [w'] the log gained exactly one record for each of
    [changes], in their order and at its end, and the snapshot was
    rewritten exactly once for each. *)
Definition records (changes : list (Z * Z * bool)) (w w' : World) : Prop :=
  (exists extra, log_of w' = log_of w ++ extra /\ Forall2 logged_as changes extra) /\
  saves (trace w') = (saves (trace w) + length changes)%nat.

(** The addresses that the radio holds: those that [esp_now_add_peer]
    accepted, each as the six bytes copied into [peerInfo.peer_addr].
    No peer is ever removed. *)
Definition peers_held (tr : list Event) : list (list Z) :=
  omap (fun e => match e with
                 | EvAddPeer mac true => Some (take 6 mac)
                 | _ => None
                 end) tr.

(** Every registered slave is a peer of the radio. *)
Definition directory_held (w : World) : Prop :=
  forall i, 0 <= i < slaveCount w ->
    In (take 6 (macAddress (aget no_slave (slaves w) i))) (peers_held (trace w)).

(** ESP-NOW does not take an address twice: for an address that it
    holds, [esp_now_add_peer] answers [ESP_ERR_ESPNOW_EXIST]. *)
Definition refuses_held_peer (env : Env) (w : World) (mac : list Z) : Prop :=
  In (take 6 mac) (peers_held (trace w)) -> env_esp_now_add_peer env (ticks w) = false.

(** From [w] to [w'] the registered addresses and the peers of the
    radio are the same. *)
Record same_peers (w w' : World) : Prop := mk_same_peers {
  sp_count : slaveCount w' = slaveCount w;
  sp_macs : forall i, macAddress (aget no_slave (slaves w') i) =
                      macAddress (aget no_slave (slaves w) i);
  sp_peers : peers_held (trace w') = peers_held (trace w)
}.

(** The indices [lo, lo + 1, ..., lo + n - 1] that [for_loop] visits. *)
Fixpoint zrange (lo : Z) (n : nat) : list Z :=
  match n with
  | O => []
  | S n' => lo :: zrange (lo + 1) n'
  end.

(** Channel [i] of a status report, and of the directory entry
    [slaveIndex]. *)
Definition reported (data : list Z) (i : Z) : bool := aget 0 data i =? 1.
Definition channel_state (w : World) (slaveIndex i : Z) : bool :=
  aget false (relayStates (aget no_slave (slaves w) slaveIndex)) i.
Definition master_state (w : World) (i : Z) : bool :=
  aget false (masterRelayStates w) i.

(** The channels among [chs] on which a report disagrees with the
    directory. *)
Definition differs (w : World) (slaveIndex : Z) (data : list Z) (i : Z) : bool :=
  negb (Bool.eqb (channel_state w slaveIndex i) (reported data i)).
Definition differing (w : World) (slaveIndex : Z) (data : list Z) (chs : list Z) : list Z :=
  List.filter (differs w slaveIndex data) chs.

(** The targets a command acts on: relay 0..3 of the master bank, or of
    a slave in [0 .. slaveCount - 1]. *)
Definition valid_target (w : World) (room relay : Z) : bool :=
  if room =? -1 then (0 <=? relay) && (relay <? 4)
  else (0 <=? room) && (room <? slaveCount w) && (0 <=? relay) && (relay <? 4).

(** ** Worlds and requests for the examples *)

(** The sketch after [setup] and the registration of one slave,
    ["Kitchen"], at [AA:BB:CC:DD:EE:FF]. *)
Definition kitchen_mac : list Z := [170; 187; 204; 221; 238; 255].

Definition kitchen_world : World :=
  exec (handleAddSlave scan_mac env_ok (add_slave_request "AA:BB:CC:DD:EE:FF" "Kitchen"))
       boot_world.

(** A millisecond counter one step before it wraps around. *)
Definition env_late : Env :=
  mkEnv (fun _ => true) (fun _ => true) (fun _ => true) (fun _ => true)
        clock_at (fun _ => 2 ^ 32 - 1).

(** A clock of the loop that shows 100 s on every reading. *)
Definition env_100s : Env :=
  mkEnv (fun _ => true) (fun _ => true) (fun _ => true) (fun _ => true)
        clock_at (fun _ => 100000).

Definition with_schedules (items : list ScheduleItem) (w : World) : World :=
  set_scheduleCount (Z.of_nat (length items))
    (set_schedules (items ++ replicate (20 - length items) no_schedule) w).

(** A clock of the loop that shows 200 s on every reading. *)
Definition env_200s : Env :=
  mkEnv (fun _ => true) (fun _ => true) (fun _ => true) (fun _ => true)
        clock_at (fun _ => 200000).

(** Two actions for master relay 0, both enqueued at 100 s with a delay
    of one minute: "on" first, then "off". *)
Definition two_due_world : World :=
  exec (handleSchedule env_100s (schedule_request "-1" "0" "1" "1") ;;
        handleSchedule env_100s (schedule_request "-1" "0" "0" "1")) boot_world.

(** An executed action from long ago followed by two pending ones. *)
Definition old_A : ScheduleItem := mkSchedule (-1) 0 true 1000 true.
Definition pending_B : ScheduleItem := mkSchedule (-1) 1 true 900000 false.
Definition pending_C : ScheduleItem := mkSchedule (-1) 2 true 900000 false.

Definition purge_world : World := with_schedules [old_A; pending_B; pending_C] boot_world.

(** A due action for relay 7 of the master bank. *)
Definition stray_world : World :=
  with_schedules [mkSchedule (-1) 7 true 5000 false] boot_world.

(** ** The purge, as the design words it

    "A removed slot is filled by the last live entry to keep the sequence
    dense": slot [i] is examined; an entry that is kept moves the scan
    on, one that is dropped is overwritten by the last entry and the
    sequence shrinks by one. *)
Fixpoint spec_purge_fill_from_end {A} (fuel : nat) (keep : A -> bool)
    (l : list A) (i : nat) : list A :=
  match fuel with
  | O => l
  | S fuel' =>
      match l !! i, last l with
      | Some x, Some y =>
          if keep x then spec_purge_fill_from_end fuel' keep l (S i)
          else spec_purge_fill_from_end fuel' keep
                 (take (length l - 1) (<[i := y]> l)) i
      | _, _ => l
      end
  end.

(** ** Records of the relay log *)

(** One record of [/relays.txt]: when it was written, for which room
    and relay, the new state and the duration stored with it. *)
Record LogEntry := mkEntry {
  le_time : DateTime;
  le_room : Z;
  le_relay : Z;
  le_state : bool;
  le_duration : Z
}.

(** The line [logRelayChange] writes for a record, as it is read back. *)
Definition entry_line (e : LogEntry) : string :=
  log_line (timestamp_of (le_time e)) (roomName_of (le_room e)) (le_relay e)
           (stateStr_of (le_state e)) (le_duration e) +:+ CR.

(** The header [setupSD] puts into a new log. *)
Definition header_line : string := "Timestamp,Room,Relay,State,Duration" +:+ CR.

Definition same_channel (room relay : Z) (e : LogEntry) : bool :=
  (le_room e =? room) && (le_relay e =? relay).

(** The most recent record of a room and relay. *)
Definition last_of_channel (room relay : Z) (entries : list LogEntry) : option LogEntry :=
  last (List.filter (same_channel room relay) entries).

(** Rooms and relays that reach the log: the master bank or one of the
    ten slaves, relay 0 to 3. *)
Definition loggable (room relay : Z) : Prop := -1 <= room <= 9 /\ 0 <= relay <= 3.

(** Time stamps whose fields fill the columns at which [logRelayChange]
    reads them back: four digits for the year, two for the others. *)
Definition full_width (t : DateTime) : Prop :=
  1000 <= dt_year t <= 9999 /\ 10 <= dt_month t <= 99 /\ 10 <= dt_day t <= 99 /\
  10 <= dt_hour t <= 99 /\ 10 <= dt_minute t <= 99 /\ 10 <= dt_second t <= 99.

(** The duration as the design words it: "the most recent prior entry
    for the same node+relay whose recorded state differs from
    [new_state]; duration = timestamp - that entry's timestamp, or zero
    if no such entry exists". *)
Definition spec_duration (unixtime : DateTime -> Z) (entries : list LogEntry)
    (room relay : Z) (new_state : bool) (now : DateTime) : Z :=
  match last (List.filter (fun e => same_channel room relay e &&
                                    negb (Bool.eqb (le_state e) new_state)) entries) with
  | Some e => unixtime now - unixtime (le_time e)
  | None => 0
  end.

(** ** Characters of a string *)

Fixpoint all_chars (P : ascii -> bool) (s : string) : bool :=
  match s with
  | EmptyString => true
  | String c s' => P c && all_chars P s'
  end.

Definition differs_from (c : ascii) (a : ascii) : bool := negb (Ascii.eqb a c).

(** Characters that are neither a field separator nor the first letter
    of a room name. *)
Definition plain (a : ascii) : bool :=
  differs_from "," a && differs_from "S" a && differs_from "M" a.

(** Digits and the minus sign: what [String(int)] produces. *)
Definition numeric (a : ascii) : bool := WString.is_digit a || Ascii.eqb a "-".

(** ** Rooms and relays of the log, enumerated *)

Definition all_channels : list (Z * Z) := list_prod (zrange (-1) 11) (zrange 0 4).

(** What the scan looks for, and the room and relay fields of a line
    with their commas. *)
Definition scan_pattern (ch : Z * Z) : string :=
  roomName_of (fst ch) +:+ "," +:+ WString.of_int (snd ch).
Definition line_head (ch : Z * Z) : string :=
  roomName_of (fst ch) +:+ "," +:+ WString.of_int (snd ch) +:+ ",".

(** A card whose log holds the header and the given records. *)
Definition log_world (entries : list LogEntry) : World :=
  set_sd (<["/relays.txt" := header_line :: (entry_line <$> entries)]> (sd boot_world))
         boot_world.

(** A clock that shows 13:14:30 on every reading. *)
Definition env_at_30 : Env :=
  mkEnv (fun _ => true) (fun _ => true) (fun _ => true) (fun _ => true)
        (fun _ => clock_at 20) (fun k => 1000 * Z.of_nat k).

(** Master relay 1 was switched on at 13:14:10 and off at 13:14:20. *)
Definition on_at_10 : LogEntry := mkEntry (clock_at 0) (-1) 1 true 0.
Definition off_at_20 : LogEntry := mkEntry (clock_at 10) (-1) 1 false 10.

(** ** The front panel

    The interrupt routine of the rotary encoder and the buttons of the
    TM1638.  Three variables of the sketch live outside [World]: the
    flag [rotaryChanged], the time of the last activity and the
    [static] of the interrupt routine. *)

Record Front := mkFront {
  rotaryChanged : bool;
  lastActivityTime : Z;       (* long *)
  lastInterruptTime : Z       (* static unsigned long *)
}.

(** An [unsigned long] stored into a [long], and [int] arithmetic:
    32 bits, two's complement. *)
Definition to_long (z : Z) : Z := (z + 2 ^ 31) mod 2 ^ 32 - 2 ^ 31.

Definition set_rotaryPosition (v : Z) (w : World) : World :=
  mkWorld (masterRelayStates w) (slaves w) (slaveCount w) (schedules w)
          (scheduleCount w) v (sd w) (trace w) (ticks w).

(** A list walked from its head, as [while (dataFile.available())]
    walks the lines of a file. *)
Fixpoint for_each {A} (l : list A) (body : A -> M unit) : M unit :=
  match l with
  | [] => ret tt
  | x :: l' => body x ;; for_each l' body
  end.

(** Relay [i] of the room the encoder has selected: the master bank at
    position 0, slave [p - 1] at position [p]. *)
Definition selected_state (w : World) (i : Z) : bool :=
  if rotaryPosition w =? 0 then master_state w i
  else channel_state w (rotaryPosition w - 1) i.

Module Panel.
Section Sketch.

Variable unixtime : DateTime -> Z.
Variable env : Env.

(** The routine attached to the falling edge of [ROTARY_CLK];
    [dt_low] is [digitalRead(ROTARY_DT) == LOW]. *)
Definition rotary_isr (dt_low : bool) (f : Front) : M Front :=
  interruptTime <- millis env ;;
  if 5 <? (interruptTime - lastInterruptTime f) mod 2 ^ 32 then
    modify (fun w =>
      let position :=
        to_long (if dt_low then rotaryPosition w + 1 else rotaryPosition w - 1) in
      let position := if position <? 0 then 0 else position in
      let position := if slaveCount w <? position then slaveCount w else position in
      set_rotaryPosition position w) ;;
    now <- millis env ;;
    ret (mkFront true (to_long now) interruptTime)
  else ret (mkFront (rotaryChanged f) (lastActivityTime f) interruptTime).

(** Body of the loop of [handleTM1638Buttons] for a button [i] that is
    pressed ([delay(200)] passes no state). *)
Definition press_button (i : Z) : M unit :=
  position <- gets rotaryPosition ;;
  count <- gets slaveCount ;;
  (if position =? 0 then
     current <- gets (fun w => aget false (masterRelayStates w) i) ;;
     assign_master i (negb current) ;;
     cell <- gets (fun w => aget false (masterRelayStates w) i) ;;
     digitalWrite (aget 0 relayPins i) cell ;;
     logRelayChange unixtime env (-1) i cell ;;
     saveRelayStates env
   else if position <=? count then
     let slaveIndex := position - 1 in
     current <- gets (fun w =>
       aget false (relayStates (aget no_slave (slaves w) slaveIndex)) i) ;;
     sendCommandToSlave unixtime env slaveIndex i (negb current)
   else ret tt) ;;
  updateTM1638LEDs.

(** [buttons & (1 << i)] *)
Definition button_down (buttons i : Z) : bool :=
  negb (Z.land buttons (Z.shiftl 1 i) =? 0).

(** [handleTM1638Buttons], [buttons] being what [tm.readButtons()]
    returned. *)
Definition handleTM1638Buttons (buttons : Z) (f : Front) : M Front :=
  if 0 <? buttons then
    now <- millis env ;;
    for_loop 0 4 (fun i => when (button_down buttons i) (press_button i)) ;;
    ret (mkFront (rotaryChanged f) (to_long now) (lastInterruptTime f))
  else ret f.

End Sketch.
End Panel.

(** ** Start-up: the files of the card and what is loaded from them *)

(** Levels written to the relay pins, in order ([true] is [LOW], which
    closes the relay). *)
Definition pin_writes (tr : list Event) : list (Z * bool) :=
  omap (fun e => match e with EvDigitalWrite pin low => Some (pin, low) | _ => None end) tr.

(** One line of the snapshot, as [saveRelayStates] prints it and
    [readStringUntil] returns it. *)
Definition state_line (room relay : Z) (state : bool) : string :=
  roomName_of room +:+ "," +:+ WString.of_int relay +:+ "," +:+ stateStr_of state +:+ CR.

Definition all_off : list bool := [false; false; false; false].

(** What reading a relay as "off" does: the cell is cleared, for the
    master bank the pin is driven [HIGH] as well. *)
Definition clear_cell (room relay : Z) : M unit :=
  if room =? -1 then
    assign_master relay false ;;
    digitalWrite (aget 0 relayPins relay) false
  else
    count <- gets slaveCount ;;
    when ((0 <=? room) && (room <? count) && (0 <=? relay) && (relay <? 4))
      (assign_slave room relay false).

(** Six bytes. *)
Definition is_mac (mac : list Z) : Prop :=
  length mac = 6%nat /\ Forall (fun b => 0 <= b < 256) mac.

(** The line of the directory file for a slave whose name holds no
    line feed, as [saveSlaveInfo] prints it and [readStringUntil]
    returns it. *)
Definition slave_line (s : SlaveInfo) : string :=
  getMacString (macAddress s) +:+ "," +:+ name s +:+ CR.

(** A slave whose line in [/slaves.txt] is read back to its address:
    the address is six bytes that [sscanf] reads back from their text,
    and the name holds no line feed, so that the slave is one line of
    the file.  [reloaded] is the entry that comes back for it. *)
Definition no_line_feed (text : string) : bool := all_chars (differs_from LF_char) text.

Definition restorable (sscanf_mac : string -> option (list Z)) (sl : SlaveInfo) : Prop :=
  sscanf_mac (getMacString (macAddress sl)) = Some (macAddress sl) /\
  is_mac (macAddress sl) /\
  no_line_feed (name sl) = true /\
  WString.len (name sl) < 2 ^ 31.

Definition reloaded (sl : SlaveInfo) : SlaveInfo :=
  mkSlave (macAddress sl) false all_off (name sl +:+ CR).

(** The files [setupSD] makes on a new card, each with its header. *)
Definition new_card_files : list (string * string) :=
  [("/relays.txt", "Timestamp,Room,Relay,State,Duration");
   ("/states.txt", "# Room,Relay,State");
   ("/slaves.txt", "# MAC,Name")].

Module Storage.
Section Sketch.

Variable sscanf_mac : string -> option (list Z).
Variable env : Env.

(** [if (!SD.exists(path)) { dataFile = SD.open(path, FILE_WRITE);
    dataFile.println(header); dataFile.close(); }]; printing to a file
    that could not be opened writes nothing. *)
Definition create_file (path header : string) : M unit :=
  present <- SD_exists path ;;
  when (negb present)
    (opened <- SD_open_write env path ;;
     when opened (file_println path header)).

Definition setupSD : M unit :=
  mounted <- SD_begin env ;;
  if negb mounted then Serial_println "SD Card initialization failed!"
  else
    Serial_println "SD Card initialized" ;;
    create_file "/relays.txt" "Timestamp,Room,Relay,State,Duration" ;;
    create_file "/states.txt" "# Room,Relay,State" ;;
    create_file "/slaves.txt" "# MAC,Name".

Definition setupRelays : M unit :=
  for_loop 0 4 (fun i => digitalWrite (aget 0 relayPins i) false).

(** [line.startsWith(prefix)] and [line.substring(from)]. *)
Definition startsWith (line prefix : string) : bool := String.prefix prefix line.
Definition substring_from (line : string) (from : Z) : string :=
  WString.substring line from (WString.len line).

(** What [loadRelayStates] reads in one line of [/states.txt]: the room
    name, the relay index and the state, when the line has two commas
    in the right places. *)
Definition parse_state_line (line : string) : option (string * Z * bool) :=
  if startsWith line "#" || (WString.len line <? 5) then None
  else
    let firstComma := WString.indexOf line "," in
    let secondComma := WString.indexOf_from line "," (firstComma + 1) in
    if (0 <? firstComma) && (firstComma <? secondComma) then
      let roomName := WString.substring line 0 firstComma in
      let relayIndex :=
        WString.toInt (WString.substring line (firstComma + 1) secondComma) in
      let stateStr := substring_from line (secondComma + 1) in
      Some (roomName, relayIndex, bool_decide (stateStr = "ON"))
    else None.

(** ... and what it does with them. *)
Definition apply_state (roomName : string) (relayIndex : Z) (state : bool) : M unit :=
  if bool_decide (roomName = "Master") && (0 <=? relayIndex) && (relayIndex <? 4) then
    assign_master relayIndex state ;;
    digitalWrite (aget 0 relayPins relayIndex) state
  else if startsWith roomName "Slave" then
    let slaveIndex := WString.toInt (substring_from roomName 5) - 1 in
    count <- gets slaveCount ;;
    when ((0 <=? slaveIndex) && (slaveIndex <? count) &&
          (0 <=? relayIndex) && (relayIndex <? 4))
      (assign_slave slaveIndex relayIndex state)
  else ret tt.

Definition load_state_line (line : string) : M unit :=
  match parse_state_line line with
  | Some (roomName, relayIndex, state) => apply_state roomName relayIndex state
  | None => ret tt
  end.

(** The first line of the file is skipped without a look at it. *)
Definition loadRelayStates : M unit :=
  mounted <- SD_begin env ;;
  if negb mounted then Serial_println "SD Card failed to mount"
  else
    dataFile <- SD_open_read env "/states.txt" ;;
    match dataFile with
    | Some lines =>
        for_each (tail lines) load_state_line ;;
        Serial_println "Relay states loaded"
    | None => ret tt
    end.

(** One line of [/slaves.txt]. *)
Definition load_slave_line (line : string) : M unit :=
  if startsWith line "#" || (WString.len line <? 17) then ret tt
  else
    let comma := WString.indexOf line "," in
    when (0 <? comma)
      (let macStr := WString.substring line 0 comma in
       let name := substring_from line (comma + 1) in
       match sscanf_mac macStr with
       | Some macBytes =>
           let mac := mac_of_ints macBytes in
           count <- gets slaveCount ;;
           modify (fun w =>
             set_slaves (aset (slaves w) count
                              (mkSlave mac false [false; false; false; false] name)) w) ;;
           added <- esp_now_add_peer env mac ;;
           when added (modify (set_slaveCount (count + 1)))
       | None => ret tt
       end).

(** [while (dataFile.available() && slaveCount < MAX_SLAVES)] *)
Fixpoint load_slave_lines (lines : list string) : M unit :=
  match lines with
  | [] => ret tt
  | line :: rest =>
      count <- gets slaveCount ;;
      if count <? MAX_SLAVES then load_slave_line line ;; load_slave_lines rest
      else ret tt
  end.

Definition loadSlaveInfo : M unit :=
  mounted <- SD_begin env ;;
  if negb mounted then Serial_println "SD Card failed to mount"
  else
    modify (set_slaveCount 0) ;;
    dataFile <- SD_open_read env "/slaves.txt" ;;
    match dataFile with
    | Some lines =>
        load_slave_lines (tail lines) ;;
        count <- gets slaveCount ;;
        Serial_println ("Loaded " +:+ WString.of_int count +:+ " slaves")
    | None => ret tt
    end.

End Sketch.
End Storage.

(** ** The dashboard

    Pieces of [handleWebRoot] and the two helpers that format times. *)

Definition LF : string := String (ascii_of_nat 10) EmptyString.

(** [sprintf] with [%0<width>d]. *)
Fixpoint zeros (n : nat) : string :=
  match n with
  | O => EmptyString
  | S n' => String "0" (zeros n')
  end.

Definition pad0 (width : nat) (n : Z) : string :=
  let digits := WString.of_int (Z.abs n) in
  let sign := if n <? 0 then "-"%string else EmptyString in
  sign +:+ zeros (width - String.length sign - String.length digits) +:+ digits.

(** ["%04d-%02d-%02d %02d:%02d:%02d"] *)
Definition time_text (now : DateTime) : string :=
  pad0 4 (dt_year now) +:+ "-" +:+ pad0 2 (dt_month now) +:+ "-" +:+
  pad0 2 (dt_day now) +:+ " " +:+ pad0 2 (dt_hour now) +:+ ":" +:+
  pad0 2 (dt_minute now) +:+ ":" +:+ pad0 2 (dt_second now).

(** [line.length() > 0] *)
Definition nonempty (line : string) : bool := 0 <? WString.len line.

(** The loop that fills [lastLines[10]] from the lines behind the
    header; [lineCount] is an [int]. *)
Fixpoint ring_fill (lines lastLines : list string) (lineCount : Z) : list string * Z :=
  match lines with
  | [] => (lastLines, lineCount)
  | line :: rest =>
      if nonempty line
      then ring_fill rest (aset lastLines (Z.rem lineCount 10) line) (to_long (lineCount + 1))
      else ring_fill rest lastLines lineCount
  end.

(** The lines that the page shows under "Recent Logs", in the order in
    which it shows them. *)
Definition recent_lines (lines : list string) : list string :=
  let (lastLines, lineCount) := ring_fill (tail lines) (replicate 10 EmptyString) 0 in
  let start := if lineCount <? 10 then 0 else Z.rem lineCount 10 in
  (fun i => aget EmptyString lastLines (Z.rem (start + i) 10))
    <$> zrange 0 (Z.to_nat (Z.min lineCount 10)).

Module Pages.
Section Sketch.

Variable env : Env.

Definition getCurrentTimeString : M string :=
  now <- rtc_now env ;;
  ret (time_text now).

(** The block of [handleWebRoot] under "Recent Logs". *)
Definition recent_logs_html : M string :=
  mounted <- SD_begin env ;;
  if mounted : bool then
    dataFile <- SD_open_read env "/relays.txt" ;;
    match dataFile with
    | Some lines =>
        ret (fold_left (fun html line => html +:+ "<p>" +:+ line +:+ "</p>" +:+ LF)
                       (recent_lines lines) EmptyString)
    | None => ret ("<p>No logs available</p>" +:+ LF)
    end
  else ret ("<p>SD Card not available</p>" +:+ LF).

End Sketch.
End Pages.

(** ** The sketch as a machine

    The entry points through which the world changes once the sketch
    runs: the handlers of the web server, the callbacks of the radio,
    the parts of [loop] and of [setup], and the interrupt. *)

Inductive Call :=
| Toggle (request : Request)
| AddSlave (request : Request)
| Schedule (request : Request)
| Received (mac data : list Z)
| Sent (mac : list Z) (success : bool)
| Tick
| Buttons (buttons : Z)
| Turn (dt_low : bool)
| SetupSD
| SetupRelays
| LoadSlaves
| LoadStates.

Module Machine.
Section Sketch.

Variable unixtime : DateTime -> Z.
Variable sscanf_mac : string -> option (list Z).
Variable env : Env.

Definition run_call (c : Call) (f : Front) : M Front :=
  match c with
  | Toggle request => handleRelayToggle unixtime env request ;; ret f
  | AddSlave request => handleAddSlave sscanf_mac env request ;; ret f
  | Schedule request => handleSchedule env request ;; ret f
  | Received mac data => onDataReceived unixtime env mac data ;; ret f
  | Sent mac success => onDataSent mac success ;; ret f
  | Tick => processSchedules unixtime env ;; ret f
  | Buttons buttons => Panel.handleTM1638Buttons unixtime env buttons f
  | Turn dt_low => Panel.rotary_isr env dt_low f
  | SetupSD => Storage.setupSD env ;; ret f
  | SetupRelays => Storage.setupRelays ;; ret f
  | LoadSlaves => Storage.loadSlaveInfo sscanf_mac env ;; ret f
  | LoadStates => Storage.loadRelayStates env ;; ret f
  end.

Fixpoint run_calls (cs : list Call) (f : Front) : M Front :=
  match cs with
  | [] => ret f
  | c :: cs' => f' <- run_call c f ;; run_calls cs' f'
  end.

End Sketch.
End Machine.

(** From [w] to [w'] the arrays kept their sizes and the counters
    their bounds, and the relay log kept every line it had. *)
Record steady (w w' : World) : Prop := mk_steady {
  st_wf : wf_world w -> wf_world w';
  st_log : exists extra, log_of w' = log_of w ++ extra
}.

(** ** More worlds for the examples *)

(** A card without files. *)
Definition blank_world : World := set_sd ∅ boot_world.

(** The kitchen is registered; master relay 2 and relay 3 of the
    kitchen have been switched on from the dashboard. *)
Definition lit_world : World :=
  exec (handleRelayToggle rtclib_unixtime env_ok (toggle_request "-1" "1" "1") ;;
        handleRelayToggle rtclib_unixtime env_ok (toggle_request "0" "2" "1"))
       kitchen_world.

(** A directory file with twelve slaves. *)
Definition crowded_world : World :=
  set_sd (<["/slaves.txt" :=
            ("# MAC,Name" +:+ CR) ::
            ((fun k => slave_line (mkSlave [170; 187; 204; 221; 238; k] false all_off "Room"))
               <$> zrange 1 12)]> (sd boot_world))
         boot_world.

(** A card that mounts but gives no file, and no card at all. *)
Definition env_open_fails : Env :=
  mkEnv (fun _ => true) (fun _ => false) (fun _ => true) (fun _ => true)
        clock_at (fun k => 1000 * Z.of_nat k).

Definition env_no_card : Env :=
  mkEnv (fun _ => false) (fun _ => false) (fun _ => true) (fun _ => true)
        clock_at (fun k => 1000 * Z.of_nat k).

(** A log of twelve records and one empty line behind the header. *)
Definition busy_world : World :=
  set_sd (<["/relays.txt" :=
            header_line ::
            ((fun k => "record " +:+ WString.of_int k +:+ CR) <$> zrange 1 6) ++
            EmptyString ::
            ((fun k => "record " +:+ WString.of_int k +:+ CR) <$> zrange 7 6)]>
            (sd boot_world))
         boot_world.

(** The directory after loading twelve lines: it holds ten slaves. *)
Definition full_world : World :=
  exec (Storage.loadSlaveInfo scan_mac env_ok) crowded_world.

(** * Properties *)

Example indexOf_ex : WString.indexOf "a,Slave1,2,ON,0" "Slave1,2" = 2.
Proof. reflexivity. Qed.

Example substring_ex : WString.substring "2025-11-12 13:14:15" 5 7 = "11".
Proof. reflexivity. Qed.

Example toInt_ex : WString.toInt " 4:" = 4 /\ WString.toInt "-17x" = -17.
Proof. split; reflexivity. Qed.

Example of_int_ex : WString.of_int 1440 = "1440" /\ WString.of_int (-1) = "-1".
Proof. split; reflexivity. Qed.

(** Boolean tests of the sketch, turned into arithmetic facts. *)
Ltac zbool :=
  repeat match goal with
  | H : _ && _ = true |- _ => apply andb_true_iff in H; destruct H
  | H : _ && _ = false |- _ => apply andb_false_iff in H; destruct H
  | H : _ || _ = true |- _ => apply orb_true_iff in H; destruct H
  | H : _ || _ = false |- _ => apply orb_false_iff in H; destruct H
  | H : negb _ = true |- _ => apply negb_true_iff in H
  | H : negb _ = false |- _ => apply negb_false_iff in H
  | H : (_ <=? _) = true |- _ => apply Z.leb_le in H
  | H : (_ <=? _) = false |- _ => apply Z.leb_gt in H
  | H : (_ <? _) = true |- _ => apply Z.ltb_lt in H
  | H : (_ <? _) = false |- _ => apply Z.ltb_ge in H
  | H : (_ =? _) = true |- _ => apply Z.eqb_eq in H
  | H : (_ =? _) = false |- _ => apply Z.eqb_neq in H
  end.

Ltac splits := repeat match goal with |- _ /\ _ => split end.

Ltac case_if :=
  match goal with
  | |- context [if ?c then _ else _] => destruct c eqn:?
  end.

(** ** Running monadic code *)

Lemma exec_seq {B} (m : M unit) (k : M B) w :
  exec (m ;; k) w = exec k (exec m w).
Proof. unfold exec, bind. destruct (m w) as [[] w']. reflexivity. Qed.

Lemma exec_bind {A B} (m : M A) (k : A -> M B) w :
  exec (x <- m ;; k x) w = exec (k (fst (m w))) (snd (m w)).
Proof. unfold exec, bind. destruct (m w). reflexivity. Qed.

Lemma exec_gets {A B} (f : World -> A) (k : A -> M B) w :
  exec (x <- gets f ;; k x) w = exec (k (f w)) w.
Proof. reflexivity. Qed.

Lemma exec_ret {A} (a : A) w : exec (ret a) w = w.
Proof. reflexivity. Qed.

Lemma exec_when b (m : M unit) w :
  exec (when b m) w = if b then exec m w else w.
Proof. destruct b; reflexivity. Qed.

Lemma run_unit (m : M unit) w : m w = (tt, exec m w).
Proof. unfold exec. destruct (m w) as [[] w']. reflexivity. Qed.

Lemma exec_for_loop_S lo n body w :
  exec (for_loop lo (S n) body) w = exec (for_loop (lo + 1) n body) (exec (body lo) w).
Proof. simpl. apply exec_seq. Qed.

(** ** Traces *)

Lemma assigns_app a b : assigns (a ++ b) = assigns a ++ assigns b.
Proof. apply omap_app. Qed.

Lemma sends_app a b : sends (a ++ b) = sends a ++ sends b.
Proof. apply omap_app. Qed.

Lemma saves_app a b : saves (a ++ b) = (saves a + saves b)%nat.
Proof. unfold saves. rewrite filter_app, length_app. reflexivity. Qed.

Lemma saves_mount_failed : saves [EvSerial "SD Card failed to mount"] = 0%nat.
Proof. reflexivity. Qed.

Lemma saves_saved : saves [EvSerial "Relay states saved"] = 1%nat.
Proof. reflexivity. Qed.

Lemma quiet_refl w : quiet w w.
Proof. constructor; reflexivity. Qed.

Lemma quiet_trans w1 w2 w3 : quiet w1 w2 -> quiet w2 w3 -> quiet w1 w3.
Proof.
  intros [] []. constructor; etransitivity; eassumption.
Qed.

(** ** Arrays *)

Lemma aget_aset_eq {A} (d : A) l i x :
  0 <= i < Z.of_nat (length l) -> aget d (aset l i x) i = x.
Proof.
  intros Hi. unfold aget, aset.
  destruct (i <? 0) eqn:E; [apply Z.ltb_lt in E; lia|].
  rewrite list_lookup_insert_eq by lia. reflexivity.
Qed.

Lemma aget_aset_ne {A} (d : A) l i j x :
  i <> j -> aget d (aset l i x) j = aget d l j.
Proof.
  intros Hij. unfold aget, aset.
  destruct (j <? 0) eqn:Ej; [reflexivity|].
  destruct (i <? 0) eqn:Ei; [reflexivity|].
  apply Z.ltb_ge in Ei, Ej.
  rewrite list_lookup_insert_ne by lia. reflexivity.
Qed.

Lemma aset_aset {A} (l : list A) i x y : aset (aset l i x) i y = aset l i y.
Proof.
  unfold aset. destruct (i <? 0); [reflexivity|]. apply list_insert_insert_eq.
Qed.

Lemma aset_aget {A} (d : A) l i : aset l i (aget d l i) = l.
Proof.
  unfold aset, aget. destruct (i <? 0); [reflexivity|].
  destruct (l !! Z.to_nat i) eqn:E; simpl.
  - apply list_insert_id, E.
  - apply list_insert_ge. apply lookup_ge_None, E.
Qed.

Lemma length_aset {A} (l : list A) i x : length (aset l i x) = length l.
Proof. unfold aset. destruct (i <? 0); [reflexivity|]. apply length_insert. Qed.

(** ** Counting what a run adds to the log and to the snapshot *)

Lemma grows_refl w : grows 0 0 w w.
Proof. split; [exists []; rewrite app_nil_r; auto | lia]. Qed.

Lemma grows_trans a b c d w1 w2 w3 :
  grows a b w1 w2 -> grows c d w2 w3 -> grows (a + c) (b + d) w1 w3.
Proof.
  intros [(e1 & H1 & L1) S1] [(e2 & H2 & L2) S2]. split.
  - exists (e1 ++ e2). rewrite H2, H1, app_assoc, length_app. split; [reflexivity | lia].
  - lia.
Qed.

Lemma grows_mono a b c d w w' :
  (a <= c)%nat -> (b <= d)%nat -> grows a b w w' -> grows c d w w'.
Proof.
  intros Ha Hb [(e & H & L) S]. split; [exists e; split; [assumption | lia] | lia].
Qed.

Section Properties.

Variable unixtime : DateTime -> Z.
Variable sscanf_mac : string -> option (list Z).
Variable env : Env.

Local Abbreviation logRelayChange := (Hub.logRelayChange unixtime env).
Local Abbreviation saveRelayStates := (Hub.saveRelayStates env).
Local Abbreviation sendCommandToSlave := (Hub.sendCommandToSlave unixtime env).
Local Abbreviation run_schedule := (Hub.run_schedule unixtime env).
Local Abbreviation processSchedules := (Hub.processSchedules unixtime env).
Local Abbreviation spec_fire := (Hub.spec_fire unixtime env).
Local Abbreviation spec_fire_all := (Hub.spec_fire_all unixtime env).
Local Abbreviation relay_command := (Hub.relay_command unixtime env).
Local Abbreviation handleRelayToggle := (Hub.handleRelayToggle unixtime env).
Local Abbreviation handleAddSlave := (Hub.handleAddSlave sscanf_mac env).
Local Abbreviation handleSchedule := (Hub.handleSchedule env).
Local Abbreviation reconcile_channel := (Hub.reconcile_channel unixtime env).
Local Abbreviation onDataReceived := (Hub.onDataReceived unixtime env).

(** *** The log and the snapshot leave the relay states alone *)

(** [logRelayChange], unfolded: what it does to the card and the trace
    depends on three answers of the card. *)
Lemma logRelayChange_run room relay state w :
  exec (logRelayChange room relay state) w =
  if env_sd_begin env (ticks w) then
    let now := env_rtc_now env (S (ticks w)) in
    let duration :=
      match (if env_sd_open env (S (S (ticks w))) then sd w !! "/relays.txt" else None) with
      | Some lines =>
          duration_of unixtime lines (roomName_of room) relay (stateStr_of state) now
      | None => 0
      end in
    set_ticks (S (S (S (S (ticks w)))))
      (if env_sd_open env (S (S (S (ticks w)))) then
         set_sd (<["/relays.txt" :=
                   log_of w ++ [log_line (timestamp_of now) (roomName_of room) relay
                                         (stateStr_of state) duration +:+ CR]]> (sd w)) w
       else w)
  else set_ticks (S (ticks w)) (set_trace (trace w ++ [EvSerial "SD Card failed to mount"]) w).
Proof.
  cbv beta iota zeta delta [Hub.logRelayChange exec bind SD_begin ask rtc_now
    SD_open_read SD_open_append file_println Serial_println emit modify gets when ret
    log_of negb snd].
  destruct (env_sd_begin env (ticks w)); simpl; [|reflexivity].
  destruct (env_sd_open env (S (S (S (ticks w))))); simpl; [|reflexivity].
  rewrite lookup_insert_eq, insert_insert_eq. reflexivity.
Qed.

Lemma saveRelayStates_run w :
  exec saveRelayStates w =
  if env_sd_begin env (ticks w) then
    set_ticks (S (S (ticks w)))
      (if env_sd_open env (S (ticks w)) then
         set_trace (trace w ++ [EvSerial "Relay states saved"])
           (set_sd (<["/states.txt" := states_file w]> (sd w)) w)
       else set_sd (delete "/states.txt" (sd w)) w)
  else set_ticks (S (ticks w)) (set_trace (trace w ++ [EvSerial "SD Card failed to mount"]) w).
Proof.
  cbv beta iota zeta delta [Hub.saveRelayStates exec bind SD_begin ask SD_exists
    SD_remove SD_open_write file_write_lines Serial_println emit modify gets when ret
    negb snd].
  destruct (env_sd_begin env (ticks w)); simpl; [|reflexivity].
  assert (Hdel : (if bool_decide (is_Some (sd w !! "/states.txt"))
                  then delete "/states.txt" (sd w) else sd w) = delete "/states.txt" (sd w)).
  { case_bool_decide as Hs; [reflexivity|].
    symmetry. apply delete_id. destruct (sd w !! "/states.txt"); [|reflexivity].
    exfalso. apply Hs. eauto. }
  case_bool_decide; simpl; destruct (env_sd_open env (S (ticks w))); simpl;
    rewrite ?lookup_insert_eq, ?insert_insert_eq, ?insert_delete_eq; simpl;
    try reflexivity.
  rewrite delete_id; [reflexivity|].
  destruct (sd w !! "/states.txt"); [|reflexivity]. exfalso. eauto.
Qed.

Lemma logRelayChange_quiet room relay state w :
  quiet w (exec (logRelayChange room relay state) w).
Proof.
  rewrite logRelayChange_run.
  destruct (env_sd_begin env (ticks w)); cbv zeta;
    [destruct (env_sd_open env (S (S (S (ticks w)))))|];
    constructor; simpl; rewrite ?assigns_app, ?sends_app, ?app_nil_r; reflexivity.
Qed.

Lemma saveRelayStates_quiet w : quiet w (exec saveRelayStates w).
Proof.
  rewrite saveRelayStates_run.
  destruct (env_sd_begin env (ticks w));
    [destruct (env_sd_open env (S (ticks w)))|];
    constructor; simpl; rewrite ?assigns_app, ?sends_app, ?app_nil_r; reflexivity.
Qed.

Lemma updateTM1638LEDs_quiet w : quiet w (exec updateTM1638LEDs w).
Proof.
  constructor; simpl; rewrite ?assigns_app, ?sends_app, ?app_nil_r; reflexivity.
Qed.

(** The log grows by at most one line per call, and only there does
    [logRelayChange] write. *)
Lemma logRelayChange_log room relay state w :
  let w' := exec (logRelayChange room relay state) w in
  (log_of w' = log_of w \/ exists line, log_of w' = log_of w ++ [line]) /\
  (forall path, path <> "/relays.txt" -> sd w' !! path = sd w !! path) /\
  saves (trace w') = saves (trace w) /\
  (ticks w <= ticks w')%nat.
Proof.
  cbv zeta. rewrite logRelayChange_run.
  destruct (env_sd_begin env (ticks w)); cbv zeta;
    [destruct (env_sd_open env (S (S (S (ticks w)))))|]; simpl;
    repeat split; try (left; reflexivity); try lia;
    rewrite ?saves_app, ?saves_mount_failed; simpl; try lia.
  - right. eexists. unfold log_of at 1. simpl. rewrite lookup_insert_eq. reflexivity.
  - intros path Hp. apply lookup_insert_ne. congruence.
Qed.

(** [saveRelayStates] never touches the log and completes at most one
    rewrite of the snapshot. *)
Lemma saveRelayStates_log w :
  let w' := exec saveRelayStates w in
  log_of w' = log_of w /\
  (saves (trace w') <= saves (trace w) + 1)%nat /\
  (saves (trace w) <= saves (trace w'))%nat /\
  (ticks w <= ticks w')%nat.
Proof.
  cbv zeta. rewrite saveRelayStates_run.
  destruct (env_sd_begin env (ticks w));
    [destruct (env_sd_open env (S (ticks w)))|]; simpl;
    rewrite ?saves_app, ?saves_mount_failed, ?saves_saved; unfold log_of; simpl;
    rewrite ?lookup_insert_ne, ?lookup_delete_ne by discriminate;
    repeat split; simpl; try reflexivity; try lia.
Qed.

Lemma logRelayChange_grows room relay state w :
  grows 1 0 w (exec (logRelayChange room relay state) w).
Proof.
  destruct (logRelayChange_log room relay state w) as ([H | [line H]] & _ & Hs & _).
  - split; [exists []; rewrite app_nil_r; split; [exact H | simpl; lia] | lia].
  - split; [exists [line]; split; [exact H | simpl; lia] | lia].
Qed.

Lemma saveRelayStates_grows w : grows 0 1 w (exec saveRelayStates w).
Proof.
  destruct (saveRelayStates_log w) as (H & Hs1 & Hs2 & _).
  split; [exists []; rewrite app_nil_r; split; [exact H | simpl; lia] | lia].
Qed.

Lemma updateTM1638LEDs_grows w : grows 0 0 w (exec updateTM1638LEDs w).
Proof.
  split; [exists []; rewrite app_nil_r; split; [reflexivity | simpl; lia]|].
  simpl. rewrite saves_app. change (saves [EvSetLEDs _]) with 0%nat. lia.
Qed.

(** The tail shared by every change of a relay state: one call of the
    log, then one of the snapshot. *)
Lemma log_then_save room relay state w :
  let w' := exec saveRelayStates (exec (logRelayChange room relay state) w) in
  quiet w w' /\ grows 1 1 w w'.
Proof.
  cbv zeta. split.
  - eapply quiet_trans; [apply logRelayChange_quiet | apply saveRelayStates_quiet].
  - apply (grows_trans 1 0 0 1 _ _ _ (logRelayChange_grows _ _ _ _)
                       (saveRelayStates_grows _)).
Qed.

(** *** Reconciliation of one channel *)

Lemma reconcile_channel_same slaveIndex data i w :
  differs w slaveIndex data i = false ->
  exec (reconcile_channel slaveIndex data i) w = w.
Proof.
  intros H. unfold Hub.reconcile_channel. rewrite exec_gets.
  unfold differs, channel_state, reported in H. rewrite H. reflexivity.
Qed.

Lemma reconcile_channel_diff slaveIndex data i w :
  differs w slaveIndex data i = true ->
  let s := aget no_slave (slaves w) slaveIndex in
  let w' := exec (reconcile_channel slaveIndex data i) w in
  slaves w' = aset (slaves w) slaveIndex
                (set_relayStates (aset (relayStates s) i (reported data i)) s) /\
  masterRelayStates w' = masterRelayStates w /\
  slaveCount w' = slaveCount w /\
  schedules w' = schedules w /\
  scheduleCount w' = scheduleCount w /\
  rotaryPosition w' = rotaryPosition w /\
  assigns (trace w') = assigns (trace w) ++ [(slaveIndex, i, reported data i)] /\
  sends (trace w') = sends (trace w) /\
  grows 1 1 w w'.
Proof.
  intros H. cbv zeta. unfold Hub.reconcile_channel. rewrite exec_gets.
  unfold differs, channel_state, reported in H. rewrite H. cbn [when].
  rewrite exec_seq.
  set (w1 := exec (assign_slave slaveIndex i (aget 0 data i =? 1)) w).
  rewrite !exec_seq.
  destruct (log_then_save slaveIndex i (aget 0 data i =? 1) w1) as [Q G].
  set (w3 := exec saveRelayStates (exec (logRelayChange slaveIndex i (aget 0 data i =? 1)) w1)) in *.
  rewrite exec_gets, exec_when.
  assert (Q4 : quiet w3 (if rotaryPosition w3 =? slaveIndex + 1
                         then exec updateTM1638LEDs w3 else w3) /\
               grows 0 0 w3 (if rotaryPosition w3 =? slaveIndex + 1
                             then exec updateTM1638LEDs w3 else w3)).
  { destruct (rotaryPosition w3 =? slaveIndex + 1).
    - split; [apply updateTM1638LEDs_quiet | apply updateTM1638LEDs_grows].
    - split; [apply quiet_refl | apply grows_refl]. }
  destruct Q4 as [Q4 G4].
  pose proof (quiet_trans _ _ _ Q Q4) as [].
  pose proof (grows_trans _ _ _ _ _ _ _ G G4) as G'.
  unfold reported. repeat split; try (etransitivity; [eassumption|]; reflexivity).
  - rewrite q_assigns0. subst w1. simpl. rewrite assigns_app. reflexivity.
  - rewrite q_sends0. subst w1. simpl. rewrite sends_app. apply app_nil_r.
  - destruct G' as [(e & He & Le) _]. exists e. split; [exact He | exact Le].
  - destruct G' as [_ Hs]. subst w1. simpl in Hs. rewrite saves_app in Hs.
    change (saves [EvAssign _ _ _]) with 0%nat in Hs. lia.
  - destruct G' as [_ Hs]. subst w1. simpl in Hs. rewrite saves_app in Hs.
    change (saves [EvAssign _ _ _]) with 0%nat in Hs. lia.
Qed.

Lemma in_zrange j n : forall lo, In j (zrange lo n) <-> lo <= j < lo + Z.of_nat n.
Proof.
  induction n as [|n IH]; intros lo; simpl.
  - lia.
  - rewrite IH. lia.
Qed.

Lemma set_relayStates_id s : set_relayStates (relayStates s) s = s.
Proof. destruct s; reflexivity. Qed.

(** *** Reconciliation of the channels [lo .. lo + n - 1] of one slave *)

Lemma reconcile_loop slaveIndex data n :
  forall lo w,
  0 <= slaveIndex < Z.of_nat (length (slaves w)) ->
  0 <= lo ->
  lo + Z.of_nat n <= Z.of_nat (length (relayStates (aget no_slave (slaves w) slaveIndex))) ->
  let s := aget no_slave (slaves w) slaveIndex in
  let w' := exec (for_loop lo n (reconcile_channel slaveIndex data)) w in
  (exists rs',
      slaves w' = aset (slaves w) slaveIndex (set_relayStates rs' s) /\
      length rs' = length (relayStates s) /\
      forall j, aget false rs' j =
                if (lo <=? j) && (j <? lo + Z.of_nat n) then reported data j
                else aget false (relayStates s) j) /\
  masterRelayStates w' = masterRelayStates w /\
  slaveCount w' = slaveCount w /\
  schedules w' = schedules w /\
  scheduleCount w' = scheduleCount w /\
  rotaryPosition w' = rotaryPosition w /\
  assigns (trace w') =
    assigns (trace w) ++
    ((fun i => (slaveIndex, i, reported data i)) <$> differing w slaveIndex data (zrange lo n)) /\
  sends (trace w') = sends (trace w) /\
  grows (length (differing w slaveIndex data (zrange lo n)))
        (length (differing w slaveIndex data (zrange lo n))) w w'.
Proof.
  induction n as [|n IH]; intros lo w Hidx Hlo Hlen; cbv zeta.
  - simpl. rewrite app_nil_r. splits; try apply grows_refl; try reflexivity.
    exists (relayStates (aget no_slave (slaves w) slaveIndex)). splits; [|reflexivity|].
    + rewrite set_relayStates_id. symmetry. apply aset_aget.
    + intros j. case_if; [zbool; lia | reflexivity].
  - rewrite exec_for_loop_S.
    set (s := aget no_slave (slaves w) slaveIndex) in *.
    destruct (differs w slaveIndex data lo) eqn:D.
    + (* the channel is written *)
      destruct (reconcile_channel_diff slaveIndex data lo w D)
        as (Hsl & Hm & Hsc & Hsch & Hschc & Hrot & Hasg & Hsnd & G).
      fold s in Hsl.
      set (w1 := exec (reconcile_channel slaveIndex data lo) w) in *.
      assert (Hs1 : aget no_slave (slaves w1) slaveIndex =
                    set_relayStates (aset (relayStates s) lo (reported data lo)) s).
      { rewrite Hsl. apply aget_aset_eq. exact Hidx. }
      assert (Hdiff : differing w1 slaveIndex data (zrange (lo + 1) n) =
                      differing w slaveIndex data (zrange (lo + 1) n)).
      { apply filter_ext_in. intros j Hj. apply in_zrange in Hj.
        unfold differs, channel_state. rewrite Hs1. fold s. simpl.
        rewrite aget_aset_ne by lia. reflexivity. }
      destruct (IH (lo + 1) w1) as ((rs' & Hsl' & Hlen' & Hcells) & Hm' & Hsc' & Hsch' &
                                    Hschc' & Hrot' & Hasg' & Hsnd' & G').
      { rewrite Hsl, length_aset. exact Hidx. }
      { lia. }
      { rewrite Hs1. simpl. rewrite length_aset. fold s in Hlen. lia. }
      rewrite Hs1 in Hsl', Hlen', Hcells. simpl in Hlen', Hcells.
      rewrite length_aset in Hlen'.
      rewrite Hdiff in Hasg', G'.
      simpl zrange. unfold differing at 1 2 3. simpl List.filter. rewrite D.
      fold (differing w slaveIndex data (zrange (lo + 1) n)).
      splits; try congruence.
      * exists rs'. splits.
        -- rewrite Hsl', Hsl, aset_aset. reflexivity.
        -- exact Hlen'.
        -- intros j. rewrite Hcells.
           destruct (Z.eq_dec j lo) as [->|Hne].
           ++ rewrite aget_aset_eq by (fold s in Hlen; lia).
              repeat case_if; try reflexivity; zbool; lia.
           ++ rewrite aget_aset_ne by congruence.
              repeat case_if; try reflexivity; zbool; lia.
      * rewrite Hasg', Hasg, <- app_assoc. reflexivity.
      * apply (grows_trans 1 1 _ _ _ _ _ G G').
    + (* the channel already agrees *)
      rewrite (reconcile_channel_same slaveIndex data lo w D).
      destruct (IH (lo + 1) w) as ((rs' & Hsl' & Hlen' & Hcells) & Hm' & Hsc' & Hsch' &
                                   Hschc' & Hrot' & Hasg' & Hsnd' & G');
        try (subst s; lia).
      fold s in Hsl', Hlen', Hcells.
      simpl zrange. unfold differing at 1 2 3. simpl List.filter. rewrite D.
      fold (differing w slaveIndex data (zrange (lo + 1) n)).
      splits; try congruence; try apply G'.
      exists rs'. splits; try assumption.
      intros j. rewrite Hcells.
      destruct (Z.eq_dec j lo) as [->|Hne].
      * unfold differs, channel_state in D. fold s in D.
        apply negb_false_iff, eqb_prop in D.
        repeat case_if; try assumption; zbool; lia.
      * repeat case_if; try reflexivity; zbool; lia.
Qed.

(** *** Looking a sender up *)

Lemma find_slave_range mac sl n :
  forall lo, find_slave mac sl lo n <> -1 -> 0 <= lo ->
  lo <= find_slave mac sl lo n < lo + Z.of_nat n.
Proof.
  induction n as [|n IH]; intros lo Hf Hlo; simpl in *.
  - congruence.
  - destruct (memcmp6 mac (macAddress (aget no_slave sl lo))); [lia|].
    specialize (IH (lo + 1) Hf). lia.
Qed.

Lemma find_slave_ext mac sl sl' n :
  (forall k, macAddress (aget no_slave sl' k) = macAddress (aget no_slave sl k)) ->
  forall lo, find_slave mac sl' lo n = find_slave mac sl lo n.
Proof.
  intros H. induction n as [|n IH]; intros lo; simpl; [reflexivity|].
  rewrite H, IH. reflexivity.
Qed.

Lemma find_slave_hit mac sl n :
  forall lo, find_slave mac sl lo n <> -1 ->
  memcmp6 mac (macAddress (aget no_slave sl (find_slave mac sl lo n))) = true.
Proof.
  induction n as [|n IH]; intros lo Hf; simpl in *; [congruence|].
  destruct (memcmp6 mac (macAddress (aget no_slave sl lo))) eqn:E; [exact E|].
  apply IH, Hf.
Qed.

Lemma find_slave_ext_in mac sl sl' n :
  forall lo,
  (forall k, lo <= k < lo + Z.of_nat n ->
     macAddress (aget no_slave sl' k) = macAddress (aget no_slave sl k)) ->
  find_slave mac sl' lo n = find_slave mac sl lo n.
Proof.
  induction n as [|n IH]; intros lo H; simpl; [reflexivity|].
  rewrite H by lia. rewrite IH; [reflexivity|].
  intros k Hk. apply H. lia.
Qed.

Lemma aget_aset_cases {A} (d : A) l i x k :
  aget d (aset l i x) k = x /\ k = i \/ aget d (aset l i x) k = aget d l k.
Proof.
  destruct (Z.eq_dec k i) as [->|Hne].
  - destruct (Z_lt_dec i 0) as [Hneg|Hpos].
    + right. unfold aset. destruct (i <? 0) eqn:E; [reflexivity | zbool; lia].
    + destruct (Z_lt_dec i (Z.of_nat (length l))) as [Hin|Hout].
      * left. split; [apply aget_aset_eq; lia | reflexivity].
      * right. unfold aset. destruct (i <? 0); [reflexivity|].
        rewrite list_insert_ge by lia. reflexivity.
  - right. apply aget_aset_ne. congruence.
Qed.

Lemma find_slave_aset mac sl i x n lo :
  macAddress x = macAddress (aget no_slave sl i) ->
  find_slave mac (aset sl i x) lo n = find_slave mac sl lo n.
Proof.
  intros H. apply find_slave_ext. intros k.
  destruct (aget_aset_cases no_slave sl i x k) as [[-> ->]| ->]; [exact H | reflexivity].
Qed.

Lemma set_slaves_id w : set_slaves (slaves w) w = w.
Proof. destruct w; reflexivity. Qed.

Lemma relays_of_four (rs : list bool) :
  length rs = 4%nat -> rs = (fun i => aget false rs i) <$> [0; 1; 2; 3].
Proof.
  destruct rs as [|a [|b [|c [|d [|e rs]]]]]; try discriminate. reflexivity.
Qed.

Lemma wf_relays_at w i :
  wf_world w -> 0 <= i < Z.of_nat (length (slaves w)) ->
  length (relayStates (aget no_slave (slaves w) i)) = 4%nat.
Proof.
  intros Hwf Hi. unfold aget. destruct (i <? 0) eqn:E; [zbool; lia|].
  destruct (slaves w !! Z.to_nat i) as [s|] eqn:Es; simpl; [|reflexivity].
  pose proof (wf_relays w Hwf) as HF. rewrite Forall_lookup in HF. exact (HF _ _ Es).
Qed.

Lemma reconcile_loop_same slaveIndex data n :
  forall lo w,
  (forall j, In j (zrange lo n) -> differs w slaveIndex data j = false) ->
  exec (for_loop lo n (reconcile_channel slaveIndex data)) w = w.
Proof.
  induction n as [|n IH]; intros lo w H; [reflexivity|].
  rewrite exec_for_loop_S, reconcile_channel_same by (apply H; left; reflexivity).
  apply IH. intros j Hj. apply H. right. exact Hj.
Qed.

(** *** A status report from a registered slave *)

Lemma onDataReceived_known mac data w :
  wf_world w ->
  let slaveIndex := find_slave mac (slaves w) 0 (Z.to_nat (slaveCount w)) in
  slaveIndex <> -1 ->
  length data = 4%nat ->
  let s := aget no_slave (slaves w) slaveIndex in
  let w' := exec (onDataReceived mac data) w in
  slaves w' = aset (slaves w) slaveIndex
                (mkSlave (macAddress s) true (reported data <$> [0; 1; 2; 3]) (name s)) /\
  masterRelayStates w' = masterRelayStates w /\
  slaveCount w' = slaveCount w /\
  schedules w' = schedules w /\
  scheduleCount w' = scheduleCount w /\
  rotaryPosition w' = rotaryPosition w /\
  assigns (trace w') =
    assigns (trace w) ++
    ((fun i => (slaveIndex, i, reported data i)) <$> differing w slaveIndex data [0; 1; 2; 3]) /\
  sends (trace w') = sends (trace w) /\
  grows (length (differing w slaveIndex data [0; 1; 2; 3]))
        (length (differing w slaveIndex data [0; 1; 2; 3])) w w'.
Proof.
  intros Hwf slaveIndex Hfound Hdata s w'.
  assert (Hrange : 0 <= slaveIndex < Z.of_nat (length (slaves w))).
  { pose proof (find_slave_range mac (slaves w) (Z.to_nat (slaveCount w)) 0 Hfound) as H.
    destruct Hwf. unfold MAX_SLAVES in *. lia. }
  set (w0 := set_slaves (aset (slaves w) slaveIndex (set_active true s)) w).
  assert (Hw' : w' = exec (for_loop 0 4 (reconcile_channel slaveIndex data)) w0).
  { subst w'. unfold Hub.onDataReceived. rewrite !exec_gets. fold slaveIndex.
    destruct (slaveIndex =? -1) eqn:E; [zbool; congruence|]. cbn [negb].
    rewrite exec_seq. rewrite Hdata. reflexivity. }
  assert (Hs0 : aget no_slave (slaves w0) slaveIndex = set_active true s).
  { subst w0. simpl. apply aget_aset_eq. exact Hrange. }
  assert (Hdiff : forall chs, differing w0 slaveIndex data chs = differing w slaveIndex data chs).
  { intros chs. apply filter_ext. intros j. unfold differs, channel_state.
    rewrite Hs0. reflexivity. }
  destruct (reconcile_loop slaveIndex data 4 0 w0)
    as ((rs' & Hsl & Hlen & Hcells) & Hm & Hsc & Hsch & Hschc & Hrot & Hasg & Hsnd & G).
  { subst w0. simpl. rewrite length_aset. exact Hrange. }
  { lia. }
  { rewrite Hs0. simpl. fold s. subst s. rewrite wf_relays_at by assumption. simpl. lia. }
  rewrite <- Hw' in *. change (zrange 0 4) with [0; 1; 2; 3] in *.
  rewrite Hdiff in Hasg, G. rewrite Hs0 in Hsl, Hlen, Hcells. simpl in Hlen.
  splits; try assumption.
  - rewrite Hsl. subst w0. simpl. rewrite aset_aset. f_equal.
    unfold set_relayStates, set_active. simpl. f_equal.
    rewrite (relays_of_four rs') by (rewrite Hlen; subst s; apply wf_relays_at; assumption).
    simpl. rewrite !Hcells. reflexivity.
Qed.

Lemma reported_cells data j :
  0 <= j < 4 -> aget false (reported data <$> [0; 1; 2; 3]) j = reported data j.
Proof.
  intros Hj.
  assert (j = 0 \/ j = 1 \/ j = 2 \/ j = 3) as [-> | [-> | [-> | ->]]] by lia;
    reflexivity.
Qed.

(** *** What a reconciliation writes when the card works *)

Lemma records_refl w : records [] w w.
Proof.
  split; [exists []; rewrite app_nil_r; split; [reflexivity | constructor]|].
  simpl. lia.
Qed.

Lemma records_trans a b w1 w2 w3 :
  records a w1 w2 -> records b w2 w3 -> records (a ++ b) w1 w3.
Proof.
  intros [(e1 & H1 & F1) S1] [(e2 & H2 & F2) S2]. split.
  - exists (e1 ++ e2). split; [rewrite H2, H1, app_assoc; reflexivity|].
    apply Forall2_app; assumption.
  - rewrite S2, S1, length_app. lia.
Qed.

Lemma states_file_quiet w w' : quiet w w' -> states_file w' = states_file w.
Proof.
  intros [Qm Qsl Qsc _ _ _ _ _]. unfold states_file. rewrite Qm, Qsl, Qsc. reflexivity.
Qed.

(** With a working card the tail of every change writes one record and
    one snapshot, and the snapshot is that of the states it finds. *)
Lemma log_then_save_exact room relay state w :
  card_works env ->
  let w' := exec saveRelayStates (exec (logRelayChange room relay state) w) in
  records [(room, relay, state)] w w' /\
  sd w' !! "/states.txt" = Some (states_file w).
Proof.
  intros Hcard. cbv zeta.
  rewrite saveRelayStates_run, logRelayChange_run.
  rewrite (proj1 (Hcard (ticks w))). cbv zeta.
  rewrite (proj2 (Hcard (S (S (S (ticks w)))))).
  cbn [ticks set_ticks set_sd]. rewrite (proj1 (Hcard _)), (proj2 (Hcard _)).
  split; [split|].
  - eexists [_]. split.
    + unfold log_of at 1. cbn [sd set_trace set_sd set_ticks].
      rewrite lookup_insert_ne by discriminate. rewrite lookup_insert_eq. reflexivity.
    + constructor; [|constructor]. eexists _, _. reflexivity.
  - cbn [trace set_trace set_ticks set_sd]. rewrite saves_app, saves_saved. reflexivity.
  - cbn [sd set_trace set_sd set_ticks]. rewrite lookup_insert_eq. reflexivity.
Qed.

Lemma reconcile_channel_exact slaveIndex data i w :
  card_works env ->
  differs w slaveIndex data i = true ->
  let w' := exec (reconcile_channel slaveIndex data i) w in
  records [(slaveIndex, i, reported data i)] w w' /\
  sd w' !! "/states.txt" = Some (states_file w').
Proof.
  intros Hcard H. cbv zeta. unfold Hub.reconcile_channel. rewrite exec_gets.
  unfold differs, channel_state, reported in H. rewrite H. cbn [when].
  rewrite exec_seq.
  set (w1 := exec (assign_slave slaveIndex i (aget 0 data i =? 1)) w).
  rewrite !exec_seq.
  destruct (log_then_save slaveIndex i (aget 0 data i =? 1) w1) as [Q _].
  destruct (log_then_save_exact slaveIndex i (aget 0 data i =? 1) w1 Hcard) as [R Hsnap].
  set (w3 := exec saveRelayStates (exec (logRelayChange slaveIndex i (aget 0 data i =? 1)) w1)) in *.
  rewrite exec_gets, exec_when.
  assert (R1 : records [] w w1).
  { subst w1. split.
    - exists []. rewrite app_nil_r. split; [reflexivity | constructor].
    - simpl. rewrite saves_app. change (saves [EvAssign _ _ _]) with 0%nat. lia. }
  assert (R4 : records [] w3 (if rotaryPosition w3 =? slaveIndex + 1
                              then exec updateTM1638LEDs w3 else w3) /\
               quiet w3 (if rotaryPosition w3 =? slaveIndex + 1
                         then exec updateTM1638LEDs w3 else w3) /\
               sd (if rotaryPosition w3 =? slaveIndex + 1
                   then exec updateTM1638LEDs w3 else w3) = sd w3).
  { destruct (rotaryPosition w3 =? slaveIndex + 1).
    - split; [|split; [apply updateTM1638LEDs_quiet | reflexivity]].
      split; [exists []; rewrite app_nil_r; split; [reflexivity | constructor]|].
      simpl. rewrite saves_app. change (saves [EvSetLEDs _]) with 0%nat. lia.
    - split; [apply records_refl | split; [apply quiet_refl | reflexivity]]. }
  destruct R4 as (R4 & Q4 & Hsd4).
  split.
  - unfold reported.
    apply (records_trans [] _ _ _ _ R1).
    replace [(slaveIndex, i, aget 0 data i =? 1)]
      with ([(slaveIndex, i, aget 0 data i =? 1)] ++ [] : list (Z * Z * bool))
      by apply app_nil_r.
    apply (records_trans _ _ _ _ _ R R4).
  - rewrite Hsd4, Hsnap. f_equal. symmetry.
    apply states_file_quiet. eapply quiet_trans; [exact Q | exact Q4].
Qed.

Lemma reconcile_loop_exact slaveIndex data n :
  forall lo w,
  card_works env ->
  0 <= slaveIndex < Z.of_nat (length (slaves w)) ->
  0 <= lo ->
  lo + Z.of_nat n <= Z.of_nat (length (relayStates (aget no_slave (slaves w) slaveIndex))) ->
  let changed := differing w slaveIndex data (zrange lo n) in
  let w' := exec (for_loop lo n (reconcile_channel slaveIndex data)) w in
  records ((fun i => (slaveIndex, i, reported data i)) <$> changed) w w' /\
  (changed <> [] -> sd w' !! "/states.txt" = Some (states_file w')).
Proof.
  induction n as [|n IH]; intros lo w Hcard Hidx Hlo Hlen; cbv zeta.
  - simpl. split; [apply records_refl | congruence].
  - rewrite exec_for_loop_S.
    set (s := aget no_slave (slaves w) slaveIndex) in *.
    simpl zrange. unfold differing. simpl List.filter.
    fold (differing w slaveIndex data (zrange (lo + 1) n)).
    destruct (differs w slaveIndex data lo) eqn:D.
    + destruct (reconcile_channel_diff slaveIndex data lo w D)
        as (Hsl & _).
      fold s in Hsl.
      destruct (reconcile_channel_exact slaveIndex data lo w Hcard D) as [R Hsnap].
      set (w1 := exec (reconcile_channel slaveIndex data lo) w) in *.
      assert (Hs1 : aget no_slave (slaves w1) slaveIndex =
                    set_relayStates (aset (relayStates s) lo (reported data lo)) s).
      { rewrite Hsl. apply aget_aset_eq. exact Hidx. }
      assert (Hdiff : differing w1 slaveIndex data (zrange (lo + 1) n) =
                      differing w slaveIndex data (zrange (lo + 1) n)).
      { apply filter_ext_in. intros j Hj. apply in_zrange in Hj.
        unfold differs, channel_state. rewrite Hs1. fold s. simpl.
        rewrite aget_aset_ne by lia. reflexivity. }
      destruct (IH (lo + 1) w1) as [R' Hsnap']; try assumption.
      { rewrite Hsl, length_aset. exact Hidx. }
      { lia. }
      { rewrite Hs1. simpl. rewrite length_aset. lia. }
      rewrite Hdiff in R', Hsnap'.
      split.
      * rewrite fmap_cons.
        apply (records_trans [_] _ _ _ _ R R').
      * intros _.
        destruct (differing w slaveIndex data (zrange (lo + 1) n)) eqn:Erest.
        -- rewrite reconcile_loop_same; [exact Hsnap|].
           intros j Hj.
           destruct (differs w1 slaveIndex data j) eqn:Dj; [|reflexivity].
           exfalso.
           assert (Hin : In j (differing w1 slaveIndex data (zrange (lo + 1) n))).
           { apply filter_In. split; assumption. }
           rewrite Hdiff in Hin. exact Hin.
        -- apply Hsnap'. discriminate.
    + rewrite (reconcile_channel_same slaveIndex data lo w D).
      destruct (IH (lo + 1) w) as [R' Hsnap']; try assumption; try (subst s; lia).
      split; assumption.
Qed.

Lemma onDataReceived_known_exact mac data w :
  wf_world w ->
  let slaveIndex := find_slave mac (slaves w) 0 (Z.to_nat (slaveCount w)) in
  slaveIndex <> -1 ->
  length data = 4%nat ->
  card_works env ->
  let changed := differing w slaveIndex data [0; 1; 2; 3] in
  let w' := exec (onDataReceived mac data) w in
  records ((fun i => (slaveIndex, i, reported data i)) <$> changed) w w' /\
  (changed <> [] -> sd w' !! "/states.txt" = Some (states_file w')).
Proof.
  intros Hwf slaveIndex Hfound Hdata Hcard changed w'.
  set (s := aget no_slave (slaves w) slaveIndex).
  assert (Hrange : 0 <= slaveIndex < Z.of_nat (length (slaves w))).
  { pose proof (find_slave_range mac (slaves w) (Z.to_nat (slaveCount w)) 0 Hfound) as H.
    destruct Hwf. unfold MAX_SLAVES in *. lia. }
  set (w0 := set_slaves (aset (slaves w) slaveIndex (set_active true s)) w).
  assert (Hw' : w' = exec (for_loop 0 4 (reconcile_channel slaveIndex data)) w0).
  { subst w'. unfold Hub.onDataReceived. rewrite !exec_gets. fold slaveIndex.
    destruct (slaveIndex =? -1) eqn:E; [zbool; congruence|]. cbn [negb].
    rewrite exec_seq. rewrite Hdata. reflexivity. }
  assert (Hs0 : aget no_slave (slaves w0) slaveIndex = set_active true s).
  { subst w0. simpl. apply aget_aset_eq. exact Hrange. }
  assert (Hdiff : forall chs, differing w0 slaveIndex data chs = differing w slaveIndex data chs).
  { intros chs. apply filter_ext. intros j. unfold differs, channel_state.
    rewrite Hs0. reflexivity. }
  destruct (reconcile_loop_exact slaveIndex data 4 0 w0 Hcard) as [R Hsnap].
  { subst w0. simpl. rewrite length_aset. exact Hrange. }
  { lia. }
  { rewrite Hs0. simpl. subst s. rewrite wf_relays_at by assumption. simpl. lia. }
  rewrite <- Hw' in *. change (zrange 0 4) with [0; 1; 2; 3] in *.
  rewrite Hdiff in R, Hsnap.
  split; [|exact Hsnap].
  destruct R as [(extra & Hlog & Hrec) Hsaves].
  split; [exists extra; split; [exact Hlog | exact Hrec] | exact Hsaves].
Qed.

(** *** The command path *)

Lemma log_then_save_trace room relay state w :
  exists evs,
    trace (exec saveRelayStates (exec (logRelayChange room relay state) w)) = trace w ++ evs.
Proof.
  rewrite saveRelayStates_run, logRelayChange_run.
  destruct (env_sd_begin env (ticks w)); cbv zeta;
    [destruct (env_sd_open env (S (S (S (ticks w)))))|]; simpl;
    repeat case_if; simpl; rewrite <- ?app_assoc; eauto using app_nil_r.
  all: exists []; symmetry; apply app_nil_r.
Qed.

Lemma esp_now_send_run mac targetRelay state w :
  Hub.esp_now_send env mac targetRelay state w =
  (env_esp_now_send env (ticks w),
   set_trace (trace w ++ [EvSend mac targetRelay state (env_esp_now_send env (ticks w))])
             (set_ticks (S (ticks w)) w)).
Proof. reflexivity. Qed.

Lemma esp_now_add_peer_run mac w :
  Hub.esp_now_add_peer env mac w =
  (env_esp_now_add_peer env (ticks w),
   set_trace (trace w ++ [EvAddPeer mac (env_esp_now_add_peer env (ticks w))])
             (set_ticks (S (ticks w)) w)).
Proof. reflexivity. Qed.

(** A command for a slave outside [0 .. slaveCount - 1] does nothing. *)
Lemma sendCommandToSlave_out slaveIndex relay state w :
  slaveIndex < 0 \/ slaveCount w <= slaveIndex ->
  sendCommandToSlave slaveIndex relay state w = (tt, w).
Proof.
  intros H. unfold Hub.sendCommandToSlave, bind, gets.
  destruct ((slaveIndex <? 0) || (slaveCount w <=? slaveIndex)) eqn:E; [reflexivity|].
  zbool; lia.
Qed.

(** A command for a registered slave whose message the radio refuses:
    the refusal is printed and nothing else happens. *)
Lemma sendCommandToSlave_refused slaveIndex relay state w :
  0 <= slaveIndex < slaveCount w ->
  env_esp_now_send env (ticks w) = false ->
  exec (sendCommandToSlave slaveIndex relay state) w =
  set_ticks (S (ticks w))
    (set_trace (trace w ++ [EvSend (macAddress (aget no_slave (slaves w) slaveIndex))
                                   (relay mod 256) state false;
                            EvSerial "Error sending command"]) w).
Proof.
  intros Hi Hsend.
  cbv beta iota zeta delta [Hub.sendCommandToSlave exec bind gets esp_now_send ask emit
    modify ret Serial_println snd].
  destruct ((slaveIndex <? 0) || (slaveCount w <=? slaveIndex)) eqn:E; [zbool; lia|].
  rewrite Hsend. simpl. rewrite <- app_assoc. reflexivity.
Qed.

(** A command for a registered slave whose message the radio accepts:
    the cell is assigned at once, then logged and saved. *)
Lemma sendCommandToSlave_accepted slaveIndex relay state w :
  0 <= slaveIndex < slaveCount w ->
  env_esp_now_send env (ticks w) = true ->
  let s := aget no_slave (slaves w) slaveIndex in
  let w' := exec (sendCommandToSlave slaveIndex relay state) w in
  slaves w' = aset (slaves w) slaveIndex
                (set_relayStates (aset (relayStates s) relay state) s) /\
  masterRelayStates w' = masterRelayStates w /\
  slaveCount w' = slaveCount w /\
  schedules w' = schedules w /\
  scheduleCount w' = scheduleCount w /\
  rotaryPosition w' = rotaryPosition w /\
  assigns (trace w') = assigns (trace w) ++ [(slaveIndex, relay, state)] /\
  sends (trace w') = sends (trace w) ++ [(macAddress s, relay mod 256, state, true)] /\
  grows 1 1 w w' /\
  exists evs, trace w' = trace w ++ [EvSend (macAddress s) (relay mod 256) state true;
                                     EvSerial "Command sent successfully";
                                     EvAssign slaveIndex relay state] ++ evs.
Proof.
  intros Hi Hsend s w'.
  set (w1 := set_ticks (S (ticks w))
               (set_trace (trace w ++ [EvSend (macAddress s) (relay mod 256) state true;
                                       EvSerial "Command sent successfully";
                                       EvAssign slaveIndex relay state])
                  (set_slaves (aset (slaves w) slaveIndex
                     (set_relayStates (aset (relayStates s) relay state) s)) w))).
  assert (Hw' : w' = exec saveRelayStates (exec (logRelayChange slaveIndex relay state) w1)).
  { subst w' w1 s. unfold Hub.sendCommandToSlave. rewrite exec_gets.
    destruct ((slaveIndex <? 0) || (slaveCount w <=? slaveIndex)) eqn:E; [zbool; lia|].
    rewrite exec_gets, exec_bind, esp_now_send_run. cbn [fst snd].
    rewrite Hsend. rewrite !exec_seq. f_equal. f_equal.
    unfold exec, Serial_println, assign_slave, emit, modify, bind. simpl.
    rewrite <- !app_assoc. reflexivity. }
  destruct (log_then_save slaveIndex relay state w1) as [[] G].
  destruct (log_then_save_trace slaveIndex relay state w1) as [evs Hevs].
  rewrite <- Hw' in *.
  splits; try (etransitivity; [eassumption|]; reflexivity).
  - rewrite q_assigns0. subst w1. simpl. rewrite assigns_app. reflexivity.
  - rewrite q_sends0. subst w1. simpl. rewrite sends_app. reflexivity.
  - destruct G as [(e & He & Le) Hs]. split; [exists e; split; assumption|].
    subst w1. simpl in Hs. rewrite saves_app in Hs.
    change (saves [EvSend _ _ _ _; _; _]) with 0%nat in Hs. lia.
  - exists evs. rewrite Hevs. subst w1. simpl. rewrite <- app_assoc. reflexivity.
Qed.

Lemma relay_command_invalid room relay state w :
  valid_target w room relay = false ->
  relay_command room relay state w = (tt, w).
Proof.
  unfold valid_target, Hub.relay_command. intros H.
  destruct (room =? -1).
  - rewrite H. reflexivity.
  - unfold bind, gets. rewrite H. reflexivity.
Qed.

Lemma relay_command_slave room relay state w :
  room <> -1 -> valid_target w room relay = true ->
  relay_command room relay state w = sendCommandToSlave room relay state w.
Proof.
  unfold valid_target, Hub.relay_command. intros Hr H.
  destruct (room =? -1) eqn:E; [zbool; congruence|].
  unfold bind, gets. rewrite H. reflexivity.
Qed.

(** A command for the master bank: the cell is assigned, the pin is
    driven, then the change is logged and saved. *)
Lemma relay_command_master relay state w :
  0 <= relay < 4 ->
  let w' := exec (relay_command (-1) relay state) w in
  masterRelayStates w' = aset (masterRelayStates w) relay state /\
  slaves w' = slaves w /\
  slaveCount w' = slaveCount w /\
  schedules w' = schedules w /\
  scheduleCount w' = scheduleCount w /\
  rotaryPosition w' = rotaryPosition w /\
  assigns (trace w') = assigns (trace w) ++ [(-1, relay, state)] /\
  sends (trace w') = sends (trace w) /\
  grows 1 1 w w' /\
  exists evs, trace w' = trace w ++ [EvAssign (-1) relay state;
                                     EvDigitalWrite (aget 0 relayPins relay) state] ++ evs.
Proof.
  intros Hr w'.
  set (w1 := set_trace (trace w ++ [EvAssign (-1) relay state;
                                    EvDigitalWrite (aget 0 relayPins relay) state])
               (set_master (aset (masterRelayStates w) relay state) w)).
  assert (Hw' : w' = exec saveRelayStates (exec (logRelayChange (-1) relay state) w1)).
  { subst w' w1. unfold Hub.relay_command. cbn [Z.eqb Pos.eqb].
    destruct ((0 <=? relay) && (relay <? 4)) eqn:E; [|zbool; lia]. cbn [when].
    rewrite !exec_seq. f_equal. f_equal.
    unfold exec, assign_master, digitalWrite, emit, modify, bind. simpl.
    rewrite <- !app_assoc. reflexivity. }
  destruct (log_then_save (-1) relay state w1) as [[] G].
  destruct (log_then_save_trace (-1) relay state w1) as [evs Hevs].
  rewrite <- Hw' in *.
  splits; try (etransitivity; [eassumption|]; reflexivity).
  - rewrite q_assigns0. subst w1. simpl. rewrite assigns_app. reflexivity.
  - rewrite q_sends0. subst w1. simpl. rewrite sends_app. apply app_nil_r.
  - destruct G as [(e & He & Le) Hs]. split; [exists e; split; assumption|].
    subst w1. simpl in Hs. rewrite saves_app in Hs.
    change (saves [EvAssign _ _ _; _]) with 0%nat in Hs. lia.
  - exists evs. rewrite Hevs. subst w1. simpl. rewrite <- app_assoc. reflexivity.
Qed.

Lemma handleRelayToggle_run request w :
  let q := get_params request in
  hasParam q "room" && hasParam q "relay" && hasParam q "state" = true ->
  exec (handleRelayToggle request) w =
  exec (redirect "/")
       (exec (relay_command (param_toInt q "room") (param_toInt q "relay")
                            (param_toInt q "state" =? 1)) w).
Proof.
  intros q H. unfold Hub.handleRelayToggle. fold q. rewrite H. cbn [when].
  apply exec_seq.
Qed.

(** C1, as amended.  A reconciliation makes exactly one assignment, at
    most one log line and at most one snapshot rewrite for each channel
    whose reported value differs from the directory, in channel order,
    and none for a channel that agrees.  A command for a valid target
    (for a slave: when the radio accepts the message) makes exactly one
    assignment, at most one log line and at most one snapshot rewrite,
    whatever the current value of the cell is. *)
Theorem C1_one_assignment_per_change w :
  wf_world w ->
  (forall mac data,
      let slaveIndex := find_slave mac (slaves w) 0 (Z.to_nat (slaveCount w)) in
      slaveIndex <> -1 -> length data = 4%nat ->
      let changed := differing w slaveIndex data [0; 1; 2; 3] in
      let w' := exec (onDataReceived mac data) w in
      assigns (trace w') =
        assigns (trace w) ++ ((fun i => (slaveIndex, i, reported data i)) <$> changed) /\
      grows (length changed) (length changed) w w') /\
  (forall room relay state,
      valid_target w room relay = true ->
      room = -1 \/ env_esp_now_send env (ticks w) = true ->
      let w' := exec (relay_command room relay state) w in
      assigns (trace w') = assigns (trace w) ++ [(room, relay, state)] /\
      grows 1 1 w w').
Proof.
  intros Hwf. split.
  - intros mac data slaveIndex Hfound Hdata changed w'.
    destruct (onDataReceived_known mac data w Hwf Hfound Hdata)
      as (_ & _ & _ & _ & _ & _ & Hasg & _ & G).
    split; assumption.
  - intros room relay state Hvalid Hsent w'.
    destruct (Z.eq_dec room (-1)) as [->|Hroom].
    + unfold valid_target in Hvalid. cbn [Z.eqb Pos.eqb] in Hvalid. zbool.
      destruct (relay_command_master relay state w)
        as (_ & _ & _ & _ & _ & _ & Hasg & _ & G & _); [lia|].
      split; assumption.
    + destruct Hsent as [|Hsent]; [congruence|].
      subst w'. unfold exec. rewrite relay_command_slave by assumption.
      unfold valid_target in Hvalid.
      destruct (room =? -1) eqn:E; [zbool; congruence|]. zbool.
      destruct (sendCommandToSlave_accepted room relay state w)
        as (_ & _ & _ & _ & _ & _ & Hasg & _ & G & _); [lia | assumption |].
      split; assumption.
Qed.


(** *** Registration *)

Lemma saveSlaveInfo_run w :
  exec (saveSlaveInfo env) w =
  if env_sd_begin env (ticks w) then
    set_ticks (S (S (ticks w)))
      (if env_sd_open env (S (ticks w)) then
         set_trace (trace w ++ [EvSerial "Slave info saved"])
           (set_sd (<["/slaves.txt" := slaves_file w]> (sd w)) w)
       else set_sd (delete "/slaves.txt" (sd w)) w)
  else set_ticks (S (ticks w)) (set_trace (trace w ++ [EvSerial "SD Card failed to mount"]) w).
Proof.
  cbv beta iota zeta delta [Hub.saveSlaveInfo exec bind SD_begin ask SD_exists
    SD_remove SD_open_write file_write_lines Serial_println emit modify gets when ret
    negb snd].
  destruct (env_sd_begin env (ticks w)); simpl; [|reflexivity].
  case_bool_decide as Hs; simpl; destruct (env_sd_open env (S (ticks w))); simpl;
    rewrite ?lookup_insert_eq, ?insert_insert_eq, ?insert_delete_eq; simpl;
    try reflexivity.
  rewrite delete_id; [reflexivity|].
  destruct (sd w !! "/slaves.txt"); [|reflexivity]. exfalso. eauto.
Qed.

(** Saving the directory touches neither the relay states nor the log
    nor the snapshot of the relay states. *)
Lemma saveSlaveInfo_frame w :
  let w' := exec (saveSlaveInfo env) w in
  quiet w w' /\
  (forall path, path <> "/slaves.txt" -> sd w' !! path = sd w !! path) /\
  saves (trace w') = saves (trace w) /\
  exists evs, trace w' = trace w ++ evs.
Proof.
  cbv zeta. rewrite saveSlaveInfo_run.
  destruct (env_sd_begin env (ticks w));
    [destruct (env_sd_open env (S (ticks w)))|];
    (splits;
     [ constructor; simpl; rewrite ?assigns_app, ?sends_app, ?app_nil_r; reflexivity
     | intros path Hp; simpl; rewrite ?lookup_insert_ne, ?lookup_delete_ne by congruence;
       reflexivity
     | simpl; rewrite ?saves_app; try reflexivity
     | simpl; eauto using app_nil_r ]).
  - change (saves [EvSerial "Slave info saved"]) with 0%nat. lia.
  - rewrite saves_mount_failed. lia.
Qed.

(** What both registration paths do with a candidate entry: write it
    after the last registered slave, offer its address to the radio,
    and count it in (and save the directory) when the radio takes it. *)
Lemma register_candidate cand w :
  let count := slaveCount w in
  let added := env_esp_now_add_peer env (ticks w) in
  let w' :=
    exec (modify (fun w0 => set_slaves (aset (slaves w0) count cand) w0) ;;
          added <- Hub.esp_now_add_peer env (macAddress cand) ;;
          when added (modify (set_slaveCount (count + 1)) ;; saveSlaveInfo env)) w in
  slaves w' = aset (slaves w) count cand /\
  slaveCount w' = (if added then count + 1 else count) /\
  masterRelayStates w' = masterRelayStates w /\
  schedules w' = schedules w /\
  scheduleCount w' = scheduleCount w /\
  rotaryPosition w' = rotaryPosition w /\
  assigns (trace w') = assigns (trace w) /\
  sends (trace w') = sends (trace w) /\
  saves (trace w') = saves (trace w) /\
  (forall path, path <> "/slaves.txt" -> sd w' !! path = sd w !! path) /\
  (added = false -> sd w' = sd w) /\
  exists evs, trace w' = trace w ++ EvAddPeer (macAddress cand) added :: evs.
Proof.
  intros count added w'. subst w'.
  rewrite exec_seq, exec_bind, esp_now_add_peer_run. cbn [fst snd].
  change (exec (modify (fun w0 => set_slaves (aset (slaves w0) count cand) w0)) w)
    with (set_slaves (aset (slaves w) count cand) w).
  cbn [ticks trace set_slaves]. fold added.
  set (w1 := set_trace _ _).
  assert (Hw1 : w1 = set_trace (trace w ++ [EvAddPeer (macAddress cand) added])
                      (set_ticks (S (ticks w))
                         (set_slaves (aset (slaves w) count cand) w))) by reflexivity.
  destruct added eqn:Ha; cbn [when].
  - rewrite exec_seq.
    set (w2 := exec (modify (set_slaveCount (count + 1))) w1).
    destruct (saveSlaveInfo_frame w2) as ([] & Hsd & Hsv & evs & Hevs).
    splits; try (etransitivity; [eassumption|]; subst w2 w1; simpl;
                 rewrite ?assigns_app, ?sends_app, ?saves_app, ?app_nil_r; reflexivity).
    + rewrite Hsv. subst w2 w1. simpl. rewrite saves_app.
      change (saves [EvAddPeer _ _]) with 0%nat. lia.
    + intros path Hp. rewrite Hsd by exact Hp. reflexivity.
    + discriminate.
    + exists evs. rewrite Hevs. subst w2 w1. simpl. rewrite <- app_assoc. reflexivity.
  - rewrite exec_ret. subst w1. simpl.
    splits; rewrite ?assigns_app, ?sends_app, ?saves_app, ?app_nil_r; try reflexivity.
    + change (saves [EvAddPeer _ _]) with 0%nat. lia.
    + exists []. reflexivity.
Qed.

Lemma last_snoc_app {A} (l m : list A) x : last (l ++ m ++ [x]) = Some x.
Proof. rewrite app_assoc. apply last_snoc. Qed.

(** C4, as amended.  Registering an address that is registered
    already does not create a second directory entry, but not because
    [handleAddSlave] resolves it: the handler never looks the address
    up.  While the directory has room it writes the candidate into the
    first free slot and offers the address to the radio.  The radio
    holds the address of every registered slave ([directory_held],
    which every entry point keeps: an entry is counted in only after
    [esp_now_add_peer] took it, and no peer is ever removed), and for
    an address that it holds it answers [ESP_ERR_ESPNOW_EXIST]
    ([refuses_held_peer]), so the candidate is not counted in; when the
    directory is full the handler does not get that far.  Either way
    the node count, every registered entry and the card are as before;
    the address is still found at the index it had; the name of that
    entry is not updated; and the caller gets the redirect that every
    request gets, neither an id nor an error.  The only trace left is
    the stale candidate in the free slot behind the directory. *)
Theorem C4_register_by_request request macBytes w :
  let q := post_params request in
  hasParam q "mac" && hasParam q "name" = true ->
  sscanf_mac (default EmptyString (lookup_param q "mac")) = Some macBytes ->
  let mac := mac_of_ints macBytes in
  let existing := find_slave mac (slaves w) 0 (Z.to_nat (slaveCount w)) in
  existing <> -1 ->
  directory_held w ->
  refuses_held_peer env w mac ->
  let candidate := mkSlave mac false [false; false; false; false]
                           (default EmptyString (lookup_param q "name")) in
  let w' := exec (handleAddSlave request) w in
  w' = (if slaveCount w <? MAX_SLAVES
        then set_trace (trace w ++ [EvAddPeer mac false; EvRedirect "/"])
               (set_ticks (S (ticks w))
                  (set_slaves (aset (slaves w) (slaveCount w) candidate) w))
        else set_trace (trace w ++ [EvRedirect "/"]) w) /\
  slaveCount w' = slaveCount w /\
  (forall i, 0 <= i < slaveCount w ->
     aget no_slave (slaves w') i = aget no_slave (slaves w) i) /\
  find_slave mac (slaves w') 0 (Z.to_nat (slaveCount w')) = existing /\
  name (aget no_slave (slaves w') existing) = name (aget no_slave (slaves w) existing) /\
  sd w' = sd w.
Proof.
  intros q Hparams Hscan mac existing Hfound Hheld Hradio candidate w'.
  assert (Hrange : 0 <= existing < slaveCount w).
  { pose proof (find_slave_range mac (slaves w) (Z.to_nat (slaveCount w)) 0 Hfound) as H.
    fold existing in H. lia. }
  assert (Hrefused : env_esp_now_add_peer env (ticks w) = false).
  { apply Hradio.
    pose proof (find_slave_hit mac (slaves w) (Z.to_nat (slaveCount w)) 0 Hfound) as Hhit.
    fold existing in Hhit. unfold memcmp6 in Hhit. apply bool_decide_eq_true in Hhit.
    rewrite Hhit. apply Hheld, Hrange. }
  assert (Hw' : w' = (if slaveCount w <? MAX_SLAVES
                      then set_trace (trace w ++ [EvAddPeer mac false; EvRedirect "/"])
                             (set_ticks (S (ticks w))
                                (set_slaves (aset (slaves w) (slaveCount w) candidate) w))
                      else set_trace (trace w ++ [EvRedirect "/"]) w)).
  { subst w'. unfold Hub.handleAddSlave. fold q. rewrite exec_gets, Hparams.
    destruct (slaveCount w <? MAX_SLAVES) eqn:E; [|reflexivity].
    cbn [andb when]. rewrite exec_seq, Hscan. fold mac candidate.
    rewrite exec_seq, exec_bind, esp_now_add_peer_run. cbn [fst snd].
    change (exec (modify (fun w0 => set_slaves (aset (slaves w0) (slaveCount w) candidate) w0)) w)
      with (set_slaves (aset (slaves w) (slaveCount w) candidate) w).
    cbn [ticks set_slaves]. rewrite Hrefused. cbn [when]. rewrite exec_ret.
    unfold exec, redirect, emit, modify. cbn [snd trace set_trace set_ticks set_slaves].
    rewrite <- app_assoc. reflexivity. }
  assert (Hcount : slaveCount w' = slaveCount w).
  { rewrite Hw'. destruct (slaveCount w <? MAX_SLAVES); reflexivity. }
  assert (Hkept : forall i, 0 <= i < slaveCount w ->
            aget no_slave (slaves w') i = aget no_slave (slaves w) i).
  { intros i Hi. rewrite Hw'. destruct (slaveCount w <? MAX_SLAVES); [|reflexivity].
    cbn [slaves set_trace set_ticks set_slaves]. apply aget_aset_ne. lia. }
  splits.
  - exact Hw'.
  - exact Hcount.
  - exact Hkept.
  - rewrite Hcount.
    apply find_slave_ext_in. intros k Hk. rewrite Hkept by lia. reflexivity.
  - rewrite Hkept by lia. reflexivity.
  - rewrite Hw'. destruct (slaveCount w <? MAX_SLAVES); reflexivity.
Qed.

Lemma find_slave_miss mac sl n :
  forall lo, find_slave mac sl lo n = -1 -> 0 <= lo ->
  forall k, lo <= k < lo + Z.of_nat n ->
  memcmp6 mac (macAddress (aget no_slave sl k)) = false.
Proof.
  induction n as [|n IH]; intros lo Hf Hlo k Hk; [lia|].
  simpl in Hf.
  destruct (memcmp6 mac (macAddress (aget no_slave sl lo))) eqn:E; [lia|].
  destruct (Z.eq_dec k lo) as [->|Hne]; [exact E|].
  apply (IH (lo + 1)); [assumption | lia | lia].
Qed.

Lemma find_slave_first mac sl n :
  forall lo k, 0 <= lo -> lo <= k < lo + Z.of_nat n ->
  (forall j, lo <= j < k -> memcmp6 mac (macAddress (aget no_slave sl j)) = false) ->
  memcmp6 mac (macAddress (aget no_slave sl k)) = true ->
  find_slave mac sl lo n = k.
Proof.
  induction n as [|n IH]; intros lo k Hlo Hk Hbefore Hat; [lia|].
  simpl. destruct (Z.eq_dec k lo) as [->|Hne].
  - rewrite Hat. reflexivity.
  - rewrite Hbefore by lia. apply IH; [lia | lia | | assumption].
    intros j Hj. apply Hbefore. lia.
Qed.

(** C5, as amended.  A status report from an address that is not in the
    directory, while there is room, only registers the sender: the
    entry gets the name ["Auto "] followed by the address, is marked
    active and has all four channels off, and it joins the directory
    when the radio accepts the peer.  The reported vector is not
    applied in that call: no assignment, no log line, no snapshot of the
    relay states.  Once the entry has joined, the next report from the
    same address finds it. *)
Theorem C5_report_from_unknown_sender mac data w :
  wf_world w ->
  find_slave mac (slaves w) 0 (Z.to_nat (slaveCount w)) = -1 ->
  slaveCount w < MAX_SLAVES ->
  let candidate := mkSlave (take 6 mac) true [false; false; false; false]
                           ("Auto " +:+ getMacString mac) in
  let added := env_esp_now_add_peer env (ticks w) in
  let w' := exec (onDataReceived mac data) w in
  (forall i, 0 <= i < slaveCount w ->
     aget no_slave (slaves w') i = aget no_slave (slaves w) i) /\
  aget no_slave (slaves w') (slaveCount w) = candidate /\
  slaveCount w' = (if added then slaveCount w + 1 else slaveCount w) /\
  masterRelayStates w' = masterRelayStates w /\
  assigns (trace w') = assigns (trace w) /\
  log_of w' = log_of w /\
  saves (trace w') = saves (trace w) /\
  sd w' !! "/states.txt" = sd w !! "/states.txt" /\
  (added = true ->
     find_slave mac (slaves w') 0 (Z.to_nat (slaveCount w')) = slaveCount w).
Proof.
  intros Hwf Hmiss Hroom candidate added w'.
  assert (Hw' : w' =
      exec (modify (fun w0 => set_slaves (aset (slaves w0) (slaveCount w) candidate) w0) ;;
            added <- Hub.esp_now_add_peer env (macAddress candidate) ;;
            when added (modify (set_slaveCount (slaveCount w + 1)) ;; saveSlaveInfo env)) w).
  { subst w'. unfold Hub.onDataReceived. rewrite !exec_gets, Hmiss. cbn [Z.eqb negb].
    destruct (slaveCount w <? MAX_SLAVES) eqn:E; [|zbool; lia]. reflexivity. }
  destruct (register_candidate candidate w)
    as (Hsl & Hsc & Hm & _ & _ & _ & Hasg & _ & Hsv & Hsd & _ & _).
  fold added in Hsc. rewrite <- Hw' in *.
  assert (Hin : 0 <= slaveCount w < Z.of_nat (length (slaves w))).
  { destruct Hwf. unfold MAX_SLAVES in *. lia. }
  splits; try assumption.
  - intros i Hi. rewrite Hsl. apply aget_aset_ne. lia.
  - rewrite Hsl. apply aget_aset_eq. exact Hin.
  - unfold log_of. rewrite Hsd by discriminate. reflexivity.
  - apply Hsd. discriminate.
  - intros Ha. rewrite Hsc, Ha, Hsl.
    apply find_slave_first; [lia | lia | |].
    + intros j Hj. rewrite aget_aset_ne by lia.
      apply (find_slave_miss mac (slaves w) (Z.to_nat (slaveCount w)) 0 Hmiss); lia.
    + rewrite aget_aset_eq by exact Hin. simpl. unfold memcmp6.
      apply bool_decide_eq_true. rewrite take_take. reflexivity.
Qed.

(** C7, as amended.  For a report from a registered slave,
    reconciliation is idempotent.  A status report of four channels is
    compared channel by channel with the directory: the channels that
    differ, and only they, are assigned, each once and in channel
    order, after which the directory holds the reported vector and the
    slave is marked active.  For each of these channels the log gains
    at most one record and the snapshot is rewritten at most once; on a
    card that works it is exactly one record, for that room, relay and
    state and in channel order, and exactly one rewrite, and the
    snapshot on the card is then that of the new states.  A second
    delivery of the same report changes nothing at all: no assignment,
    no log line, no snapshot, not even a call to the card.

    A report from a sender that is not registered is not reconciled:
    nothing is assigned, logged or saved.  When there is room and the
    radio takes the address, the sender is registered by that report
    with all channels off, so that a second, identical report is the
    first to be reconciled: it is that one which writes the channels
    reported on. *)
Theorem C7_reconcile_idempotent mac data w :
  wf_world w ->
  length data = 4%nat ->
  let slaveIndex := find_slave mac (slaves w) 0 (Z.to_nat (slaveCount w)) in
  let changed := differing w slaveIndex data [0; 1; 2; 3] in
  let changes := (fun i => (slaveIndex, i, reported data i)) <$> changed in
  let w1 := exec (onDataReceived mac data) w in
  let w2 := exec (onDataReceived mac data) w1 in
  (slaveIndex <> -1 ->
     assigns (trace w1) = assigns (trace w) ++ changes /\
     grows (length changed) (length changed) w w1 /\
     (card_works env ->
        records changes w w1 /\
        (changed <> [] -> sd w1 !! "/states.txt" = Some (states_file w1))) /\
     (forall i, 0 <= i < 4 -> channel_state w1 slaveIndex i = reported data i) /\
     active (aget no_slave (slaves w1) slaveIndex) = true /\
     w2 = w1) /\
  (slaveIndex = -1 ->
     assigns (trace w1) = assigns (trace w) /\
     log_of w1 = log_of w /\
     saves (trace w1) = saves (trace w) /\
     (slaveCount w < MAX_SLAVES -> env_esp_now_add_peer env (ticks w) = true ->
        find_slave mac (slaves w1) 0 (Z.to_nat (slaveCount w1)) = slaveCount w /\
        forall i, channel_state w1 (slaveCount w) i = false)).
Proof.
  intros Hwf Hdata slaveIndex changed changes w1 w2. subst changes. split.
  - intros Hfound.
    destruct (onDataReceived_known mac data w Hwf Hfound Hdata)
      as (Hsl & Hm & Hsc & Hsch & Hschc & Hrot & Hasg & Hsnd & G).
    fold slaveIndex in Hsl, Hasg, G. fold w1 in Hsl, Hm, Hsc, Hsch, Hschc, Hrot, Hasg, Hsnd, G.
    assert (Hrange : 0 <= slaveIndex < Z.of_nat (length (slaves w))).
    { pose proof (find_slave_range mac (slaves w) (Z.to_nat (slaveCount w)) 0 Hfound) as H.
      destruct Hwf. unfold MAX_SLAVES in *. fold slaveIndex in H. lia. }
    set (s1 := mkSlave (macAddress (aget no_slave (slaves w) slaveIndex)) true
                       (reported data <$> [0; 1; 2; 3])
                       (name (aget no_slave (slaves w) slaveIndex))) in *.
    assert (Hs1 : aget no_slave (slaves w1) slaveIndex = s1).
    { rewrite Hsl. apply aget_aset_eq. exact Hrange. }
    assert (Hcells : forall i, 0 <= i < 4 -> channel_state w1 slaveIndex i = reported data i).
    { intros i Hi. unfold channel_state. rewrite Hs1. apply reported_cells, Hi. }
    splits; try assumption.
    + intros Hcard. apply (onDataReceived_known_exact mac data w Hwf Hfound Hdata Hcard).
    + rewrite Hs1. reflexivity.
    + subst w2. unfold Hub.onDataReceived. rewrite !exec_gets.
      rewrite Hsc, Hsl, find_slave_aset by reflexivity. fold slaveIndex.
      destruct (slaveIndex =? -1) eqn:E; [zbool; exfalso; exact (Hfound E)|]. cbn [negb].
      rewrite exec_seq, Hdata. cbn [when Z.of_nat Z.eqb Pos.of_succ_nat Pos.succ Pos.eqb].
      assert (Hw1 : exec (modify (fun w0 =>
                      set_slaves (aset (slaves w0) slaveIndex
                                       (set_active true (aget no_slave (slaves w0) slaveIndex))) w0))
                    w1 = w1).
      { unfold exec, modify. cbn [snd]. rewrite Hs1.
        change (set_active true s1) with s1. rewrite <- Hs1 at 1.
        rewrite aset_aget. apply set_slaves_id. }
      rewrite Hw1. apply reconcile_loop_same.
      intros j Hj. apply in_zrange in Hj. unfold differs.
      rewrite Hcells by lia. destruct (reported data j); reflexivity.
  - intros Hmiss.
    destruct (slaveCount w <? MAX_SLAVES) eqn:E; zbool.
    2:{ assert (Hw1 : w1 = w).
        { subst w1. unfold Hub.onDataReceived. rewrite !exec_gets. fold slaveIndex.
          rewrite Hmiss. cbn [Z.eqb negb].
          destruct (slaveCount w <? MAX_SLAVES) eqn:E'; [zbool; lia | reflexivity]. }
        rewrite Hw1. splits; try reflexivity. intros; lia. }
    set (candidate := mkSlave (take 6 mac) true [false; false; false; false]
                              ("Auto " +:+ getMacString mac)).
    assert (Hw1 : w1 =
      exec (modify (fun w0 => set_slaves (aset (slaves w0) (slaveCount w) candidate) w0) ;;
            added <- Hub.esp_now_add_peer env (macAddress candidate) ;;
            when added (modify (set_slaveCount (slaveCount w + 1)) ;; saveSlaveInfo env)) w).
    { subst w1. unfold Hub.onDataReceived. rewrite !exec_gets. fold slaveIndex.
      rewrite Hmiss. cbn [Z.eqb negb].
      destruct (slaveCount w <? MAX_SLAVES) eqn:E'; [|zbool; lia]. reflexivity. }
    destruct (register_candidate candidate w)
      as (Hsl & Hsc & _ & _ & _ & _ & Hasg & _ & Hsv & Hsd & _ & _).
    rewrite <- Hw1 in *.
    assert (Hin : 0 <= slaveCount w < Z.of_nat (length (slaves w))).
    { destruct Hwf. unfold MAX_SLAVES in *. lia. }
    splits; try assumption.
    + unfold log_of. rewrite Hsd by discriminate. reflexivity.
    + intros _ Ha. rewrite Ha in Hsc. split.
      * rewrite Hsc, Hsl.
        apply find_slave_first; [lia | lia | |].
        -- intros j Hj. rewrite aget_aset_ne by lia.
           apply (find_slave_miss mac (slaves w) (Z.to_nat (slaveCount w)) 0 Hmiss); lia.
        -- rewrite aget_aset_eq by exact Hin. simpl. unfold memcmp6.
           apply bool_decide_eq_true. rewrite take_take. reflexivity.
      * intros i. unfold channel_state. rewrite Hsl, aget_aset_eq by exact Hin.
        unfold candidate, aget. cbn [relayStates].
        destruct (i <? 0); [reflexivity|].
        destruct (Z.to_nat i) as [|[|[|[|[|n]]]]]; reflexivity.
Qed.

(** *** The tick *)

Lemma Forall_aset {A} (P : A -> Prop) l i x :
  Forall P l -> P x -> Forall P (aset l i x).
Proof.
  intros Hl Hx. unfold aset. destruct (i <? 0); [exact Hl|].
  apply Forall_insert; assumption.
Qed.

Lemma Forall_aget {A} (P : A -> Prop) d l i :
  Forall P l -> P d -> P (aget d l i).
Proof.
  intros Hl Hd. unfold aget. destruct (i <? 0); [exact Hd|].
  destruct (l !! Z.to_nat i) eqn:E; simpl; [|exact Hd].
  rewrite Forall_lookup in Hl. exact (Hl _ _ E).
Qed.

(** The command path leaves the schedules, the counters and the panel
    position alone and keeps the arrays at their sizes. *)
Lemma relay_command_keeps room relay state w :
  let w' := exec (relay_command room relay state) w in
  schedules w' = schedules w /\
  scheduleCount w' = scheduleCount w /\
  slaveCount w' = slaveCount w /\
  rotaryPosition w' = rotaryPosition w /\
  length (masterRelayStates w') = length (masterRelayStates w) /\
  (wf_world w -> wf_world w').
Proof.
  intros w'. subst w'.
  destruct (valid_target w room relay) eqn:Hv.
  2:{ unfold exec. rewrite relay_command_invalid by exact Hv. simpl. tauto. }
  destruct (Z.eq_dec room (-1)) as [->|Hroom].
  - unfold valid_target in Hv. cbn [Z.eqb Pos.eqb] in Hv. zbool.
    destruct (relay_command_master relay state w)
      as (Hm & Hsl & Hsc & Hsch & Hschc & Hrot & _); [lia|].
    splits; try assumption.
    + rewrite Hm. apply length_aset.
    + intros []. constructor; try congruence.
      rewrite Hm, length_aset. assumption.
  - unfold exec. rewrite relay_command_slave by assumption.
    unfold valid_target in Hv. destruct (room =? -1) eqn:E; [zbool; congruence|]. zbool.
    destruct (env_esp_now_send env (ticks w)) eqn:Hsend.
    + destruct (sendCommandToSlave_accepted room relay state w)
        as (Hsl & Hm & Hsc & Hsch & Hschc & Hrot & _); [lia | assumption |].
      unfold exec in *. splits; try assumption.
      * rewrite Hm. reflexivity.
      * intros []. constructor; try congruence.
        -- rewrite Hsl, length_aset. assumption.
        -- rewrite Hsl. apply Forall_aset; [assumption|].
           simpl. rewrite length_aset.
           apply (Forall_aget (fun s => length (relayStates s) = 4%nat)); [assumption|].
           reflexivity.
    + pose proof (sendCommandToSlave_refused room relay state w) as Hr.
      unfold exec in Hr. rewrite Hr by (assumption || lia). simpl.
      splits; try reflexivity. intros []. constructor; assumption.
Qed.

Lemma run_schedule_idle now i w :
  due now (aget no_schedule (schedules w) i) = false ->
  exec (run_schedule now i) w = w.
Proof.
  intros H. unfold Hub.run_schedule. rewrite exec_gets.
  unfold due in H. rewrite H. reflexivity.
Qed.

(** For a due action the loop body is the step of the design: the
    inlined master branch reads the cell back after assigning it, which
    gives the assigned value because the relay index is within the
    bank. *)
Lemma run_schedule_due now i w :
  length (masterRelayStates w) = 4%nat ->
  due now (aget no_schedule (schedules w) i) = true ->
  exec (run_schedule now i) w = exec (spec_fire i (aget no_schedule (schedules w) i)) w.
Proof.
  intros Hlen H. unfold Hub.run_schedule, Hub.spec_fire. rewrite exec_gets.
  set (item := aget no_schedule (schedules w) i) in *.
  unfold due in H. rewrite H. rewrite !exec_seq.
  f_equal. f_equal. unfold Hub.relay_command.
  destruct (roomIndex item =? -1); [|reflexivity].
  destruct ((0 <=? relayIndex item) && (relayIndex item <? 4)) eqn:E; [|reflexivity].
  cbn [when]. rewrite !exec_seq, exec_gets, !exec_seq.
  assert (Hcell : aget false (masterRelayStates
                    (exec (assign_master (relayIndex item) (targetState item)) w))
                    (relayIndex item) = targetState item).
  { simpl. apply aget_aset_eq. zbool. lia. }
  rewrite Hcell. reflexivity.
Qed.

Lemma panel_refresh_quiet item w :
  quiet w (exec (panel_refresh item) w) /\
  sd (exec (panel_refresh item) w) = sd w /\
  ticks (exec (panel_refresh item) w) = ticks w /\
  saves (trace (exec (panel_refresh item) w)) = saves (trace w).
Proof.
  unfold panel_refresh. rewrite exec_gets, exec_when.
  case_if; splits; try reflexivity; try apply quiet_refl.
  - apply updateTM1638LEDs_quiet.
  - simpl. rewrite saves_app. change (saves [EvSetLEDs _]) with 0%nat. lia.
Qed.

Lemma spec_fire_keeps i item w :
  let w' := exec (spec_fire i item) w in
  schedules w' = aset (schedules w) i (set_executed true (aget no_schedule (schedules w) i)) /\
  scheduleCount w' = scheduleCount w /\
  slaveCount w' = slaveCount w /\
  (wf_world w -> wf_world w').
Proof.
  intros w'. subst w'. unfold Hub.spec_fire. rewrite !exec_seq.
  destruct (relay_command_keeps (roomIndex item) (relayIndex item) (targetState item) w)
    as (Hsch & Hschc & Hsc & Hrot & Hlen & Hwf).
  remember (exec (relay_command (roomIndex item) (relayIndex item) (targetState item)) w)
    as w1 eqn:Hw1. clear Hw1.
  destruct (panel_refresh_quiet item (exec (modify (mark_executed i)) w1)) as ([] & _).
  remember (exec (panel_refresh item) (exec (modify (mark_executed i)) w1)) as w2 eqn:Hw2.
  clear Hw2. simpl in *.
  splits.
  - rewrite q_schedules0, Hsch. reflexivity.
  - congruence.
  - congruence.
  - intros H. destruct (Hwf H). constructor; try congruence.
    rewrite q_schedules0, length_aset. assumption.
Qed.

Lemma spec_fire_all_ext items items' slots :
  (forall j, In j slots -> aget no_schedule items' j = aget no_schedule items j) ->
  spec_fire_all items' slots = spec_fire_all items slots.
Proof.
  induction slots as [|i slots IH]; intros H; [reflexivity|].
  simpl. rewrite H by (left; reflexivity). rewrite IH; [reflexivity|].
  intros j Hj. apply H. right. exact Hj.
Qed.

(** The first loop of [processSchedules] over the slots
    [lo .. lo + n - 1]: the due actions are fired in slot order, each is
    marked, and no other slot changes. *)
Lemma first_loop now n :
  forall lo w,
  wf_world w -> 0 <= lo -> lo + Z.of_nat n <= Z.of_nat (length (schedules w)) ->
  let due_slots :=
    List.filter (fun i => due now (aget no_schedule (schedules w) i)) (zrange lo n) in
  let w' := exec (for_loop lo n (run_schedule now)) w in
  w' = exec (spec_fire_all (schedules w) due_slots) w /\
  wf_world w' /\
  scheduleCount w' = scheduleCount w /\
  slaveCount w' = slaveCount w /\
  forall j, aget no_schedule (schedules w') j =
            if (lo <=? j) && (j <? lo + Z.of_nat n) &&
               due now (aget no_schedule (schedules w) j)
            then set_executed true (aget no_schedule (schedules w) j)
            else aget no_schedule (schedules w) j.
Proof.
  induction n as [|n IH]; intros lo w Hwf Hlo Hlen; cbv zeta.
  - simpl. splits; try reflexivity; try assumption.
    intros j. case_if; [zbool; lia | reflexivity].
  - rewrite exec_for_loop_S. simpl zrange. simpl List.filter.
    destruct (due now (aget no_schedule (schedules w) lo)) eqn:D.
    + rewrite run_schedule_due by (assumption || apply Hwf).
      destruct (spec_fire_keeps lo (aget no_schedule (schedules w) lo) w)
        as (Hsch & Hschc & Hsc & Hwf1).
      set (w1 := exec (spec_fire lo (aget no_schedule (schedules w) lo)) w) in *.
      assert (Hother : forall j, j <> lo ->
                aget no_schedule (schedules w1) j = aget no_schedule (schedules w) j).
      { intros j Hj. rewrite Hsch. apply aget_aset_ne. congruence. }
      destruct (IH (lo + 1) w1) as (Hrun & Hwf' & Hschc' & Hsc' & Hmarks).
      { apply Hwf1, Hwf. }
      { lia. }
      { rewrite Hsch, length_aset. lia. }
      splits; try congruence.
      * rewrite Hrun. cbn [Hub.spec_fire_all]. rewrite exec_seq. fold w1.
        f_equal.
        rewrite (filter_ext_in (fun i => due now (aget no_schedule (schedules w1) i))
                               (fun i => due now (aget no_schedule (schedules w) i))).
        2:{ intros j Hj. apply in_zrange in Hj. rewrite Hother by lia. reflexivity. }
        apply spec_fire_all_ext. intros j Hj.
        apply filter_In in Hj. destruct Hj as [Hj _]. apply in_zrange in Hj.
        apply Hother. lia.
      * intros j. rewrite Hmarks.
        destruct (Z.eq_dec j lo) as [->|Hne].
        -- rewrite Hsch, aget_aset_eq by lia. rewrite D.
           repeat case_if; try reflexivity; zbool; lia.
        -- rewrite Hother by exact Hne.
           repeat case_if; try reflexivity; zbool; try lia; congruence.
    + rewrite run_schedule_idle by exact D.
      destruct (IH (lo + 1) w Hwf) as (Hrun & Hwf' & Hschc' & Hsc' & Hmarks); try lia.
      splits; try assumption.
      intros j. rewrite Hmarks.
      destruct (Z.eq_dec j lo) as [->|Hne].
      * rewrite D. repeat case_if; try reflexivity; zbool; lia.
      * repeat case_if; try reflexivity; zbool; try lia; congruence.
Qed.

(** *** The purge *)

Lemma aget_of_nat {A} (d : A) l (i : nat) : aget d l (Z.of_nat i) = default d (l !! i).
Proof.
  unfold aget. destruct (Z.of_nat i <? 0) eqn:E; [zbool; lia|].
  rewrite Nat2Z.id. reflexivity.
Qed.

Lemma aset_of_nat {A} (l : list A) (i : nat) x : aset l (Z.of_nat i) x = <[i := x]> l.
Proof.
  unfold aset. destruct (Z.of_nat i <? 0) eqn:E; [zbool; lia|].
  rewrite Nat2Z.id. reflexivity.
Qed.

Lemma set_schedules_id w : set_schedules (schedules w) w = w.
Proof. destruct w; reflexivity. Qed.

(** The second loop over the slots [lo .. lo + n - 1], with [newCount]
    schedules kept so far: the schedules that pass [keep_schedule] are
    copied down behind them, in slot order. *)
Lemma cleanup_loop_spec now n :
  forall (lo newCount : nat) w,
  (newCount <= lo)%nat -> (lo + n <= length (schedules w))%nat ->
  let kept := List.filter (keep_schedule now) (take n (drop lo (schedules w))) in
  exists l',
    cleanup_loop now (Z.of_nat lo) n (Z.of_nat newCount) w =
      (Z.of_nat (newCount + length kept), set_schedules l' w) /\
    length l' = length (schedules w) /\
    take (newCount + length kept) l' = take newCount (schedules w) ++ kept.
Proof.
  induction n as [|n IH]; intros lo newCount w Hle Hlen; cbv zeta.
  - exists (schedules w). simpl. rewrite Nat.add_0_r, app_nil_r, set_schedules_id.
    unfold ret. auto.
  - destruct (lookup_lt_is_Some_2 (schedules w) lo) as [x Hx]; [lia|].
    assert (Hdrop : take (S n) (drop lo (schedules w)) =
                    x :: take n (drop (S lo) (schedules w))).
    { rewrite (drop_S _ _ _ Hx). reflexivity. }
    rewrite Hdrop. simpl List.filter.
    cbn [cleanup_loop]. unfold bind at 1, gets at 1.
    rewrite aget_of_nat, Hx. cbn [default from_option id].
    replace (Z.of_nat lo + 1) with (Z.of_nat (S lo)) by lia.
    destruct (keep_schedule now x) eqn:K.
    + set (l1 := <[newCount := x]> (schedules w)).
      assert (Hstep : (when (negb (Z.of_nat lo =? Z.of_nat newCount))
                         (modify (fun w0 => set_schedules
                            (aset (schedules w0) (Z.of_nat newCount) x) w0))) w =
                      (tt, set_schedules l1 w)).
      { destruct (Z.of_nat lo =? Z.of_nat newCount) eqn:E; cbn [negb when].
        - zbool. assert (lo = newCount) by lia. subst newCount.
          subst l1. rewrite list_insert_id by exact Hx.
          rewrite set_schedules_id. reflexivity.
        - unfold modify. rewrite aset_of_nat. reflexivity. }
      unfold bind at 1. rewrite Hstep.
      replace (Z.of_nat newCount + 1) with (Z.of_nat (S newCount)) by lia.
      destruct (IH (S lo) (S newCount) (set_schedules l1 w)) as (l' & Hrun & Hl' & Htake).
      { lia. }
      { simpl. subst l1. rewrite length_insert. lia. }
      simpl schedules in Hrun, Hl', Htake.
      assert (Hd1 : drop (S lo) l1 = drop (S lo) (schedules w)).
      { subst l1. apply drop_insert_lt. lia. }
      rewrite Hd1 in Hrun, Htake.
      exists l'. splits.
      * rewrite Hrun. simpl. f_equal. lia.
      * rewrite Hl'. subst l1. apply length_insert.
      * simpl length. replace (newCount + S _)%nat
          with (S newCount + length (List.filter (keep_schedule now)
                                       (take n (drop (S lo) (schedules w)))))%nat by lia.
        rewrite Htake. subst l1.
        rewrite (take_S_r _ _ x).
        -- rewrite take_insert_ge by lia. rewrite <- app_assoc. reflexivity.
        -- apply list_lookup_insert_eq. lia.
    + destruct (IH (S lo) newCount w) as (l' & Hrun & Hl' & Htake); [lia | lia |].
      exists l'. splits; assumption.
Qed.

Lemma processSchedules_run w :
  let now := env_millis env (ticks w) mod 2 ^ 32 in
  exec processSchedules w =
  exec (cleanup now (scheduleCount w))
       (exec (for_loop 0 (Z.to_nat (scheduleCount w)) (run_schedule now))
             (set_ticks (S (ticks w)) w)).
Proof.
  cbv zeta. unfold Hub.processSchedules, cleanup. rewrite exec_bind.
  change (fst (millis env w)) with (env_millis env (ticks w) mod 2 ^ 32).
  change (snd (millis env w)) with (set_ticks (S (ticks w)) w).
  rewrite exec_gets, exec_seq. reflexivity.
Qed.

Lemma cleanup_run now w :
  (Z.to_nat (scheduleCount w) <= length (schedules w))%nat ->
  0 <= scheduleCount w ->
  let kept := List.filter (keep_schedule now)
                          (take (Z.to_nat (scheduleCount w)) (schedules w)) in
  exists l',
    exec (cleanup now (scheduleCount w)) w =
      set_scheduleCount (Z.of_nat (length kept)) (set_schedules l' w) /\
    length l' = length (schedules w) /\
    take (length kept) l' = kept.
Proof.
  intros Hlen Hpos kept.
  destruct (cleanup_loop_spec now (Z.to_nat (scheduleCount w)) 0 0 w)
    as (l' & Hrun & Hl' & Htake); [lia | lia |].
  change (Z.of_nat 0) with 0 in Hrun. rewrite drop_0 in Hrun, Htake.
  cbn [Nat.add take app] in Hrun, Htake. fold kept in Hrun, Htake.
  exists l'. splits; try assumption.
  unfold cleanup, exec, bind. rewrite Hrun. reflexivity.
Qed.

(** C6, as amended.  The tick compares two 32-bit numbers: the stored
    [targetTime], which is the fire time reduced modulo [2^32], and the
    millisecond counter read once at the start of the tick, [now].  The
    first loop fires the actions that are not yet executed and whose
    stored time is at most [now], in storage order; firing an action is
    the command path with the action's parameters followed by marking
    it executed.  Afterwards a slot that was due is marked and no other
    slot has changed, and an executed action is never due again, so
    each action is fired at most once.  For an action whose fire time
    [fire] lies below [2^32], on a tick at which the counter has not
    wrapped, being due is [fire <= time]: such an action fires at or
    after its fire time.  Nothing of the kind holds across the wrap: an
    action whose fire time, [enqueued + delay], lies at or beyond
    [2^32] is due on every tick until the counter wraps, from the
    moment it is enqueued. *)
Theorem C6_tick_fires_due_in_order w :
  wf_world w ->
  let time := env_millis env (ticks w) in
  let now := time mod 2 ^ 32 in
  let count := scheduleCount w in
  let due_slots :=
    List.filter (fun i => due now (aget no_schedule (schedules w) i))
                (zrange 0 (Z.to_nat count)) in
  let fired := exec (spec_fire_all (schedules w) due_slots) (set_ticks (S (ticks w)) w) in
  exec processSchedules w = exec (cleanup now count) fired /\
  (forall i, 0 <= i < count ->
     aget no_schedule (schedules fired) i =
     if due now (aget no_schedule (schedules w) i)
     then set_executed true (aget no_schedule (schedules w) i)
     else aget no_schedule (schedules w) i) /\
  (forall item, due now (set_executed true item) = false) /\
  (forall item fire,
     targetTime item = fire mod 2 ^ 32 ->
     0 <= fire < 2 ^ 32 -> 0 <= time < 2 ^ 32 ->
     due now item = negb (executed item) && (fire <=? time)) /\
  (forall item enqueued delay,
     targetTime item = (enqueued + delay) mod 2 ^ 32 ->
     0 <= enqueued <= time -> time < 2 ^ 32 -> 0 <= delay <= 2 ^ 32 ->
     2 ^ 32 <= enqueued + delay ->
     due now item = negb (executed item)).
Proof.
  intros Hwf time now count due_slots fired. subst time.
  rewrite processSchedules_run. fold now count.
  destruct (first_loop now (Z.to_nat count) 0 (set_ticks (S (ticks w)) w))
    as (Hrun & _ & _ & _ & Hmarks).
  { destruct Hwf. constructor; assumption. }
  { lia. }
  { destruct Hwf. simpl. unfold count, MAX_SCHEDULES in *. lia. }
  simpl schedules in Hrun, Hmarks. fold due_slots in Hrun. fold fired in Hrun.
  splits.
  - rewrite Hrun. reflexivity.
  - intros i Hi. rewrite <- Hrun, Hmarks.
    destruct ((0 <=? i) && (i <? 0 + Z.of_nat (Z.to_nat count))) eqn:E;
      [reflexivity | zbool; lia].
  - intros item. reflexivity.
  - intros item fire Htarget Hfire Htime. unfold due, now.
    rewrite Htarget, !Z.mod_small by lia. reflexivity.
  - intros item enqueued delay Htarget Henq Htime Hdelay Hwrap. unfold due, now.
    rewrite Htarget, (Z.mod_small (env_millis env (ticks w))) by lia.
    replace ((enqueued + delay) mod 2 ^ 32) with (enqueued + delay - 2 ^ 32).
    + destruct (enqueued + delay - 2 ^ 32 <=? env_millis env (ticks w)) eqn:E;
        [apply andb_true_r | zbool; lia].
    + apply (Z.mod_unique _ _ 1); lia.
Qed.

Lemma take_of_agets (f : ScheduleItem -> ScheduleItem) (l l' : list ScheduleItem) n :
  length l' = length l -> (n <= length l)%nat ->
  (forall i, 0 <= i < Z.of_nat n ->
     aget no_schedule l' i = f (aget no_schedule l i)) ->
  take n l' = f <$> take n l.
Proof.
  intros Hlen Hn H. apply list_eq. intros k.
  rewrite list_lookup_fmap.
  destruct (Nat.lt_ge_cases k n) as [Hk|Hk].
  - rewrite !lookup_take_lt by exact Hk.
    specialize (H (Z.of_nat k)). rewrite !aget_of_nat in H.
    destruct (lookup_lt_is_Some_2 l k) as [x Hx]; [lia|].
    destruct (lookup_lt_is_Some_2 l' k) as [x' Hx']; [lia|].
    rewrite Hx, Hx' in *. simpl in *. f_equal. apply H. lia.
  - rewrite !lookup_take_ge by exact Hk. reflexivity.
Qed.


(** C10.  A schedule that is due but whose target is out of range (a
    relay index outside 0..3, or a room that is neither the master nor a
    registered slave) is marked executed and nothing else happens: no
    relay state changes, the card and the radio are not used, nothing is
    assigned, sent or saved; at most the panel is refreshed.  A command
    for a slave index outside [0 .. slaveCount - 1] does nothing at
    all. *)
Theorem C10_out_of_range_is_inert now i w :
  let item := aget no_schedule (schedules w) i in
  due now item = true ->
  valid_target w (roomIndex item) (relayIndex item) = false ->
  let w' := exec (run_schedule now i) w in
  schedules w' = aset (schedules w) i (set_executed true item) /\
  masterRelayStates w' = masterRelayStates w /\
  slaves w' = slaves w /\
  sd w' = sd w /\
  ticks w' = ticks w /\
  assigns (trace w') = assigns (trace w) /\
  sends (trace w') = sends (trace w) /\
  saves (trace w') = saves (trace w) /\
  (forall slaveIndex relay state,
     slaveIndex < 0 \/ slaveCount w <= slaveIndex ->
     sendCommandToSlave slaveIndex relay state w = (tt, w)).
Proof.
  intros item Hdue Hinvalid w'.
  assert (Hw' : w' = exec (panel_refresh item) (mark_executed i w)).
  { subst w'. unfold Hub.run_schedule. rewrite exec_gets. fold item.
    unfold due in Hdue. rewrite Hdue. rewrite !exec_seq. f_equal.
    unfold valid_target in Hinvalid.
    destruct (roomIndex item =? -1).
    - rewrite Hinvalid. reflexivity.
    - rewrite exec_gets, Hinvalid. reflexivity. }
  destruct (panel_refresh_quiet item (mark_executed i w)) as ([] & Hsd & Htk & Hsv).
  rewrite <- Hw' in *.
  splits; try assumption.
  intros. apply sendCommandToSlave_out. assumption.
Qed.

(** *** Enqueuing *)

(** C8, as amended.  [handleSchedule] validates before it writes.  A
    delay that is not between 1 and 1440 minutes, or a queue that is
    full, leaves the world as it was: only the redirect is sent, and the
    clock is not even read.  An accepted action is stored in the
    first free slot, not executed, with fire time
    [(now + delay) mod 2^32], the millisecond counter being 32 bits
    wide; this is [now + delay] whenever that sum is below [2^32]. *)
Theorem C8_enqueue_validates_first request w :
  let q := post_params request in
  let minutes := param_toInt q "minutes" in
  let now := env_millis env (ticks w) mod 2 ^ 32 in
  let w' := exec (handleSchedule request) w in
  (minutes <= 0 \/ 1440 < minutes ->
     w' = set_trace (trace w ++ [EvRedirect "/"]) w) /\
  (MAX_SCHEDULES <= scheduleCount w ->
     w' = set_trace (trace w ++ [EvRedirect "/"]) w) /\
  (hasParam q "room" && hasParam q "relay" && hasParam q "state" &&
   hasParam q "minutes" = true ->
   scheduleCount w < MAX_SCHEDULES -> 0 < minutes <= 1440 ->
     let fire := (now + minutes * 60 * 1000) mod 2 ^ 32 in
     schedules w' =
       aset (schedules w) (scheduleCount w)
            (mkSchedule (param_toInt q "room") (param_toInt q "relay")
                        (param_toInt q "state" =? 1) fire false) /\
     scheduleCount w' = scheduleCount w + 1 /\
     (now + minutes * 60 * 1000 < 2 ^ 32 -> fire = now + minutes * 60 * 1000)).
Proof.
  intros q minutes now w'. subst w'. unfold Hub.handleSchedule. fold q. fold minutes.
  rewrite exec_gets, exec_seq. splits.
  - intros Hbad.
    destruct ((0 <? minutes) && (minutes <=? 1440)) eqn:E; [zbool; lia|].
    rewrite exec_when. case_if; reflexivity.
  - intros Hfull.
    destruct (scheduleCount w <? MAX_SCHEDULES) eqn:E; [zbool; lia|].
    rewrite andb_false_r. reflexivity.
  - intros Hparams Hroom Hminutes. rewrite Hparams.
    destruct (scheduleCount w <? MAX_SCHEDULES) eqn:E; [|zbool; lia].
    destruct ((0 <? minutes) && (minutes <=? 1440)) eqn:E'; [|zbool; lia].
    splits; try reflexivity.
    intros Hfits. apply Z.mod_small.
    assert (0 <= now) by (apply Z.mod_pos_bound; lia). lia.
Qed.

(** *** Characters of the log *)

Lemma append_cons c a b : String c a +:+ b = String c (a +:+ b).
Proof. reflexivity. Qed.

Lemma append_nil b : EmptyString +:+ b = b.
Proof. reflexivity. Qed.

Lemma all_chars_app P a b : all_chars P (a +:+ b) = all_chars P a && all_chars P b.
Proof.
  induction a as [|c a IH]; [reflexivity|].
  rewrite append_cons. simpl. rewrite IH. apply andb_assoc.
Qed.

Lemma all_chars_impl (P Q : ascii -> bool) s :
  (forall a, P a = true -> Q a = true) -> all_chars P s = true -> all_chars Q s = true.
Proof.
  intros H. induction s as [|c s IH]; simpl; [reflexivity|].
  intros Hc. apply andb_true_iff in Hc. destruct Hc as [Hc Hs].
  rewrite (H _ Hc), (IH Hs). reflexivity.
Qed.

Lemma digit_cases d :
  0 <= d < 10 ->
  d = 0 \/ d = 1 \/ d = 2 \/ d = 3 \/ d = 4 \/ d = 5 \/ d = 6 \/ d = 7 \/ d = 8 \/ d = 9.
Proof. lia. Qed.

Lemma digit_char_digit d :
  0 <= d < 10 ->
  WString.is_digit (WString.digit_char d) = true /\
  WString.digit_val (WString.digit_char d) = d /\
  WString.is_space (WString.digit_char d) = false.
Proof.
  intros H. destruct (digit_cases d H) as [-> | [-> | [-> | [-> | [-> | [-> | [-> | [-> | [-> | ->]]]]]]]]];
    repeat split; reflexivity.
Qed.

Lemma numeric_digit_char d : 0 <= d < 10 -> numeric (WString.digit_char d) = true.
Proof.
  intros H. unfold numeric. destruct (digit_char_digit d H) as (-> & _). reflexivity.
Qed.

Lemma numeric_plain a : numeric a = true -> plain a = true.
Proof.
  unfold numeric, plain, differs_from, WString.is_digit. intros H.
  destruct (Ascii.eqb_spec a ",") as [->|_]; [discriminate H|].
  destruct (Ascii.eqb_spec a "S") as [->|_]; [discriminate H|].
  destruct (Ascii.eqb_spec a "M") as [->|_]; [discriminate H|].
  reflexivity.
Qed.

Lemma dec_digits_numeric fuel :
  forall n acc, all_chars numeric acc = true ->
  all_chars numeric (WString.dec_digits fuel n acc) = true.
Proof.
  induction fuel as [|fuel IH]; intros n acc Hacc; simpl; [exact Hacc|].
  assert (Hd : all_chars numeric (String (WString.digit_char (n mod 10)) acc) = true).
  { simpl. rewrite numeric_digit_char by (apply Z.mod_pos_bound; lia). exact Hacc. }
  destruct (n / 10 =? 0); [exact Hd | apply IH, Hd].
Qed.

Lemma of_int_numeric n : all_chars numeric (WString.of_int n) = true.
Proof.
  unfold WString.of_int. destruct (n <? 0); cbn [all_chars];
    rewrite dec_digits_numeric by reflexivity; reflexivity.
Qed.

Lemma of_int_plain n : all_chars plain (WString.of_int n) = true.
Proof. apply (all_chars_impl numeric); [apply numeric_plain | apply of_int_numeric]. Qed.

Lemma dec_digits_length fuel :
  forall n acc,
  (String.length acc + (if fuel is O then 0 else 1) <=
   String.length (WString.dec_digits fuel n acc) <= String.length acc + fuel)%nat.
Proof.
  induction fuel as [|fuel IH]; intros n acc; simpl; [lia|].
  destruct (n / 10 =? 0); simpl; [lia|].
  specialize (IH (n / 10) (String (WString.digit_char (n mod 10)) acc)).
  simpl in IH. destruct fuel; lia.
Qed.

Lemma of_int_length n : (1 <= String.length (WString.of_int n) <= 11)%nat.
Proof.
  unfold WString.of_int. destruct (n <? 0); cbn [String.length].
  - pose proof (dec_digits_length 10 (- n) EmptyString) as H.
    cbn [String.length] in H. lia.
  - pose proof (dec_digits_length 10 n EmptyString) as H.
    cbn [String.length] in H. lia.
Qed.

Lemma length_append a b : String.length (a +:+ b) = (String.length a + String.length b)%nat.
Proof.
  induction a as [|c a IH]; [reflexivity|].
  rewrite append_cons. simpl. rewrite IH. reflexivity.
Qed.

Lemma append_assoc a b c : (a +:+ b) +:+ c = a +:+ (b +:+ c).
Proof.
  induction a as [|x a IH]; [reflexivity|].
  change (String x ((a +:+ b) +:+ c) = String x (a +:+ (b +:+ c))). f_equal. exact IH.
Qed.

Lemma timestamp_plain t : all_chars plain (timestamp_of t) = true.
Proof.
  unfold timestamp_of. rewrite !all_chars_app, !of_int_plain. reflexivity.
Qed.

Lemma timestamp_length t : (11 <= String.length (timestamp_of t) <= 71)%nat.
Proof.
  unfold timestamp_of. rewrite !length_append.
  pose proof (of_int_length (dt_year t)). pose proof (of_int_length (dt_month t)).
  pose proof (of_int_length (dt_day t)). pose proof (of_int_length (dt_hour t)).
  pose proof (of_int_length (dt_minute t)). pose proof (of_int_length (dt_second t)).
  simpl. lia.
Qed.

Lemma stateStr_plain state : all_chars plain (stateStr_of state) = true.
Proof. destruct state; reflexivity. Qed.

Lemma stateStr_length state : (2 <= String.length (stateStr_of state) <= 3)%nat.
Proof. destruct state; simpl; lia. Qed.

(** A room name is one capital letter followed by plain characters. *)
Lemma roomName_shape room :
  exists c tail, roomName_of room = String c tail /\ all_chars plain tail = true /\
                 differs_from "," c = true /\ (String.length tail <= 15)%nat.
Proof.
  unfold roomName_of. destruct (room =? -1).
  - exists "M"%char, "aster". repeat split. simpl. lia.
  - exists "S"%char, ("lave" +:+ WString.of_int (room + 1)). repeat split.
    + rewrite all_chars_app, of_int_plain. reflexivity.
    + rewrite length_append. pose proof (of_int_length (room + 1)). simpl. lia.
Qed.

(** *** Searching in a string *)

Lemma prefix_head_ne c p b s :
  differs_from c b = true -> String.prefix (String c p) (String b s) = false.
Proof.
  unfold differs_from. intros H. simpl.
  destruct (ascii_dec c b) as [->|_]; [|reflexivity].
  rewrite Ascii.eqb_refl in H. discriminate H.
Qed.

Lemma prefix_nil s : String.prefix EmptyString s = true.
Proof. destruct s; reflexivity. Qed.

Lemma prefix_cons_eq c p s : String.prefix (String c p) (String c s) = String.prefix p s.
Proof. simpl. destruct (ascii_dec c c) as [_|H]; [reflexivity | congruence]. Qed.

Lemma index_absent c p s :
  all_chars (differs_from c) s = true -> String.index 0 (String c p) s = None.
Proof.
  induction s as [|b s IH]; intros H; [reflexivity|].
  simpl in H. apply andb_true_iff in H. destruct H as [Hb Hs].
  cbn [String.index]. rewrite prefix_head_ne by exact Hb. rewrite IH by exact Hs.
  reflexivity.
Qed.

Lemma index_skip c p pre rest :
  all_chars (differs_from c) pre = true ->
  String.index 0 (String c p) (pre +:+ rest) =
  (fun n => (String.length pre + n)%nat) <$> String.index 0 (String c p) rest.
Proof.
  induction pre as [|b pre IH]; intros H.
  - rewrite append_nil. destruct (String.index 0 (String c p) rest); reflexivity.
  - simpl in H. apply andb_true_iff in H. destruct H as [Hb Hs].
    rewrite append_cons. cbn [String.index].
    rewrite prefix_head_ne by exact Hb. rewrite IH by exact Hs.
    destruct (String.index 0 (String c p) rest); reflexivity.
Qed.

Lemma index_from_app pre p rest k :
  String.index (String.length pre + k) p (pre +:+ rest) =
  (fun n => (String.length pre + n)%nat) <$> String.index k p rest.
Proof.
  induction pre as [|b pre IH].
  - rewrite append_nil. cbn [String.length Nat.add].
    destruct (String.index k p rest); reflexivity.
  - rewrite append_cons. cbn [String.length Nat.add String.index]. rewrite IH.
    destruct (String.index k p rest); reflexivity.
Qed.

Lemma index_here p b s :
  String.prefix p (String b s) = true -> String.index 0 p (String b s) = Some 0%nat.
Proof. intros H. cbn [String.index]. rewrite H. reflexivity. Qed.

(** The first comma of [pre,rest] when [pre] has none. *)
Lemma index_comma pre rest :
  all_chars (differs_from ",") pre = true ->
  String.index 0 "," (pre +:+ String "," rest) = Some (String.length pre).
Proof.
  intros H. rewrite index_skip by exact H.
  rewrite index_here by (rewrite prefix_cons_eq; apply prefix_nil).
  simpl. f_equal. lia.
Qed.

Lemma lastIndexOf_go_absent ch s :
  forall i found, all_chars (differs_from ch) s = true ->
  WString.lastIndexOf_go ch s i found = found.
Proof.
  induction s as [|c s IH]; intros i found H; [reflexivity|].
  simpl in H. apply andb_true_iff in H. destruct H as [Hc Hs].
  simpl. unfold differs_from in Hc. apply negb_true_iff in Hc. rewrite Hc.
  apply IH, Hs.
Qed.

Lemma lastIndexOf_go_app ch pre rest :
  forall i found, all_chars (differs_from ch) rest = true ->
  WString.lastIndexOf_go ch (pre +:+ String ch rest) i found = i + WString.len pre.
Proof.
  unfold WString.len.
  induction pre as [|c pre IH]; intros i found H.
  - rewrite append_nil. simpl. rewrite Ascii.eqb_refl.
    rewrite lastIndexOf_go_absent by exact H. lia.
  - rewrite append_cons. cbn [WString.lastIndexOf_go]. rewrite IH by exact H.
    simpl String.length. lia.
Qed.

(** The last comma of [pre,rest] when [rest] has none. *)
Lemma lastIndexOf_comma pre rest :
  all_chars (differs_from ",") rest = true ->
  WString.lastIndexOf (pre +:+ String "," rest) "," = WString.len pre.
Proof.
  intros H. unfold WString.lastIndexOf. rewrite lastIndexOf_go_app by exact H. lia.
Qed.

Lemma substring_0_app a b : String.substring 0 (String.length a) (a +:+ b) = a.
Proof.
  induction a as [|c a IH].
  - destruct b; reflexivity.
  - rewrite append_cons. simpl. rewrite IH. reflexivity.
Qed.

Lemma substring_skip_app a b n m :
  String.substring (String.length a + n) m (a +:+ b) = String.substring n m b.
Proof.
  induction a as [|c a IH]; [reflexivity|].
  rewrite append_cons. simpl. exact IH.
Qed.

Lemma plain_no_comma s : all_chars plain s = true -> all_chars (differs_from ",") s = true.
Proof.
  apply all_chars_impl. unfold plain. intros a H. zbool. assumption.
Qed.

Lemma plain_no_S s : all_chars plain s = true -> all_chars (differs_from "S") s = true.
Proof.
  apply all_chars_impl. unfold plain. intros a H. zbool. assumption.
Qed.

Lemma plain_no_M s : all_chars plain s = true -> all_chars (differs_from "M") s = true.
Proof.
  apply all_chars_impl. unfold plain. intros a H. zbool. assumption.
Qed.

(** *** A line of five fields *)

Lemma len_append a b : WString.len (a +:+ b) = WString.len a + WString.len b.
Proof. unfold WString.len. rewrite length_append. lia. Qed.

Lemma len_cons c a : WString.len (String c a) = 1 + WString.len a.
Proof. unfold WString.len. simpl String.length. lia. Qed.

Lemma len_nonneg a : 0 <= WString.len a.
Proof. unfold WString.len. lia. Qed.

Lemma to_unsigned_small z : 0 <= z < 2 ^ 32 -> WString.to_unsigned z = z.
Proof. intros H. unfold WString.to_unsigned. apply Z.mod_small. exact H. Qed.

(** [substring(len a, len a + len b)] of [a b c] is [b]. *)
Lemma wsubstring_middle a b c :
  WString.len (a +:+ b +:+ c) < 2 ^ 32 ->
  WString.substring (a +:+ b +:+ c) (WString.len a) (WString.len a + WString.len b) = b.
Proof.
  intros Hlen. rewrite !len_append in Hlen.
  pose proof (len_nonneg a). pose proof (len_nonneg b). pose proof (len_nonneg c).
  unfold WString.substring. rewrite !to_unsigned_small by lia.
  destruct (WString.len a + WString.len b <? WString.len a) eqn:E; [zbool; lia|].
  rewrite !len_append.
  destruct (WString.len a + (WString.len b + WString.len c) <=? WString.len a) eqn:E1.
  - zbool. unfold WString.len in *. destruct b; [reflexivity | simpl in *; lia].
  - destruct (WString.len a + (WString.len b + WString.len c) <?
              WString.len a + WString.len b) eqn:E2; [zbool; lia|].
    replace (Z.to_nat (WString.len a)) with (String.length a + 0)%nat
      by (unfold WString.len; lia).
    replace (Z.to_nat (WString.len a + WString.len b - WString.len a))
      with (String.length b) by (unfold WString.len; lia).
    rewrite substring_skip_app. apply substring_0_app.
Qed.

Section FiveFields.

Variables ts room relay st tail : string.
Hypothesis ts_plain : all_chars (differs_from ",") ts = true.
Hypothesis room_plain : all_chars (differs_from ",") room = true.
Hypothesis tail_plain : all_chars (differs_from ",") tail = true.
Hypothesis short : WString.len ts + WString.len room + WString.len relay +
                   WString.len st + WString.len tail < 1000.

Let line : string :=
  ts +:+ String "," (room +:+ String "," (relay +:+ String "," (st +:+ String "," tail))).

Lemma line_len :
  WString.len line = WString.len ts + WString.len room + WString.len relay +
                     WString.len st + WString.len tail + 4.
Proof.
  unfold line. rewrite ?len_append, ?len_cons, ?len_append, ?len_cons.
  rewrite ?len_append, ?len_cons, ?len_append, ?len_cons. lia.
Qed.

Lemma line_first_comma : WString.indexOf line "," = WString.len ts.
Proof.
  pose proof line_len. pose proof (len_nonneg ts). pose proof (len_nonneg room).
  pose proof (len_nonneg relay). pose proof (len_nonneg st). pose proof (len_nonneg tail).
  unfold WString.indexOf, WString.indexOf_from.
  rewrite to_unsigned_small by lia.
  destruct (WString.len line <=? 0) eqn:E; [zbool; lia|].
  unfold line. change (Z.to_nat 0) with 0%nat. rewrite index_comma by exact ts_plain.
  reflexivity.
Qed.

Lemma line_second_comma :
  WString.indexOf_from line "," (WString.len ts + 1) = WString.len ts + 1 + WString.len room.
Proof.
  pose proof line_len. pose proof (len_nonneg ts). pose proof (len_nonneg room).
  pose proof (len_nonneg relay). pose proof (len_nonneg st). pose proof (len_nonneg tail).
  unfold WString.indexOf_from.
  rewrite to_unsigned_small by lia.
  destruct (WString.len line <=? WString.len ts + 1) eqn:E; [zbool; lia|].
  unfold line.
  change (ts +:+ String "," (room +:+ String "," (relay +:+ String "," (st +:+ String "," tail))))
    with (ts +:+ ("," +:+ (room +:+ String "," (relay +:+ String "," (st +:+ String "," tail))))).
  rewrite <- append_assoc.
  replace (Z.to_nat (WString.len ts + 1)) with (String.length (ts +:+ ",") + 0)%nat
    by (rewrite length_append; unfold WString.len; simpl; lia).
  rewrite index_from_app, index_comma by exact room_plain.
  cbn [fmap option_fmap option_map]. rewrite length_append.
  unfold WString.len. simpl String.length. lia.
Qed.

Lemma line_last_comma :
  WString.lastIndexOf line "," =
  WString.len ts + WString.len room + WString.len relay + WString.len st + 3.
Proof.
  unfold line.
  change (ts +:+ String "," (room +:+ String "," (relay +:+ String "," (st +:+ String "," tail))))
    with (ts +:+ ("," +:+ (room +:+ ("," +:+ (relay +:+ ("," +:+ (st +:+ String "," tail))))))).
  rewrite <- !append_assoc.
  rewrite lastIndexOf_comma by exact tail_plain.
  rewrite !len_append. change (WString.len ",") with 1. lia.
Qed.

Lemma line_time_field : WString.substring line 0 (WString.len ts) = ts.
Proof.
  pose proof line_len. pose proof (len_nonneg ts). pose proof (len_nonneg room).
  pose proof (len_nonneg relay). pose proof (len_nonneg st). pose proof (len_nonneg tail).
  pose proof (wsubstring_middle EmptyString ts
                (String "," (room +:+ String "," (relay +:+ String "," (st +:+ String "," tail))))) as H5.
  rewrite !append_nil in H5. change (WString.len EmptyString) with 0 in H5.
  rewrite Z.add_0_l in H5. apply H5. fold line. lia.
Qed.

Lemma line_state_field :
  WString.substring line (WString.len ts + 1 + WString.len room + 1)
                    (WString.len ts + WString.len room + WString.len relay + WString.len st + 3)
  = relay +:+ String "," st.
Proof.
  pose proof line_len. pose proof (len_nonneg ts). pose proof (len_nonneg room).
  pose proof (len_nonneg relay). pose proof (len_nonneg st). pose proof (len_nonneg tail).
  pose proof (wsubstring_middle (ts +:+ String "," (room +:+ ","))
                (relay +:+ String "," st) (String "," tail)) as H5.
  assert (Hline : (ts +:+ String "," (room +:+ ",")) +:+ (relay +:+ String "," st) +:+
                  String "," tail = line).
  { unfold line. rewrite !append_assoc. rewrite append_cons, !append_assoc.
    reflexivity. }
  rewrite Hline in H5.
  repeat (rewrite len_append in H5 || rewrite len_cons in H5).
  change (WString.len EmptyString) with 0 in H5.
  replace (WString.len ts + (1 + (WString.len room + (1 + 0))))
    with (WString.len ts + 1 + WString.len room + 1) in H5 by lia.
  replace (WString.len ts + 1 + WString.len room + 1 +
           (WString.len relay + (1 + WString.len st)))
    with (WString.len ts + WString.len room + WString.len relay + WString.len st + 3)
    in H5 by lia.
  apply H5. lia.
Qed.

End FiveFields.

(** *** The last line, read back *)

Lemma CR_plain : all_chars plain CR = true.
Proof. reflexivity. Qed.

Lemma entry_line_fields e :
  entry_line e =
  timestamp_of (le_time e) +:+
  String "," (roomName_of (le_room e) +:+
  String "," (WString.of_int (le_relay e) +:+
  String "," (stateStr_of (le_state e) +:+
  String "," (WString.of_int (le_duration e) +:+ CR)))).
Proof. unfold entry_line, log_line. rewrite !append_assoc. reflexivity. Qed.

Lemma roomName_no_comma room : all_chars (differs_from ",") (roomName_of room) = true.
Proof.
  destruct (roomName_shape room) as (c & tail & -> & Ht & Hc & _).
  simpl. rewrite Hc, (plain_no_comma _ Ht). reflexivity.
Qed.

Lemma roomName_length room : (1 <= String.length (roomName_of room) <= 16)%nat.
Proof.
  destruct (roomName_shape room) as (c & tail & -> & _ & _ & Hl). simpl. lia.
Qed.

Lemma entry_fields_short e :
  WString.len (timestamp_of (le_time e)) + WString.len (roomName_of (le_room e)) +
  WString.len (WString.of_int (le_relay e)) + WString.len (stateStr_of (le_state e)) +
  WString.len (WString.of_int (le_duration e) +:+ CR) < 1000.
Proof.
  unfold WString.len. rewrite length_append.
  pose proof (timestamp_length (le_time e)). pose proof (roomName_length (le_room e)).
  pose proof (of_int_length (le_relay e)). pose proof (stateStr_length (le_state e)).
  pose proof (of_int_length (le_duration e)). simpl String.length. lia.
Qed.

Lemma entry_tail_no_comma e :
  all_chars (differs_from ",") (WString.of_int (le_duration e) +:+ CR) = true.
Proof.
  apply plain_no_comma. rewrite all_chars_app, of_int_plain. reflexivity.
Qed.

(** Read back from a line that [logRelayChange] wrote, the "previous
    state" is the relay index, a comma and the state, which is never
    ["ON"] or ["OFF"]; the time field is read correctly. *)
Lemma prevState_of_entry e :
  let line := entry_line e in
  WString.substring line
    (WString.indexOf_from line "," (WString.indexOf line "," + 1) + 1)
    (WString.lastIndexOf line ",")
  = WString.of_int (le_relay e) +:+ String "," (stateStr_of (le_state e)).
Proof.
  cbv zeta. rewrite entry_line_fields.
  pose proof (plain_no_comma _ (timestamp_plain (le_time e))) as H1.
  pose proof (roomName_no_comma (le_room e)) as H2.
  pose proof (entry_tail_no_comma e) as H3.
  pose proof (entry_fields_short e) as H4.
  rewrite line_first_comma by assumption.
  rewrite line_second_comma by assumption.
  rewrite line_last_comma by assumption.
  apply line_state_field; assumption.
Qed.

Lemma duration_since_entry e state now :
  duration_since unixtime (entry_line e) (stateStr_of state) now =
  (unixtime now - unixtime (parse_lastTime (timestamp_of (le_time e)))) mod 2 ^ 32.
Proof.
  unfold duration_since. rewrite prevState_of_entry.
  pose proof (plain_no_comma _ (timestamp_plain (le_time e))) as H1.
  pose proof (roomName_no_comma (le_room e)) as H2.
  pose proof (entry_tail_no_comma e) as H3.
  pose proof (entry_fields_short e) as H4.
  rewrite entry_line_fields.
  rewrite line_last_comma, line_first_comma, line_time_field by assumption.
  case_bool_decide as Hempty.
  { exfalso. apply (f_equal String.length) in Hempty.
    rewrite length_append in Hempty. pose proof (timestamp_length (le_time e)).
    simpl in Hempty. lia. }
  pose proof (len_nonneg (timestamp_of (le_time e))).
  pose proof (len_nonneg (roomName_of (le_room e))).
  pose proof (len_nonneg (WString.of_int (le_relay e))).
  pose proof (len_nonneg (stateStr_of (le_state e))).
  destruct (0 <? _) eqn:E; [|zbool; lia].
  case_bool_decide as Hprev; [|reflexivity].
  exfalso. apply (f_equal String.length) in Hprev.
  rewrite length_append in Hprev. simpl in Hprev.
  pose proof (of_int_length (le_relay e)). pose proof (stateStr_length (le_state e)).
  pose proof (stateStr_length state). lia.
Qed.

Lemma duration_since_nothing stateStr now :
  duration_since unixtime EmptyString stateStr now = 0.
Proof. reflexivity. Qed.

(** *** The scan for the room and relay *)

Lemma prefix_app_short p :
  forall s rest, (String.length p <= String.length s)%nat ->
  String.prefix p (s +:+ rest) = String.prefix p s.
Proof.
  induction p as [|c p IH]; intros s rest Hlen.
  - rewrite !prefix_nil. reflexivity.
  - destruct s as [|b s]; [simpl in Hlen; lia|].
    rewrite append_cons. simpl. destruct (ascii_dec c b); [|reflexivity].
    apply IH. simpl in Hlen. lia.
Qed.

(** The pattern of one room and relay is a prefix of the fields of
    another exactly when they are the same room and relay. *)
Lemma channel_table :
  forallb (fun ch =>
    forallb (fun ch' =>
      Bool.eqb (String.prefix (scan_pattern ch) (line_head ch'))
               ((fst ch' =? fst ch) && (snd ch' =? snd ch)) &&
      (String.length (scan_pattern ch) <=? String.length (line_head ch'))%nat &&
      negb (0 <? WString.indexOf header_line (scan_pattern ch)))
    all_channels) all_channels = true.
Proof. vm_compute. reflexivity. Qed.

Lemma loggable_listed room relay : loggable room relay -> In (room, relay) all_channels.
Proof.
  intros [Hr Hk]. apply in_prod; apply in_zrange; lia.
Qed.

Lemma channel_facts room relay room' relay' :
  loggable room relay -> loggable room' relay' ->
  String.prefix (scan_pattern (room, relay)) (line_head (room', relay')) =
    (room' =? room) && (relay' =? relay) /\
  (String.length (scan_pattern (room, relay)) <= String.length (line_head (room', relay')))%nat /\
  (0 <? WString.indexOf header_line (scan_pattern (room, relay))) = false.
Proof.
  intros H H'. pose proof channel_table as T.
  rewrite forallb_forall in T. specialize (T _ (loggable_listed _ _ H)).
  rewrite forallb_forall in T. specialize (T _ (loggable_listed _ _ H')).
  cbn [fst snd] in T. zbool. splits.
  - apply eqb_prop. assumption.
  - apply Nat.leb_le. assumption.
  - apply Z.ltb_ge. assumption.
Qed.

(** A room name begins with its capital letter, which occurs nowhere
    else in a line of the log. *)
Lemma roomName_capital room :
  exists c tail, roomName_of room = String c tail /\
    (c = "S"%char \/ c = "M"%char) /\ all_chars plain tail = true.
Proof.
  unfold roomName_of. destruct (room =? -1).
  - exists "M"%char, "aster". repeat split. right. reflexivity.
  - exists "S"%char, ("lave" +:+ WString.of_int (room + 1)). repeat split.
    + left. reflexivity.
    + rewrite all_chars_app, of_int_plain. reflexivity.
Qed.

Lemma plain_no_capital c s :
  c = "S"%char \/ c = "M"%char -> all_chars plain s = true ->
  all_chars (differs_from c) s = true.
Proof.
  intros [-> | ->]; [apply plain_no_S | apply plain_no_M].
Qed.

Lemma entry_matches room relay e :
  loggable room relay -> loggable (le_room e) (le_relay e) ->
  (0 <? WString.indexOf (entry_line e) (roomName_of room +:+ "," +:+ WString.of_int relay))
  = same_channel room relay e.
Proof.
  intros H He.
  destruct (channel_facts room relay (le_room e) (le_relay e) H He) as (Hpre & Hlen & _).
  unfold scan_pattern, line_head in Hpre, Hlen. cbn [fst snd] in Hpre, Hlen.
  destruct (roomName_capital room) as (c & ptail & Hroom & Hc & Hptail).
  destruct (roomName_capital (le_room e)) as (ce & etail & Heroom & Hce & Hetail).
  set (pattern := roomName_of room +:+ "," +:+ WString.of_int relay) in *.
  assert (Hpat : pattern = String c (ptail +:+ "," +:+ WString.of_int relay)).
  { subst pattern. rewrite Hroom. reflexivity. }
  pose proof (timestamp_length (le_time e)) as Hts.
  unfold WString.indexOf, WString.indexOf_from.
  rewrite to_unsigned_small by lia.
  destruct (WString.len (entry_line e) <=? 0) eqn:E.
  { zbool. unfold WString.len in E. rewrite entry_line_fields, length_append in E. lia. }
  change (Z.to_nat 0) with 0%nat.
  (* the line is the time stamp and a comma, then the fields from the room on *)
  set (rest := stateStr_of (le_state e) +:+
               String "," (WString.of_int (le_duration e) +:+ CR)).
  assert (Hline : entry_line e =
                  (timestamp_of (le_time e) +:+ ",") +:+
                  (line_head (le_room e, le_relay e) +:+ rest)).
  { rewrite entry_line_fields. unfold line_head, rest. cbn [fst snd].
    rewrite !append_assoc. reflexivity. }
  rewrite Hline, Hpat.
  rewrite index_skip.
  2:{ rewrite all_chars_app. rewrite (plain_no_capital c _ Hc (timestamp_plain _)).
      destruct Hc as [-> | ->]; reflexivity. }
  rewrite <- Hpat.
  assert (Hhead : line_head (le_room e, le_relay e) +:+ rest =
                  String ce (etail +:+ String "," (WString.of_int (le_relay e) +:+ String "," rest))).
  { unfold line_head. cbn [fst snd]. rewrite Heroom, !append_assoc. reflexivity. }
  assert (Hfound : String.index 0 pattern (line_head (le_room e, le_relay e) +:+ rest) =
                   if same_channel room relay e then Some 0%nat else None).
  { rewrite Hhead. cbn [String.index]. rewrite <- Hhead.
    rewrite prefix_app_short by exact Hlen. unfold line_head. cbn [fst snd].
    rewrite Hpre. unfold same_channel.
    destruct ((le_room e =? room) && (le_relay e =? relay)); [reflexivity|].
    rewrite Hpat, index_absent; [reflexivity|].
    unfold rest. repeat first [rewrite all_chars_app | progress cbn [all_chars]].
    rewrite (plain_no_capital c _ Hc Hetail),
            (plain_no_capital c _ Hc (of_int_plain (le_relay e))),
            (plain_no_capital c _ Hc (stateStr_plain _)),
            (plain_no_capital c _ Hc (of_int_plain (le_duration e))),
            (plain_no_capital c _ Hc CR_plain).
    destruct Hc as [-> | ->]; reflexivity. }
  rewrite Hfound. destruct (same_channel room relay e); cbn [fmap option_fmap option_map].
  - rewrite length_append. simpl String.length. apply Z.ltb_lt. lia.
  - reflexivity.
Qed.

Lemma scan_entries pattern room relay entries :
  (forall e, In e entries ->
     (0 <? WString.indexOf (entry_line e) pattern) = same_channel room relay e) ->
  forall acc,
  fold_left (scan_step pattern) (entry_line <$> entries) acc =
  match last_of_channel room relay entries with
  | Some e => entry_line e
  | None => acc
  end.
Proof.
  unfold last_of_channel.
  induction entries as [|e entries IH]; intros H acc; [reflexivity|].
  cbn [fmap list_fmap fold_left List.filter].
  rewrite IH by (intros e' He'; apply H; right; exact He').
  unfold scan_step. rewrite H by (left; reflexivity).
  destruct (same_channel room relay e); [|reflexivity].
  rewrite last_cons.
  destruct (last (List.filter (same_channel room relay) entries)); reflexivity.
Qed.

(** What the scan of [logRelayChange] finds in a log of records below
    an optional header: the line of the most recent record of the room
    and relay. *)
Lemma scan_last_log headers entries room relay :
  headers = [] \/ headers = [header_line] ->
  loggable room relay ->
  Forall (fun e => loggable (le_room e) (le_relay e)) entries ->
  scan_last (roomName_of room +:+ "," +:+ WString.of_int relay)
            (headers ++ (entry_line <$> entries)) =
  match last_of_channel room relay entries with
  | Some e => entry_line e
  | None => EmptyString
  end.
Proof.
  intros Hh Hch Hall. unfold scan_last. rewrite fold_left_app.
  assert (Hhead : fold_left (scan_step (roomName_of room +:+ "," +:+ WString.of_int relay))
                            headers EmptyString = EmptyString).
  { destruct Hh as [-> | ->]; [reflexivity|].
    destruct (channel_facts room relay room relay Hch Hch) as (_ & _ & Hheader).
    unfold scan_pattern in Hheader. cbn [fst snd] in Hheader.
    cbn [fold_left]. unfold scan_step. rewrite Hheader. reflexivity. }
  rewrite Hhead. apply scan_entries.
  intros e He. apply entry_matches; [exact Hch|].
  rewrite Forall_forall in Hall. apply Hall. apply list_elem_of_In. exact He.
Qed.

(** *** Time stamps at full width *)

Lemma of_int_2 n :
  10 <= n <= 99 ->
  WString.of_int n =
  String (WString.digit_char (n / 10)) (String (WString.digit_char (n mod 10)) EmptyString).
Proof.
  intros H. unfold WString.of_int.
  destruct (n <? 0) eqn:E; [zbool; lia|].
  assert (H1 : 1 <= n / 10 <= 9) by (Z.to_euclidean_division_equations; lia).
  cbn [WString.dec_digits].
  destruct (n / 10 =? 0) eqn:E1; [zbool; lia|].
  rewrite (Z.mod_small (n / 10)) by lia.
  rewrite (Z.div_small (n / 10)) by lia. reflexivity.
Qed.

Lemma of_int_4 n :
  1000 <= n <= 9999 ->
  WString.of_int n =
  String (WString.digit_char (n / 1000))
    (String (WString.digit_char (n / 100 mod 10))
       (String (WString.digit_char (n / 10 mod 10))
          (String (WString.digit_char (n mod 10)) EmptyString))).
Proof.
  intros H. unfold WString.of_int.
  destruct (n <? 0) eqn:E; [zbool; lia|].
  assert (H1 : 100 <= n / 10 <= 999) by (Z.to_euclidean_division_equations; lia).
  assert (H2 : 10 <= n / 10 / 10 <= 99) by (Z.to_euclidean_division_equations; lia).
  assert (H3 : 1 <= n / 10 / 10 / 10 <= 9) by (Z.to_euclidean_division_equations; lia).
  cbn [WString.dec_digits].
  destruct (n / 10 =? 0) eqn:E1; [zbool; lia|].
  destruct (n / 10 / 10 =? 0) eqn:E2; [zbool; lia|].
  destruct (n / 10 / 10 / 10 =? 0) eqn:E3; [zbool; lia|].
  rewrite (Z.mod_small (n / 10 / 10 / 10)) by lia.
  rewrite (Z.div_small (n / 10 / 10 / 10)) by lia. cbn [Z.eqb].
  rewrite !Z.div_div by lia. reflexivity.
Qed.

(** [toInt] of a string that starts with a digit. *)
Lemma toInt_digit d s :
  0 <= d < 10 ->
  WString.toInt (String (WString.digit_char d) s) =
  WString.clamp_long (WString.digits_val d s).
Proof.
  intros H.
  destruct (digit_cases d H) as [-> | [-> | [-> | [-> | [-> | [-> | [-> | [-> | [-> | ->]]]]]]]]];
    reflexivity.
Qed.

Lemma digits_val_digit acc d s :
  0 <= d < 10 ->
  WString.digits_val acc (String (WString.digit_char d) s) =
  WString.digits_val (10 * acc + d) s.
Proof.
  intros H. destruct (digit_char_digit d H) as (Hd & Hv & _).
  cbn [WString.digits_val]. rewrite Hd, Hv. reflexivity.
Qed.

Lemma clamp_long_small z : 0 <= z <= 9999 -> WString.clamp_long z = z.
Proof.
  intros H. unfold WString.clamp_long.
  destruct (z <? - 2 ^ 31) eqn:E; [zbool; lia|].
  destruct (2 ^ 31 - 1 <? z) eqn:E'; [zbool; lia|]. reflexivity.
Qed.

Lemma toInt_of_int_2 n : 10 <= n <= 99 -> WString.toInt (WString.of_int n) = n.
Proof.
  intros H. rewrite of_int_2 by exact H.
  assert (H1 : 1 <= n / 10 <= 9) by (Z.to_euclidean_division_equations; lia).
  pose proof (Z.mod_pos_bound n 10 ltac:(lia)) as H2.
  rewrite toInt_digit by lia. rewrite digits_val_digit by lia. cbn [WString.digits_val].
  pose proof (Z.div_mod n 10 ltac:(lia)) as Hn.
  rewrite clamp_long_small by lia. lia.
Qed.

Lemma toInt_of_int_4 n : 1000 <= n <= 9999 -> WString.toInt (WString.of_int n) = n.
Proof.
  intros H. rewrite of_int_4 by exact H.
  assert (H1 : 1 <= n / 1000 <= 9) by (Z.to_euclidean_division_equations; lia).
  pose proof (Z.mod_pos_bound n 10 ltac:(lia)) as H2.
  pose proof (Z.mod_pos_bound (n / 10) 10 ltac:(lia)) as H3.
  pose proof (Z.mod_pos_bound (n / 100) 10 ltac:(lia)) as H4.
  rewrite toInt_digit by lia. rewrite !digits_val_digit by lia. cbn [WString.digits_val].
  pose proof (Z.div_mod n 10 ltac:(lia)) as Hn.
  pose proof (Z.div_mod (n / 10) 10 ltac:(lia)) as Hn1.
  pose proof (Z.div_mod (n / 100) 10 ltac:(lia)) as Hn2.
  rewrite Z.div_div in Hn1 by lia. rewrite Z.div_div in Hn2 by lia.
  change (10 * 10) with 100 in Hn1. change (100 * 10) with 1000 in Hn2.
  rewrite clamp_long_small by lia. lia.
Qed.

(** The columns at which [logRelayChange] reads a time stamp. *)
Lemma parse_columns (y1 y2 y3 y4 m1 m2 d1 d2 h1 h2 i1 i2 s1 s2 : ascii) :
  parse_lastTime
    (String y1 (String y2 (String y3 (String y4 (String "-"
    (String m1 (String m2 (String "-"
    (String d1 (String d2 (String " "
    (String h1 (String h2 (String ":"
    (String i1 (String i2 (String ":"
    (String s1 (String s2 EmptyString))))))))))))))))))) =
  mkDateTime (WString.toInt (String y1 (String y2 (String y3 (String y4 EmptyString)))))
             (WString.toInt (String m1 (String m2 EmptyString)))
             (WString.toInt (String d1 (String d2 EmptyString)))
             (WString.toInt (String h1 (String h2 EmptyString)))
             (WString.toInt (String i1 (String i2 EmptyString)))
             (WString.toInt (String s1 (String s2 EmptyString))).
Proof. reflexivity. Qed.

(** A time stamp whose fields fill their columns is read back as it
    was written. *)
Lemma parse_full_width t : full_width t -> parse_lastTime (timestamp_of t) = t.
Proof.
  intros (Hy & Hm & Hd & Hh & Hi & Hs).
  pose proof (toInt_of_int_4 _ Hy) as Ty. pose proof (toInt_of_int_2 _ Hm) as Tm.
  pose proof (toInt_of_int_2 _ Hd) as Td. pose proof (toInt_of_int_2 _ Hh) as Th.
  pose proof (toInt_of_int_2 _ Hi) as Ti. pose proof (toInt_of_int_2 _ Hs) as Ts.
  unfold timestamp_of.
  rewrite (of_int_4 _ Hy), (of_int_2 _ Hm), (of_int_2 _ Hd), (of_int_2 _ Hh),
          (of_int_2 _ Hi), (of_int_2 _ Hs) in *.
  rewrite !append_cons, !append_nil.
  rewrite parse_columns, Ty, Tm, Td, Th, Ti, Ts. destruct t; reflexivity.
Qed.

(** *** The duration of a new record *)

(** The duration [logRelayChange] computes from a log of records: the
    time since the most recent record of the room and relay, whatever
    state that record has, with its time stamp as the columns give it. *)
Lemma duration_of_log headers entries room relay state now :
  headers = [] \/ headers = [header_line] ->
  loggable room relay ->
  Forall (fun e => loggable (le_room e) (le_relay e)) entries ->
  duration_of unixtime (headers ++ (entry_line <$> entries)) (roomName_of room) relay
              (stateStr_of state) now =
  match last_of_channel room relay entries with
  | Some e => (unixtime now - unixtime (parse_lastTime (timestamp_of (le_time e)))) mod 2 ^ 32
  | None => 0
  end.
Proof.
  intros Hh Hch Hall. unfold duration_of.
  rewrite scan_last_log by assumption.
  destruct (last_of_channel room relay entries) as [e|].
  - apply duration_since_entry.
  - apply duration_since_nothing.
Qed.

(** C3, as amended.  When the card works, [logRelayChange] appends one
    record with the time of the clock, the room, the relay and the new
    state.  Its duration is zero when the log has no earlier record of
    the same room and relay.  When the most recent earlier record of the
    same room and relay has the other state, and its time stamp was
    written at full width, the duration is the time of the new record
    minus the time of that record, in seconds, as an unsigned 32-bit
    number.  Nothing is said here about a most recent record that has
    the same state as the new one. *)
Theorem C3_duration_since_last_record headers entries room relay state w :
  sd w !! "/relays.txt" = Some (headers ++ (entry_line <$> entries)) ->
  headers = [] \/ headers = [header_line] ->
  Forall (fun e => loggable (le_room e) (le_relay e)) entries ->
  loggable room relay ->
  env_sd_begin env (ticks w) = true ->
  env_sd_open env (S (S (ticks w))) = true ->
  env_sd_open env (S (S (S (ticks w)))) = true ->
  let now := env_rtc_now env (S (ticks w)) in
  exists duration,
    log_of (exec (logRelayChange room relay state) w) =
      log_of w ++ [entry_line (mkEntry now room relay state duration)] /\
    (last_of_channel room relay entries = None -> duration = 0) /\
    (forall e, last_of_channel room relay entries = Some e ->
       le_state e <> state -> full_width (le_time e) ->
       duration = (unixtime now - unixtime (le_time e)) mod 2 ^ 32 /\
       (0 <= unixtime (le_time e) <= unixtime now -> unixtime now < 2 ^ 32 ->
        duration = unixtime now - unixtime (le_time e))).
Proof.
  intros Hlog Hh Hall Hch Hbegin Hread Happend now.
  exists (duration_of unixtime (headers ++ (entry_line <$> entries)) (roomName_of room) relay
                      (stateStr_of state) now).
  rewrite duration_of_log by assumption. splits.
  - rewrite logRelayChange_run, Hbegin, Hread, Happend, Hlog. cbv zeta. fold now.
    rewrite duration_of_log by assumption.
    unfold log_of at 1. simpl. rewrite lookup_insert_eq. reflexivity.
  - intros ->. reflexivity.
  - intros e -> Hstate Hwidth. rewrite parse_full_width by exact Hwidth.
    split; [reflexivity|]. intros Hle Hlt. apply Z.mod_small. lia.
Qed.

End Properties.

(** * The theorems at concrete worlds *)

Ltac wf_by_computation :=
  constructor;
  [ reflexivity | reflexivity | vm_compute; repeat constructor
  | vm_compute; split; discriminate | reflexivity
  | vm_compute; split; discriminate ].

Ltac by_computation :=
  vm_compute; repeat split; try discriminate; try reflexivity.

(** ** C1 *)

(** A web command that asks for the state the relay already has (master
    relay 0, off) is carried out all the same: one assignment, one new
    log line, one rewrite of the snapshot. *)
Lemma C1_counterexample :
  let w := boot_world in
  let w' := exec (handleRelayToggle rtclib_unixtime env_ok (toggle_request "-1" "0" "0")) w in
  master_state w 0 = false /\
  assigns (trace w') = [(-1, 0, false)] /\
  length (log_of w') = S (length (log_of w)) /\
  saves (trace w') = 1%nat.
Proof. vm_compute. repeat split. Qed.

Lemma C1_witness :
  wf_world kitchen_world /\
  (let w' := exec (relay_command rtclib_unixtime env_ok (-1) 0 false) kitchen_world in
   assigns (trace w') = assigns (trace kitchen_world) ++ [(-1, 0, false)] /\
   grows 1 1 kitchen_world w').
Proof.
  split; [wf_by_computation|].
  apply (C1_one_assignment_per_change rtclib_unixtime env_ok kitchen_world).
  - wf_by_computation.
  - reflexivity.
  - left. reflexivity.
Defined.

(** ** C2 *)



(** ** C3 *)

(** Master relay 1 went on at 13:14:10 and off at 13:14:20; at 13:14:30
    it is switched off once more.  The most recent record with the
    other state is the one of 13:14:10, twenty seconds back; the sketch
    writes a duration of ten seconds, measured from the last record. *)
Lemma C3_counterexample :
  let entries := [on_at_10; off_at_20] in
  let w := log_world entries in
  let now := clock_at 20 in
  let w' := exec (logRelayChange rtclib_unixtime env_at_30 (-1) 1 false) w in
  log_of w' = log_of w ++ [entry_line (mkEntry now (-1) 1 false 10)] /\
  spec_duration rtclib_unixtime entries (-1) 1 false now = 20.
Proof. by_computation. Qed.

Lemma C3_witness :
  let w := log_world [on_at_10] in
  sd w !! "/relays.txt" = Some ([header_line] ++ (entry_line <$> [on_at_10])) /\
  Forall (fun e => loggable (le_room e) (le_relay e)) [on_at_10] /\
  loggable (-1) 1 /\
  exists duration,
    log_of (exec (logRelayChange rtclib_unixtime env_at_30 (-1) 1 false) w) =
      log_of w ++ [entry_line (mkEntry (clock_at 20) (-1) 1 false duration)] /\
    (last_of_channel (-1) 1 [on_at_10] = None -> duration = 0) /\
    (forall e, last_of_channel (-1) 1 [on_at_10] = Some e ->
       le_state e <> false -> full_width (le_time e) ->
       duration = (rtclib_unixtime (clock_at 20) - rtclib_unixtime (le_time e)) mod 2 ^ 32 /\
       (0 <= rtclib_unixtime (le_time e) <= rtclib_unixtime (clock_at 20) ->
        rtclib_unixtime (clock_at 20) < 2 ^ 32 ->
        duration = rtclib_unixtime (clock_at 20) - rtclib_unixtime (le_time e))).
Proof.
  cbv zeta.
  assert (Hch : loggable (-1) 1) by (unfold loggable; lia).
  assert (Hall : Forall (fun e => loggable (le_room e) (le_relay e)) [on_at_10])
    by (repeat constructor; simpl; lia).
  split; [reflexivity|]. split; [exact Hall|]. split; [exact Hch|].
  apply (C3_duration_since_last_record rtclib_unixtime env_at_30 [header_line] [on_at_10]
           (-1) 1 false (log_world [on_at_10])).
  - reflexivity.
  - right. reflexivity.
  - exact Hall.
  - exact Hch.
  - reflexivity.
  - reflexivity.
  - reflexivity.
Defined.

(** Two further runs of the logger.  The same state is logged twice,
    ten seconds apart: the second record carries a duration of ten
    seconds.  And a record written at 2025-1-2 3:4:5 is read back as
    2025-1-3 4:0:0, so that a change ten seconds later is logged with a
    duration of 4294877551 seconds. *)
Example logRelayChange_same_state :
  let w := log_world [off_at_20] in
  log_of (exec (logRelayChange rtclib_unixtime env_at_30 (-1) 1 false) w) =
  log_of w ++ [entry_line (mkEntry (clock_at 20) (-1) 1 false 10)].
Proof. by_computation. Qed.

Example logRelayChange_narrow_time_stamp :
  parse_lastTime (timestamp_of (mkDateTime 2025 1 2 3 4 5)) = mkDateTime 2025 1 3 4 0 0 /\
  duration_of rtclib_unixtime
    [header_line; entry_line (mkEntry (mkDateTime 2025 1 2 3 4 5) (-1) 1 true 0)]
    "Master" 1 "OFF" (mkDateTime 2025 1 2 3 4 15) = 4294877551.
Proof. by_computation. Qed.

(** ** C4 *)

(** The address of "Kitchen" is registered again under the name "Den".
    The radio holds the address and refuses it.  The address is still
    found at index 0, and the entry there is still called "Kitchen":
    the name is not updated. *)
Lemma C4_counterexample :
  let request := add_slave_request "AA:BB:CC:DD:EE:FF" "Den" in
  let w' := exec (handleAddSlave scan_mac env_peer_fails request) kitchen_world in
  find_slave kitchen_mac (slaves kitchen_world) 0 (Z.to_nat (slaveCount kitchen_world)) = 0 /\
  slaveCount w' = 1 /\
  find_slave kitchen_mac (slaves w') 0 (Z.to_nat (slaveCount w')) = 0 /\
  name (aget no_slave (slaves w') 0) = "Kitchen"%string /\
  name (aget no_slave (slaves w') 0) <> "Den"%string.
Proof. vm_compute. repeat split. discriminate. Qed.

Lemma C4_witness :
  let request := add_slave_request "AA:BB:CC:DD:EE:FF" "Den" in
  let w' := exec (handleAddSlave scan_mac env_peer_fails request) kitchen_world in
  hasParam (post_params request) "mac" && hasParam (post_params request) "name" = true /\
  scan_mac "AA:BB:CC:DD:EE:FF" = Some kitchen_mac /\
  find_slave (mac_of_ints kitchen_mac) (slaves kitchen_world) 0
             (Z.to_nat (slaveCount kitchen_world)) <> -1 /\
  directory_held kitchen_world /\
  refuses_held_peer env_peer_fails kitchen_world (mac_of_ints kitchen_mac) /\
  slaveCount w' = slaveCount kitchen_world /\
  sd w' = sd kitchen_world.
Proof.
  cbv zeta.
  assert (Hheld : directory_held kitchen_world).
  { intros i Hi. replace (slaveCount kitchen_world) with 1 in Hi by by_computation.
    assert (i = 0) as -> by lia. vm_compute. left. reflexivity. }
  assert (Hradio : refuses_held_peer env_peer_fails kitchen_world (mac_of_ints kitchen_mac)).
  { intros _. reflexivity. }
  split; [reflexivity|]. split; [reflexivity|]. split; [by_computation|].
  split; [exact Hheld|]. split; [exact Hradio|].
  destruct (C4_register_by_request scan_mac env_peer_fails
              (add_slave_request "AA:BB:CC:DD:EE:FF" "Den") kitchen_mac kitchen_world)
    as (_ & Hc & _ & _ & _ & Hsd).
  - reflexivity.
  - reflexivity.
  - by_computation.
  - exact Hheld.
  - exact Hradio.
  - split; [exact Hc | exact Hsd].
Defined.

(** ** C5 *)

(** The first report of an unknown slave says that channels 0 and 2 are
    on.  The slave is registered, with all channels off; nothing is
    assigned or logged. *)
Lemma C5_counterexample :
  let data := [1; 0; 1; 0] in
  let w' := exec (onDataReceived rtclib_unixtime env_ok [1; 2; 3; 4; 5; 6] data) boot_world in
  slaveCount w' = 1 /\
  name (aget no_slave (slaves w') 0) = "Auto 01:02:03:04:05:06" /\
  reported data 0 = true /\ channel_state w' 0 0 = false /\
  reported data 2 = true /\ channel_state w' 0 2 = false /\
  assigns (trace w') = [] /\
  log_of w' = log_of boot_world.
Proof. vm_compute. repeat split. Qed.

Lemma C5_witness :
  wf_world boot_world /\
  find_slave [1; 2; 3; 4; 5; 6] (slaves boot_world) 0 (Z.to_nat (slaveCount boot_world)) = -1 /\
  slaveCount boot_world < MAX_SLAVES /\
  log_of (exec (onDataReceived rtclib_unixtime env_ok [1; 2; 3; 4; 5; 6] [1; 0; 1; 0])
               boot_world) = log_of boot_world.
Proof.
  split; [wf_by_computation|]. split; [reflexivity|]. split; [reflexivity|].
  apply (C5_report_from_unknown_sender rtclib_unixtime env_ok
           [1; 2; 3; 4; 5; 6] [1; 0; 1; 0] boot_world).
  - wf_by_computation.
  - reflexivity.
  - reflexivity.
Defined.

(** ** C6 *)

(** "On in one minute" is asked for when the millisecond counter stands
    at [2^32 - 1].  The stored time is 59999, and the tick in that same
    millisecond, one minute before the fire time, finds the action due:
    the relay is switched on at once, and the action, taken for one
    that fired long ago, is purged in the same tick. *)
Lemma C6_counterexample :
  let enqueued := exec (handleSchedule env_late (schedule_request "-1" "0" "1" "1"))
                       boot_world in
  let time := env_millis env_late (ticks enqueued) in
  let fire := env_millis env_late (ticks boot_world) + 1 * 60 * 1000 in
  let w' := exec (processSchedules rtclib_unixtime env_late) enqueued in
  time = 2 ^ 32 - 1 /\ fire = 2 ^ 32 - 1 + 60000 /\ time < fire /\
  executed (aget no_schedule (schedules enqueued) 0) = false /\
  master_state enqueued 0 = false /\
  assigns (trace w') = [(-1, 0, true)] /\
  master_state w' 0 = true /\
  scheduleCount w' = 0.
Proof. by_computation. Qed.

(** Two actions for the same relay are enqueued for the same fire time,
    "on" before "off".  On the tick at 200 s both are due: "on" is
    carried out first and "off" prevails. *)
Lemma C6_witness :
  wf_world two_due_world /\
  targetTime (aget no_schedule (schedules two_due_world) 0) =
  targetTime (aget no_schedule (schedules two_due_world) 1) /\
  (let w' := exec (processSchedules rtclib_unixtime env_200s) two_due_world in
   assigns (trace w') = [(-1, 0, true); (-1, 0, false)] /\
   master_state w' 0 = false).
Proof.
  split; [wf_by_computation|]. split; [reflexivity|]. cbv zeta.
  rewrite (proj1 (C6_tick_fires_due_in_order rtclib_unixtime env_200s two_due_world
                    ltac:(wf_by_computation))).
  by_computation.
Defined.

(** ** C7 *)

(** A slave that is not registered reports twice that its channels 0
    and 2 are on.  The first report only registers the slave: nothing
    is assigned or logged.  The second, identical report is the one
    that is reconciled: it makes the two assignments and writes the two
    records. *)
Lemma C7_counterexample :
  let report := onDataReceived rtclib_unixtime env_ok [1; 2; 3; 4; 5; 6] [1; 0; 1; 0] in
  let w1 := exec report boot_world in
  let w2 := exec report w1 in
  assigns (trace w1) = [] /\
  log_of w1 = log_of boot_world /\
  assigns (trace w2) = [(0, 0, true); (0, 2, true)] /\
  length (log_of w2) = (length (log_of w1) + 2)%nat /\
  w2 <> w1.
Proof.
  cbv zeta. split; [by_computation|]. split; [by_computation|].
  split; [by_computation|]. split; [by_computation|].
  intros H. apply (f_equal (fun w => length (assigns (trace w)))) in H.
  vm_compute in H. discriminate.
Qed.

(** The kitchen reports that its channel 2 is on: one assignment, one
    record and one snapshot; the same report again changes nothing. *)
Lemma C7_witness :
  let report := onDataReceived rtclib_unixtime env_ok kitchen_mac [0; 0; 1; 0] in
  wf_world kitchen_world /\
  length [0; 0; 1; 0] = 4%nat /\
  find_slave kitchen_mac (slaves kitchen_world) 0 (Z.to_nat (slaveCount kitchen_world)) <> -1 /\
  card_works env_ok /\
  length (log_of (exec report kitchen_world)) = (length (log_of kitchen_world) + 1)%nat /\
  saves (trace (exec report kitchen_world)) = (saves (trace kitchen_world) + 1)%nat /\
  exec report (exec report kitchen_world) = exec report kitchen_world.
Proof.
  cbv zeta.
  assert (Hfound : find_slave kitchen_mac (slaves kitchen_world) 0
                     (Z.to_nat (slaveCount kitchen_world)) <> -1) by by_computation.
  assert (Hcard : card_works env_ok) by (intros k; split; reflexivity).
  split; [wf_by_computation|]. split; [reflexivity|]. split; [exact Hfound|].
  split; [exact Hcard|].
  destruct (C7_reconcile_idempotent rtclib_unixtime env_ok kitchen_mac [0; 0; 1; 0]
              kitchen_world) as [Hknown _].
  - wf_by_computation.
  - reflexivity.
  - destruct (Hknown Hfound) as (_ & _ & Hexact & _ & _ & Hsame).
    destruct (Hexact Hcard) as [[(extra & Hlog & Hrec) Hsaves] _].
    split; [|split; [|exact Hsame]].
    + rewrite Hlog, length_app. f_equal.
      rewrite <- (Forall2_length _ _ _ Hrec). by_computation.
    + rewrite Hsaves. f_equal; by_computation.
Defined.

(** ** C8 *)

(** One minute is asked for when the millisecond counter stands at
    [2^32 - 1]: the stored fire time is 59999, not [now + delay]. *)
Lemma C8_counterexample :
  let w' := exec (handleSchedule env_late (schedule_request "-1" "0" "1" "1")) boot_world in
  let now := env_millis env_late (ticks boot_world) in
  now = 2 ^ 32 - 1 /\
  scheduleCount w' = 1 /\
  targetTime (aget no_schedule (schedules w') 0) = 59999 /\
  targetTime (aget no_schedule (schedules w') 0) <> now + 1 * 60 * 1000.
Proof. by_computation. Qed.

(** One minute is asked for at 100 s: the action goes into slot 0 with
    fire time 160 s. *)
Lemma C8_witness :
  let request := schedule_request "-1" "0" "1" "1" in
  let q := post_params request in
  hasParam q "room" && hasParam q "relay" && hasParam q "state" &&
    hasParam q "minutes" = true /\
  scheduleCount boot_world < MAX_SCHEDULES /\
  0 < param_toInt q "minutes" <= 1440 /\
  (let w' := exec (handleSchedule env_100s request) boot_world in
   aget no_schedule (schedules w') 0 = mkSchedule (-1) 0 true 160000 false /\
   scheduleCount w' = 1).
Proof.
  cbv zeta. split; [reflexivity|]. split; [reflexivity|]. split; [by_computation|].
  destruct (proj2 (proj2 (C8_enqueue_validates_first env_100s
                            (schedule_request "-1" "0" "1" "1") boot_world)))
    as (Hslot & Hcount & _); [reflexivity | reflexivity | by_computation |].
  rewrite Hslot, Hcount. split; reflexivity.
Defined.

(** ** C9 *)



(** ** C10 *)

Lemma C10_witness :
  let item := aget no_schedule (schedules stray_world) 0 in
  due 100000 item = true /\
  valid_target stray_world (roomIndex item) (relayIndex item) = false /\
  masterRelayStates (exec (run_schedule rtclib_unixtime env_100s 100000 0) stray_world)
  = masterRelayStates stray_world.
Proof.
  cbv zeta. split; [reflexivity|]. split; [reflexivity|].
  apply (C10_out_of_range_is_inert rtclib_unixtime env_100s 100000 0 stray_world);
    reflexivity.
Defined.

(** * Properties of the front panel, of start-up and of the pages *)

Lemma to_long_small z : - 2 ^ 31 <= z < 2 ^ 31 -> to_long z = z.
Proof. intros H. unfold to_long. rewrite Z.mod_small by lia. lia. Qed.

Lemma exec_for_each_cons {A} (x : A) (l : list A) (body : A -> M unit) w :
  exec (for_each (x :: l) body) w = exec (for_each l body) (exec (body x) w).
Proof. simpl. apply exec_seq. Qed.

Lemma exec_for_each_app {A} (l1 l2 : list A) (body : A -> M unit) w :
  exec (for_each (l1 ++ l2) body) w = exec (for_each l2 body) (exec (for_each l1 body) w).
Proof.
  revert w. induction l1 as [|x l1 IH]; intros w; [reflexivity|].
  rewrite <- app_comm_cons, !exec_for_each_cons. apply IH.
Qed.

Section PanelProperties.

Variable unixtime : DateTime -> Z.
Variable env : Env.

Local Abbreviation logRelayChange := (Hub.logRelayChange unixtime env).
Local Abbreviation saveRelayStates := (Hub.saveRelayStates env).
Local Abbreviation sendCommandToSlave := (Hub.sendCommandToSlave unixtime env).
Local Abbreviation relay_command := (Hub.relay_command unixtime env).
Local Abbreviation rotary_isr := (Panel.rotary_isr env).
Local Abbreviation press_button := (Panel.press_button unixtime env).
Local Abbreviation handleTM1638Buttons := (Panel.handleTM1638Buttons unixtime env).

(** *** The rotary encoder *)

(** The interrupt routine keeps the selected room within
    [0 .. slaveCount]: one step per accepted edge, none past either
    end.  An edge that comes 5 ms or less after the previous one moves
    nothing.  Nothing but the position (and the readings of the clock)
    changes in the world. *)
Theorem rotary_isr_keeps_room_in_range (dt_low : bool) f w :
  wf_world w ->
  0 <= rotaryPosition w <= slaveCount w ->
  let t := env_millis env (ticks w) mod 2 ^ 32 in
  let accepted := 5 <? (t - lastInterruptTime f) mod 2 ^ 32 in
  let step := if dt_low then 1 else -1 in
  let f' := fst (rotary_isr dt_low f w) in
  let w' := exec (rotary_isr dt_low f) w in
  0 <= rotaryPosition w' <= slaveCount w' /\
  rotaryPosition w' =
    (if accepted then Z.max 0 (Z.min (slaveCount w) (rotaryPosition w + step))
     else rotaryPosition w) /\
  rotaryChanged f' = (accepted || rotaryChanged f) /\
  lastInterruptTime f' = t /\
  w' = set_ticks (ticks w') (set_rotaryPosition (rotaryPosition w') w).
Proof.
  intros Hwf Hpos t accepted step f' w'.
  assert (Hc : slaveCount w <= 10) by (destruct Hwf; unfold MAX_SLAVES in *; lia).
  subst f' w'.
  cbv beta iota zeta delta [Panel.rotary_isr exec bind millis ask modify ret fst snd].
  cbn [ticks set_ticks]. fold t. fold accepted.
  destruct accepted; cbn [fst snd rotaryPosition slaveCount set_rotaryPosition set_ticks
                          rotaryChanged lastInterruptTime ticks orb].
  - assert (Hstep : to_long (if dt_low then rotaryPosition w + 1 else rotaryPosition w - 1)
                    = rotaryPosition w + step).
    { subst step. destruct dt_low; apply to_long_small; lia. }
    rewrite Hstep.
    assert (Hclamp :
      (if slaveCount w <? (if rotaryPosition w + step <? 0 then 0 else rotaryPosition w + step)
       then slaveCount w
       else if rotaryPosition w + step <? 0 then 0 else rotaryPosition w + step)
      = Z.max 0 (Z.min (slaveCount w) (rotaryPosition w + step))).
    { subst step.
      destruct dt_low;
        [destruct (rotaryPosition w + 1 <? 0) eqn:E1 | destruct (rotaryPosition w + -1 <? 0) eqn:E1];
        repeat case_if; zbool; lia. }
    rewrite Hclamp. subst step. splits; try reflexivity; try (destruct dt_low; lia).
  - splits; try reflexivity; try lia.
Qed.

(** *** The buttons *)

(** The state a button of the panel acts on: relay [i] of the room the
    encoder has selected. *)
Lemma press_button_run i w :
  length (masterRelayStates w) = 4%nat ->
  0 <= i < 4 ->
  0 <= rotaryPosition w <= slaveCount w ->
  exec (press_button i) w =
  exec updateTM1638LEDs
       (exec (relay_command (rotaryPosition w - 1) i (negb (selected_state w i))) w).
Proof.
  intros Hlen Hi Hpos. unfold Panel.press_button, selected_state.
  rewrite !exec_gets, exec_seq. f_equal.
  unfold Hub.relay_command.
  destruct (rotaryPosition w =? 0) eqn:E; zbool.
  - rewrite E. change (0 - 1 =? -1) with true. cbv iota. unfold master_state.
    assert (Hin : (0 <=? i) && (i <? 4) = true).
    { apply andb_true_iff. split; [apply Z.leb_le | apply Z.ltb_lt]; lia. }
    rewrite Hin. cbn [when]. rewrite exec_gets, !exec_seq, exec_gets, !exec_seq.
    assert (Hcell : aget false (masterRelayStates
                      (exec (assign_master i (negb (aget false (masterRelayStates w) i))) w)) i
                    = negb (aget false (masterRelayStates w) i)).
    { simpl. apply aget_aset_eq. lia. }
    rewrite Hcell. reflexivity.
  - destruct (rotaryPosition w <=? slaveCount w) eqn:E'; [|zbool; lia].
    destruct (rotaryPosition w - 1 =? -1) eqn:E''; [zbool; lia|].
    rewrite !exec_gets.
    assert (Hin : (0 <=? rotaryPosition w - 1) && (rotaryPosition w - 1 <? slaveCount w) &&
                  (0 <=? i) && (i <? 4) = true).
    { repeat (apply andb_true_iff; split); try apply Z.leb_le; try apply Z.ltb_lt; lia. }
    rewrite Hin. reflexivity.
Qed.

Lemma wf_world_ticks t w : wf_world w -> wf_world (set_ticks t w).
Proof. intros []. constructor; assumption. Qed.

Lemma grows_ticks a b t w w' : grows a b (set_ticks t w) w' -> grows a b w w'.
Proof. intros H. exact H. Qed.

(** The loop over the buttons [lo .. lo + n - 1] while the master room
    is selected. *)
Lemma buttons_loop_master buttons n :
  forall lo w,
  wf_world w -> rotaryPosition w = 0 -> 0 <= lo -> lo + Z.of_nat n <= 4 ->
  let down := List.filter (Panel.button_down buttons) (zrange lo n) in
  let w' := exec (for_loop lo n (fun i => when (Panel.button_down buttons i) (press_button i))) w in
  wf_world w' /\
  rotaryPosition w' = 0 /\
  slaves w' = slaves w /\
  slaveCount w' = slaveCount w /\
  schedules w' = schedules w /\
  scheduleCount w' = scheduleCount w /\
  (forall j, master_state w' j =
             if (lo <=? j) && (j <? lo + Z.of_nat n) && Panel.button_down buttons j
             then negb (master_state w j) else master_state w j) /\
  assigns (trace w') =
    assigns (trace w) ++ ((fun j => (-1, j, negb (master_state w j))) <$> down) /\
  sends (trace w') = sends (trace w) /\
  grows (length down) (length down) w w'.
Proof.
  induction n as [|n IH]; intros lo w Hwf Hrot Hlo Hhi; cbv zeta.
  - simpl. rewrite app_nil_r. splits; try apply grows_refl; try reflexivity; try assumption.
    intros j. case_if; [zbool; lia | reflexivity].
  - rewrite exec_for_loop_S. simpl zrange. simpl List.filter.
    destruct (Panel.button_down buttons lo) eqn:D; cbn [when].
    + rewrite press_button_run by (try apply Hwf; destruct Hwf; lia).
      unfold selected_state. rewrite Hrot. change (0 =? 0) with true. cbv iota.
      change (0 - 1) with (-1).
      destruct (relay_command_master unixtime env lo (negb (master_state w lo)) w)
        as (Hm & Hsl & Hsc & Hsch & Hschc & Hrot1 & Hasg & Hsnd & G & _); [lia|].
      destruct (relay_command_keeps unixtime env (-1) lo (negb (master_state w lo)) w)
        as (_ & _ & _ & _ & _ & Hwf1).
      specialize (Hwf1 Hwf).
      set (w1 := exec (relay_command (-1) lo (negb (master_state w lo))) w) in *.
      destruct (updateTM1638LEDs_quiet w1) as [Qm Qsl Qsc Qsch Qschc Qrot Qasg Qsnd].
      pose proof (updateTM1638LEDs_grows w1) as G2.
      set (w2 := exec updateTM1638LEDs w1) in *.
      assert (Hwf2 : wf_world w2).
      { destruct Hwf1. constructor; congruence. }
      destruct (IH (lo + 1) w2) as (Hwf' & Hrot' & Hsl' & Hsc' & Hsch' & Hschc' & Hcells &
                                    Hasg' & Hsnd' & G'); [assumption | congruence | lia | lia |].
      assert (Hold : forall j, j <> lo -> master_state w2 j = master_state w j).
      { intros j Hj. unfold master_state. rewrite Qm, Hm.
        apply aget_aset_ne. congruence. }
      assert (Hnew : master_state w2 lo = negb (master_state w lo)).
      { unfold master_state at 1. rewrite Qm, Hm.
        apply aget_aset_eq. destruct Hwf. lia. }
      splits; try congruence.
      * intros j. rewrite Hcells. destruct (Z.eq_dec j lo) as [->|Hne].
        -- rewrite Hnew, D. repeat case_if; try reflexivity; zbool; try lia; congruence.
        -- rewrite Hold by exact Hne. repeat case_if; try reflexivity; zbool; try lia; congruence.
      * rewrite Hasg', Qasg, Hasg, <- app_assoc. cbn [fmap list_fmap app].
        do 2 f_equal. apply list_fmap_ext. intros k j Hj.
        apply list_elem_of_lookup_2, list_elem_of_In, filter_In in Hj.
        destruct Hj as [Hj _]. apply in_zrange in Hj.
        rewrite Hold by lia. reflexivity.
      * simpl length.
        apply (grows_trans 1 1 _ _ _ _ _
                 (grows_trans 1 1 0 0 _ _ _ G G2) G').
    + destruct (IH (lo + 1) w) as (Hwf' & Hrot' & Hsl' & Hsc' & Hsch' & Hschc' & Hcells &
                                   Hasg' & Hsnd' & G'); [assumption | assumption | lia | lia |].
      splits; try assumption.
      intros j. rewrite Hcells. destruct (Z.eq_dec j lo) as [->|Hne].
      * rewrite D. repeat case_if; try reflexivity; zbool; try lia; congruence.
      * repeat case_if; try reflexivity; zbool; try lia; congruence.
Qed.

Lemma button_down_testbit buttons j :
  0 <= j -> Panel.button_down buttons j = Z.testbit buttons j.
Proof.
  intros Hj. unfold Panel.button_down. rewrite Z.shiftl_1_l.
  destruct (Z.testbit buttons j) eqn:T.
  - apply negb_true_iff, Z.eqb_neq. intros H0.
    assert (H1 : Z.testbit (Z.land buttons (2 ^ j)) j = true).
    { rewrite Z.land_spec, T, Z.pow2_bits_true by exact Hj. reflexivity. }
    rewrite H0, Z.bits_0 in H1. discriminate.
  - apply negb_false_iff, Z.eqb_eq, Z.bits_inj'. intros k Hk.
    rewrite Z.land_spec, Z.bits_0.
    destruct (Z.eq_dec k j) as [->|Hne].
    + rewrite T. reflexivity.
    + rewrite Z.pow2_bits_false by congruence. apply andb_false_r.
Qed.

Lemma handleTM1638Buttons_run buttons f w :
  0 < buttons ->
  exec (handleTM1638Buttons buttons f) w =
  exec (for_loop 0 4 (fun i => when (Panel.button_down buttons i) (press_button i)))
       (set_ticks (S (ticks w)) w).
Proof.
  intros H. unfold Panel.handleTM1638Buttons.
  destruct (0 <? buttons) eqn:E; [|zbool; lia].
  rewrite exec_bind. cbn [millis ask bind ret fst snd]. rewrite exec_seq. reflexivity.
Qed.

(** While the master room is selected, each of the buttons 1 to 4 that
    is down flips its relay, in the order of the buttons, and nothing
    else: one assignment per button, no command to a slave, at most one
    log line and one snapshot per button.  The other four buttons have
    no effect.  Pressing the same buttons again gives the relay states
    back. *)
Theorem buttons_flip_master_relays buttons f w :
  wf_world w -> rotaryPosition w = 0 -> 0 < buttons ->
  let down := List.filter (Z.testbit buttons) [0; 1; 2; 3] in
  let w' := exec (handleTM1638Buttons buttons f) w in
  (forall j, 0 <= j < 4 ->
     master_state w' j = xorb (master_state w j) (Z.testbit buttons j)) /\
  slaves w' = slaves w /\
  assigns (trace w') =
    assigns (trace w) ++ ((fun j => (-1, j, negb (master_state w j))) <$> down) /\
  sends (trace w') = sends (trace w) /\
  grows (length down) (length down) w w' /\
  (forall f', masterRelayStates (exec (handleTM1638Buttons buttons f') w') =
              masterRelayStates w).
Proof.
  intros Hwf Hrot Hb down w'.
  assert (Hdown : List.filter (Panel.button_down buttons) (zrange 0 4) = down).
  { subst down. apply filter_ext_in. intros j Hj. simpl in Hj.
    apply button_down_testbit. lia. }
  assert (Hrun : forall f0 w0, wf_world w0 -> rotaryPosition w0 = 0 ->
            let w1 := exec (handleTM1638Buttons buttons f0) w0 in
            wf_world w1 /\ rotaryPosition w1 = 0 /\ slaves w1 = slaves w0 /\
            (forall j, 0 <= j < 4 ->
               master_state w1 j = xorb (master_state w0 j) (Z.testbit buttons j)) /\
            assigns (trace w1) =
              assigns (trace w0) ++ ((fun j => (-1, j, negb (master_state w0 j))) <$> down) /\
            sends (trace w1) = sends (trace w0) /\
            grows (length down) (length down) w0 w1).
  { intros f0 w0 Hwf0 Hrot0. cbv zeta. rewrite handleTM1638Buttons_run by exact Hb.
    destruct (buttons_loop_master buttons 4 0 (set_ticks (S (ticks w0)) w0))
      as (Hwf1 & Hrot1 & Hsl & _ & _ & _ & Hcells & Hasg & Hsnd & G);
      [apply wf_world_ticks, Hwf0 | exact Hrot0 | lia | simpl; lia |].
    rewrite Hdown in Hasg, G.
    splits; try assumption.
    intros j Hj. rewrite Hcells, button_down_testbit by lia.
    change (master_state (set_ticks (S (ticks w0)) w0) j) with (master_state w0 j).
    destruct ((0 <=? j) && (j <? 0 + Z.of_nat 4)) eqn:E; [|zbool; lia].
    cbn [andb]. destruct (Z.testbit buttons j), (master_state w0 j); reflexivity. }
  destruct (Hrun f w Hwf Hrot) as (Hwf1 & Hrot1 & Hsl & Hcells & Hasg & Hsnd & G).
  fold w' in Hwf1, Hrot1, Hsl, Hcells, Hasg, Hsnd, G.
  splits; try assumption.
  intros f'. destruct (Hrun f' w' Hwf1 Hrot1) as (Hwf2 & _ & _ & Hcells2 & _).
  rewrite (relays_of_four (masterRelayStates w)) by apply Hwf.
  rewrite (relays_of_four (masterRelayStates (exec (handleTM1638Buttons buttons f') w')))
    by apply Hwf2.
  apply list_fmap_ext. intros k j Hj.
  assert (Hj' : 0 <= j < 4).
  { apply list_elem_of_lookup_2, list_elem_of_In in Hj. simpl in Hj. lia. }
  fold (master_state (exec (handleTM1638Buttons buttons f') w') j). fold (master_state w j).
  rewrite Hcells2, Hcells by exact Hj'.
  destruct (Z.testbit buttons j), (master_state w j); reflexivity.
Qed.

Lemma single_button_loop i w :
  0 <= i < 4 ->
  exec (for_loop 0 4 (fun j => when (Panel.button_down (2 ^ i) j) (press_button j))) w =
  exec (press_button i) w.
Proof.
  intros Hi.
  assert (i = 0 \/ i = 1 \/ i = 2 \/ i = 3) as [-> | [-> | [-> | ->]]] by lia;
    rewrite !exec_for_loop_S; cbn [for_loop Z.add Pos.add Pos.succ];
    repeat match goal with
    | |- context [Panel.button_down ?b ?j] =>
        let v := eval vm_compute in (Panel.button_down b j) in
        change (Panel.button_down b j) with v
    end;
    reflexivity.
Qed.

(** While a slave room is selected, a button asks the slave for the
    opposite of what the directory holds for that relay: one command
    goes to the radio, and the directory follows at once when the radio
    accepts it and stays as it is when the radio refuses.  The master
    relays are not touched. *)
Theorem button_commands_selected_slave i f w :
  wf_world w -> 1 <= rotaryPosition w <= slaveCount w -> 0 <= i < 4 ->
  let slaveIndex := rotaryPosition w - 1 in
  let wanted := negb (channel_state w slaveIndex i) in
  let accepted := env_esp_now_send env (S (ticks w)) in
  let w' := exec (handleTM1638Buttons (2 ^ i) f) w in
  sends (trace w') =
    sends (trace w) ++
    [(macAddress (aget no_slave (slaves w) slaveIndex), i, wanted, accepted)] /\
  channel_state w' slaveIndex i = (if accepted then wanted else channel_state w slaveIndex i) /\
  assigns (trace w') =
    assigns (trace w) ++ (if accepted then [(slaveIndex, i, wanted)] else []) /\
  masterRelayStates w' = masterRelayStates w.
Proof.
  intros Hwf Hpos Hi slaveIndex wanted accepted w'.
  assert (Hb : 0 < 2 ^ i) by (apply Z.pow_pos_nonneg; lia).
  subst w'. rewrite handleTM1638Buttons_run by exact Hb.
  rewrite single_button_loop by exact Hi.
  set (w0 := set_ticks (S (ticks w)) w).
  rewrite press_button_run by (try apply Hwf; simpl; lia).
  assert (Hsel : selected_state w0 i = channel_state w slaveIndex i).
  { unfold selected_state. simpl rotaryPosition.
    destruct (rotaryPosition w =? 0) eqn:E; [zbool; lia | reflexivity]. }
  rewrite Hsel. fold wanted. change (rotaryPosition w0) with (rotaryPosition w).
  fold slaveIndex.
  assert (Hvalid : valid_target w0 slaveIndex i = true).
  { unfold valid_target. simpl slaveCount.
    destruct (slaveIndex =? -1) eqn:E; [subst slaveIndex; zbool; lia|].
    repeat (apply andb_true_iff; split); try apply Z.leb_le; try apply Z.ltb_lt;
      subst slaveIndex; lia. }
  assert (Hrun : exec (relay_command slaveIndex i wanted) w0 =
                 exec (sendCommandToSlave slaveIndex i wanted) w0).
  { unfold exec. rewrite relay_command_slave by (assumption || (subst slaveIndex; lia)).
    reflexivity. }
  rewrite Hrun.
  assert (Hmod : i mod 256 = i) by (apply Z.mod_small; lia).
  assert (Hin : 0 <= slaveIndex < Z.of_nat (length (slaves w))).
  { destruct Hwf. unfold MAX_SLAVES in *. subst slaveIndex. lia. }
  destruct accepted eqn:Hacc; subst accepted.
  - destruct (sendCommandToSlave_accepted unixtime env slaveIndex i wanted w0)
      as (Hsl & Hm & _ & _ & _ & _ & Hasg & Hsnd & _);
      [subst slaveIndex; simpl; lia | exact Hacc |].
    set (w1 := exec (sendCommandToSlave slaveIndex i wanted) w0) in *.
    destruct (updateTM1638LEDs_quiet w1) as [Qm Qsl Qsc Qsch Qschc Qrot Qasg Qsnd].
    rewrite Hmod in Hsnd.
    change (trace w0) with (trace w) in Hasg, Hsnd.
    change (slaves w0) with (slaves w) in Hsl, Hsnd.
    change (masterRelayStates w0) with (masterRelayStates w) in Hm.
    splits; try congruence.
    unfold channel_state. rewrite Qsl, Hsl.
    rewrite aget_aset_eq by exact Hin. simpl.
    apply aget_aset_eq. rewrite wf_relays_at by assumption. simpl. lia.
  - rewrite sendCommandToSlave_refused by (assumption || (subst slaveIndex; simpl; lia)).
    rewrite Hmod. simpl. rewrite sends_app, assigns_app, !app_nil_r.
    splits; rewrite ?sends_app, ?assigns_app, ?app_nil_r; reflexivity.
Qed.

(** Buttons 5 to 8 alone are not acted on: the clock is read for the
    inactivity timer and the world is as it was. *)
Theorem upper_buttons_are_ignored buttons f w :
  0 < buttons -> Z.land buttons 15 = 0 ->
  handleTM1638Buttons buttons f w =
  (mkFront (rotaryChanged f) (to_long (env_millis env (ticks w) mod 2 ^ 32))
           (lastInterruptTime f),
   set_ticks (S (ticks w)) w).
Proof.
  intros Hb Hlow.
  assert (Hup : forall j, In j [0; 1; 2; 3] -> Panel.button_down buttons j = false).
  { intros j Hj. unfold Panel.button_down. apply negb_false_iff, Z.eqb_eq.
    assert (Hbit : Z.shiftl 1 j = Z.land 15 (Z.shiftl 1 j)).
    { simpl in Hj. destruct Hj as [<- | [<- | [<- | [<- | []]]]]; reflexivity. }
    rewrite Hbit, Z.land_assoc, Hlow. apply Z.land_0_l. }
  unfold Panel.handleTM1638Buttons.
  destruct (0 <? buttons) eqn:E; [|zbool; lia].
  cbv beta iota zeta delta [bind millis ask ret for_loop].
  cbn [Z.add Pos.add Pos.succ].
  rewrite !Hup by (simpl; tauto). reflexivity.
Qed.

(** *** The LEDs *)

Lemma led_bits_spec states i :
  0 <= i -> Z.testbit (led_bits states) i = (i <? 4) && aget false states i.
Proof.
  intros Hi. unfold led_bits. cbn [fold_left].
  assert (Hhigh : forall c, 0 <= c < 16 -> 4 <= i -> Z.testbit c i = false).
  { intros c Hc H4. rewrite <- (Z.mod_small c (2 ^ 4)) by (simpl; lia).
    apply Z.mod_pow2_bits_high. lia. }
  destruct (Z_lt_le_dec i 4) as [Hlt|Hge].
  - assert (i = 0 \/ i = 1 \/ i = 2 \/ i = 3) as [-> | [-> | [-> | ->]]] by lia;
      destruct (aget false states 0), (aget false states 1),
               (aget false states 2), (aget false states 3); reflexivity.
  - destruct (i <? 4) eqn:E; [zbool; lia|]. cbn [andb].
    destruct (aget false states 0), (aget false states 1),
             (aget false states 2), (aget false states 3);
      (apply Hhigh; [vm_compute; split; [discriminate | reflexivity] | lia]).
Qed.

(** [updateTM1638LEDs] hands one byte to the panel and changes nothing
    else.  LED [i] of that byte is on exactly when relay [i] of the
    selected room is on; LEDs 5 to 8 stay off, and so do all of them
    when the position is past the last slave. *)
Theorem leds_show_selected_room w :
  0 <= rotaryPosition w -> 0 <= slaveCount w ->
  exists ledValues,
    exec updateTM1638LEDs w = set_trace (trace w ++ [EvSetLEDs ledValues]) w /\
    forall i, 0 <= i ->
      Z.testbit ledValues i =
      (i <? 4) && (rotaryPosition w <=? slaveCount w) && selected_state w i.
Proof.
  intros Hpos Hcount. eexists. split; [reflexivity|].
  intros i Hi. cbv beta delta [id]. unfold selected_state.
  destruct (rotaryPosition w =? 0) eqn:E0.
  - rewrite led_bits_spec by exact Hi. unfold master_state.
    destruct (i <? 4); [|reflexivity]. cbn [andb].
    destruct (rotaryPosition w <=? slaveCount w) eqn:E1; cbn [andb]; [reflexivity|].
    zbool. lia.
  - destruct (rotaryPosition w <=? slaveCount w) eqn:E1.
    + rewrite led_bits_spec by exact Hi. rewrite andb_true_r. reflexivity.
    + rewrite Z.bits_0, andb_false_r. reflexivity.
Qed.

End PanelProperties.


Section StorageProperties.

Variable unixtime : DateTime -> Z.
Variable sscanf_mac : string -> option (list Z).
Variable env : Env.

Local Abbreviation create_file := (Storage.create_file env).
Local Abbreviation setupSD := (Storage.setupSD env).
Local Abbreviation loadRelayStates := (Storage.loadRelayStates env).
Local Abbreviation load_slave_line := (Storage.load_slave_line sscanf_mac env).
Local Abbreviation load_slave_lines := (Storage.load_slave_lines sscanf_mac env).
Local Abbreviation loadSlaveInfo := (Storage.loadSlaveInfo sscanf_mac env).
Local Abbreviation saveRelayStates := (Hub.saveRelayStates env).
Local Abbreviation saveSlaveInfo := (Hub.saveSlaveInfo env).

(** *** The files of a new card *)

Lemma create_file_run path header w :
  exec (create_file path header) w =
  match sd w !! path with
  | Some _ => w
  | None =>
      set_ticks (S (ticks w))
        (if env_sd_open env (ticks w)
         then set_sd (<[path := [header +:+ CR]]> (sd w)) w else w)
  end.
Proof.
  cbv beta iota zeta delta [Storage.create_file exec bind SD_exists SD_open_write ask
    file_println modify gets when ret negb snd].
  destruct (sd w !! path) eqn:E.
  - rewrite bool_decide_eq_true_2 by eauto. reflexivity.
  - rewrite bool_decide_eq_false_2 by (intros [x Hx]; discriminate).
    destruct (env_sd_open env (ticks w)); simpl; [|reflexivity].
    rewrite lookup_insert_eq, insert_insert_eq. reflexivity.
Qed.

Lemma create_file_frame path header w :
  let w' := exec (create_file path header) w in
  quiet w w' /\ trace w' = trace w /\
  (forall p, p <> path -> sd w' !! p = sd w !! p) /\
  (forall content, sd w !! path = Some content -> sd w' = sd w) /\
  (sd w !! path = None ->
   sd w' !! path = if env_sd_open env (ticks w) then Some [header +:+ CR] else None).
Proof.
  cbv zeta. rewrite create_file_run.
  destruct (sd w !! path) eqn:E.
  - splits; try reflexivity; try apply quiet_refl. discriminate.
  - destruct (env_sd_open env (ticks w)); simpl; splits; try reflexivity;
      try (constructor; reflexivity); try discriminate.
    + intros p Hp. apply lookup_insert_ne. congruence.
    + intros _. apply lookup_insert_eq.
    + intros _. exact E.
Qed.

Lemma setupSD_run w :
  exec setupSD w =
  if env_sd_begin env (ticks w) then
    exec (create_file "/slaves.txt" "# MAC,Name")
      (exec (create_file "/states.txt" "# Room,Relay,State")
         (exec (create_file "/relays.txt" "Timestamp,Room,Relay,State,Duration")
            (set_trace (trace w ++ [EvSerial "SD Card initialized"])
               (set_ticks (S (ticks w)) w))))
  else set_ticks (S (ticks w))
         (set_trace (trace w ++ [EvSerial "SD Card initialization failed!"]) w).
Proof.
  unfold Storage.setupSD. rewrite exec_bind.
  cbn [SD_begin ask fst snd].
  destruct (env_sd_begin env (ticks w)); cbn [negb]; [|reflexivity].
  rewrite !exec_seq. reflexivity.
Qed.

Lemma quiet_serial msg t w :
  quiet w (set_trace (trace w ++ [EvSerial msg]) (set_ticks t w)).
Proof.
  constructor; simpl; rewrite ?assigns_app, ?sends_app, ?app_nil_r; reflexivity.
Qed.

(** [setupSD] never changes a file that is on the card: a file it finds
    keeps its content, and a file that is there afterwards but was not
    before is one of the three files of the sketch and holds its header
    line only.  When the card answers, all three files exist
    afterwards; when it cannot be mounted, the card is left alone.  The
    relay states, the directory and the queue are not touched. *)
Theorem setupSD_creates_only_missing_files w :
  let w' := exec setupSD w in
  quiet w w' /\
  (forall path content, sd w !! path = Some content -> sd w' !! path = Some content) /\
  (forall path content, sd w !! path = None -> sd w' !! path = Some content ->
     exists header, In (path, header) new_card_files /\ content = [header +:+ CR]) /\
  (env_sd_begin env (ticks w) = true -> (forall k, env_sd_open env k = true) ->
     forall path header, In (path, header) new_card_files -> is_Some (sd w' !! path)) /\
  (env_sd_begin env (ticks w) = false -> sd w' = sd w).
Proof.
  cbv zeta. rewrite setupSD_run.
  destruct (env_sd_begin env (ticks w)) eqn:Hb.
  2:{ splits; try reflexivity; try discriminate.
      - constructor; simpl; rewrite ?assigns_app, ?sends_app, ?app_nil_r; reflexivity.
      - intros path content H. exact H.
      - intros path content H1 H2. simpl in H2. congruence. }
  set (w1 := set_trace _ _).
  assert (Q1 : quiet w w1) by apply quiet_serial.
  assert (S1 : sd w1 = sd w) by reflexivity.
  destruct (create_file_frame "/relays.txt" "Timestamp,Room,Relay,State,Duration" w1)
    as (Q2 & _ & O2 & K2 & N2).
  set (w2 := exec (create_file "/relays.txt" _) w1) in *.
  destruct (create_file_frame "/states.txt" "# Room,Relay,State" w2)
    as (Q3 & _ & O3 & K3 & N3).
  set (w3 := exec (create_file "/states.txt" _) w2) in *.
  destruct (create_file_frame "/slaves.txt" "# MAC,Name" w3)
    as (Q4 & _ & O4 & K4 & N4).
  set (w4 := exec (create_file "/slaves.txt" _) w3) in *.
  assert (Hstep : forall (p header : string) (wa wb : World),
            (forall q, q <> p -> sd wb !! q = sd wa !! q) ->
            (forall content, sd wa !! p = Some content -> sd wb = sd wa) ->
            forall path content, sd wa !! path = Some content ->
                                 sd wb !! path = Some content).
  { intros p header wa wb O K path content H.
    destruct (decide (path = p)) as [->|Hne].
    - rewrite (K _ H). exact H.
    - rewrite O by exact Hne. exact H. }
  splits.
  - eapply quiet_trans; [exact Q1|]. eapply quiet_trans; [exact Q2|].
    eapply quiet_trans; [exact Q3 | exact Q4].
  - intros path content H. rewrite <- S1 in H.
    apply (Hstep _ "" _ _ O4 K4), (Hstep _ "" _ _ O3 K3), (Hstep _ "" _ _ O2 K2), H.
  - intros path content Hnone Hsome. rewrite <- S1 in Hnone. unfold new_card_files.
    destruct (decide (path = "/relays.txt")) as [->|H1].
    { rewrite O4, O3 in Hsome by discriminate. rewrite N2 in Hsome by exact Hnone.
      destruct (env_sd_open env (ticks w1)); [|discriminate].
      eexists. split; [left; reflexivity | congruence]. }
    assert (H2 : sd w2 !! path = None) by (rewrite O2 by exact H1; exact Hnone).
    destruct (decide (path = "/states.txt")) as [->|H3].
    { rewrite O4 in Hsome by discriminate. rewrite N3 in Hsome by exact H2.
      destruct (env_sd_open env (ticks w2)); [|discriminate].
      eexists. split; [right; left; reflexivity | congruence]. }
    assert (H4 : sd w3 !! path = None) by (rewrite O3 by exact H3; exact H2).
    destruct (decide (path = "/slaves.txt")) as [->|H5].
    { rewrite N4 in Hsome by exact H4.
      destruct (env_sd_open env (ticks w3)); [|discriminate].
      eexists. split; [right; right; left; reflexivity | congruence]. }
    rewrite O4 in Hsome by exact H5. congruence.
  - intros _ Hopen path header Hin.
    assert (Hmade : forall (p h : string) (wa wb : World),
              (forall content, sd wa !! p = Some content -> sd wb = sd wa) ->
              (sd wa !! p = None ->
               sd wb !! p = if env_sd_open env (ticks wa) then Some [h +:+ CR] else None) ->
              is_Some (sd wb !! p)).
    { intros p h wa wb K N. destruct (sd wa !! p) eqn:E.
      - rewrite (K _ eq_refl), E. eauto.
      - rewrite N, Hopen by reflexivity. eauto. }
    simpl in Hin. destruct Hin as [Hin | [Hin | [Hin | []]]]; inversion Hin; subst.
    + rewrite O4, O3 by discriminate. exact (Hmade _ _ _ _ K2 N2).
    + rewrite O4 by discriminate. exact (Hmade _ _ _ _ K3 N3).
    + exact (Hmade _ _ _ _ K4 N4).
  - discriminate.
Qed.

(** *** The snapshot of the relay states, read back *)

(** Every line that [saveRelayStates] can write is read with its room
    and relay, and with the state "off": the carriage return that
    [println] puts before the line feed stays at the end of the line,
    and ["ON\r"] is not ["ON"]. *)
Lemma state_line_table :
  forallb (fun ch =>
    forallb (fun state =>
      bool_decide (Storage.parse_state_line (state_line (fst ch) (snd ch) state) =
                   Some (roomName_of (fst ch), snd ch, false)) &&
      Bool.eqb (bool_decide (roomName_of (fst ch) = "Master")) (fst ch =? -1) &&
      ((fst ch =? -1) ||
       (Storage.startsWith (roomName_of (fst ch)) "Slave" &&
        (WString.toInt (Storage.substring_from (roomName_of (fst ch)) 5) - 1 =? fst ch))))
    [true; false]) all_channels = true.
Proof. vm_compute. reflexivity. Qed.

Lemma load_state_line_off room relay state :
  loggable room relay ->
  Storage.load_state_line (state_line room relay state) = clear_cell room relay.
Proof.
  intros H. pose proof state_line_table as T.
  rewrite forallb_forall in T. specialize (T _ (loggable_listed _ _ H)).
  rewrite forallb_forall in T.
  assert (Hs : In state [true; false]) by (destruct state; simpl; tauto).
  specialize (T _ Hs). cbn [fst snd] in T.
  apply andb_true_iff in T. destruct T as [T T3].
  apply andb_true_iff in T. destruct T as [T1 T2].
  apply bool_decide_eq_true in T1. apply eqb_prop in T2.
  unfold Storage.load_state_line. rewrite T1.
  unfold Storage.apply_state, clear_cell. rewrite T2.
  destruct (room =? -1) eqn:E; cbn [andb].
  - destruct H as [_ Hk].
    destruct (0 <=? relay) eqn:E1; [|zbool; lia].
    destruct (relay <? 4) eqn:E2; [reflexivity | zbool; lia].
  - cbn [orb andb] in T3. zbool.
    match goal with Hp : Storage.startsWith _ _ = true |- _ => rewrite Hp end.
    match goal with Hv : _ - 1 = room |- _ => rewrite Hv end.
    reflexivity.
Qed.

Lemma load_room_lines room states w :
  -1 <= room <= 9 ->
  exec (for_each (state_lines (roomName_of room) states) Storage.load_state_line) w =
  exec (for_each [0; 1; 2; 3] (clear_cell room)) w.
Proof.
  intros Hr. unfold state_lines. cbn [fmap list_fmap].
  rewrite !exec_for_each_cons.
  change (roomName_of room +:+ "," +:+ WString.of_int 0 +:+ "," +:+
          stateStr_of (aget false states 0) +:+ CR)
    with (state_line room 0 (aget false states 0)).
  change (roomName_of room +:+ "," +:+ WString.of_int 1 +:+ "," +:+
          stateStr_of (aget false states 1) +:+ CR)
    with (state_line room 1 (aget false states 1)).
  change (roomName_of room +:+ "," +:+ WString.of_int 2 +:+ "," +:+
          stateStr_of (aget false states 2) +:+ CR)
    with (state_line room 2 (aget false states 2)).
  change (roomName_of room +:+ "," +:+ WString.of_int 3 +:+ "," +:+
          stateStr_of (aget false states 3) +:+ CR)
    with (state_line room 3 (aget false states 3)).
  rewrite !load_state_line_off by (split; lia). reflexivity.
Qed.

Lemma four_cleared (rs : list bool) :
  length rs = 4%nat ->
  aset (aset (aset (aset rs 0 false) 1 false) 2 false) 3 false = all_off.
Proof.
  intros H. destruct rs as [|a [|b [|c [|d [|e rs]]]]]; try discriminate. reflexivity.
Qed.

Lemma clear_master_run w :
  length (masterRelayStates w) = 4%nat ->
  exec (for_each [0; 1; 2; 3] (clear_cell (-1))) w =
  set_trace (trace w ++ [EvAssign (-1) 0 false; EvDigitalWrite 12 false;
                         EvAssign (-1) 1 false; EvDigitalWrite 13 false;
                         EvAssign (-1) 2 false; EvDigitalWrite 14 false;
                         EvAssign (-1) 3 false; EvDigitalWrite 15 false])
            (set_master all_off w).
Proof.
  intros H. rewrite <- (four_cleared (masterRelayStates w)) by exact H.
  cbv beta iota zeta delta [for_each clear_cell exec bind assign_master digitalWrite
    emit modify ret snd Z.eqb Pos.eqb].
  simpl. rewrite <- !app_assoc. reflexivity.
Qed.

Lemma clear_cell_slave s i w :
  0 <= s < slaveCount w -> 0 <= i < 4 ->
  exec (clear_cell s i) w =
  set_trace (trace w ++ [EvAssign s i false])
    (set_slaves (aset (slaves w) s
                      (set_relayStates (aset (relayStates (aget no_slave (slaves w) s)) i false)
                                       (aget no_slave (slaves w) s))) w).
Proof.
  intros Hs Hi. unfold clear_cell.
  destruct (s =? -1) eqn:E; [zbool; lia|].
  rewrite exec_gets.
  assert (Hin : (0 <=? s) && (s <? slaveCount w) && (0 <=? i) && (i <? 4) = true).
  { repeat (apply andb_true_iff; split); try apply Z.leb_le; try apply Z.ltb_lt; lia. }
  rewrite Hin. reflexivity.
Qed.

Lemma clear_cell_skip s i w :
  0 <= s -> slaveCount w <= s -> exec (clear_cell s i) w = w.
Proof.
  intros Hs Hc. unfold clear_cell.
  destruct (s =? -1) eqn:E; [zbool; lia|].
  rewrite exec_gets.
  destruct (s <? slaveCount w) eqn:E'; [zbool; lia|].
  rewrite andb_false_r. reflexivity.
Qed.

Lemma clear_slave_run s w :
  wf_world w -> 0 <= s ->
  let w' := exec (for_each [0; 1; 2; 3] (clear_cell s)) w in
  slaves w' =
    (if s <? slaveCount w
     then aset (slaves w) s (set_relayStates all_off (aget no_slave (slaves w) s))
     else slaves w) /\
  masterRelayStates w' = masterRelayStates w /\
  slaveCount w' = slaveCount w /\
  schedules w' = schedules w /\
  scheduleCount w' = scheduleCount w /\
  rotaryPosition w' = rotaryPosition w /\
  sd w' = sd w /\
  ticks w' = ticks w /\
  pin_writes (trace w') = pin_writes (trace w).
Proof.
  intros Hwf Hs. cbv zeta.
  destruct (s <? slaveCount w) eqn:E.
  - assert (Hin : 0 <= s < Z.of_nat (length (slaves w))).
    { zbool. destruct Hwf. unfold MAX_SLAVES in *. lia. }
    zbool.
    rewrite <- (four_cleared (relayStates (aget no_slave (slaves w) s)))
      by (apply wf_relays_at; assumption).
    rewrite !exec_for_each_cons.
    rewrite (clear_cell_slave s 0 w) by lia.
    rewrite (clear_cell_slave s 1) by (simpl; lia).
    rewrite (clear_cell_slave s 2) by (simpl; lia).
    rewrite (clear_cell_slave s 3) by (simpl; lia).
    cbn [for_each exec ret snd slaveCount set_slaves set_trace slaves trace
         masterRelayStates schedules scheduleCount rotaryPosition sd ticks].
    rewrite !aget_aset_eq by (rewrite ?length_aset; exact Hin).
    rewrite !aset_aset. cbn [set_relayStates relayStates macAddress active name].
    splits; try reflexivity.
    rewrite <- !app_assoc. unfold pin_writes. rewrite omap_app. cbn [omap app].
    rewrite app_nil_r. reflexivity.
  - assert (Hw : exec (for_each [0; 1; 2; 3] (clear_cell s)) w = w).
    { zbool. rewrite !exec_for_each_cons.
      rewrite (clear_cell_skip s 0 w), (clear_cell_skip s 1 w),
              (clear_cell_skip s 2 w), (clear_cell_skip s 3 w) by lia.
      reflexivity. }
    rewrite Hw. splits; reflexivity.
Qed.

(** The lines of the first [n] slaves of a snapshot taken in a session
    whose directory was [src]. *)
Lemma load_slave_rooms (src : list SlaveInfo) n :
  forall w,
  wf_world w -> (n <= 10)%nat ->
  let lines :=
    mjoin ((fun s => state_lines ("Slave" +:+ WString.of_int (Z.of_nat s + 1))
                       (relayStates (aget no_slave src (Z.of_nat s)))) <$> seq 0 n) in
  let w' := exec (for_each lines Storage.load_state_line) w in
  wf_world w' /\
  (forall s, aget no_slave (slaves w') s =
             if (0 <=? s) && (s <? Z.of_nat n) && (s <? slaveCount w)
             then set_relayStates all_off (aget no_slave (slaves w) s)
             else aget no_slave (slaves w) s) /\
  masterRelayStates w' = masterRelayStates w /\
  slaveCount w' = slaveCount w /\
  schedules w' = schedules w /\
  scheduleCount w' = scheduleCount w /\
  rotaryPosition w' = rotaryPosition w /\
  sd w' = sd w /\
  ticks w' = ticks w /\
  pin_writes (trace w') = pin_writes (trace w).
Proof.
  induction n as [|n IH]; intros w Hwf Hn; cbv zeta.
  - simpl. splits; try reflexivity; try assumption.
    intros s. case_if; [zbool; lia | reflexivity].
  - assert (Hj : forall x : list string, mjoin [x] = x) by (intros; apply app_nil_r).
    rewrite seq_S, fmap_app, join_app, exec_for_each_app. cbn [fmap list_fmap Nat.add].
    rewrite Hj.
    destruct (IH w Hwf) as (Hwf1 & Hcells & Hm & Hsc & Hsch & Hschc & Hrot & Hsd & Htk & Hpw);
      [lia|].
    set (w1 := exec (for_each _ Storage.load_state_line) w) in *.
    assert (Hname : "Slave" +:+ WString.of_int (Z.of_nat n + 1) = roomName_of (Z.of_nat n)).
    { unfold roomName_of. destruct (Z.of_nat n =? -1) eqn:E; [zbool; lia | reflexivity]. }
    rewrite Hname, load_room_lines by lia.
    destruct (clear_slave_run (Z.of_nat n) w1 Hwf1)
      as (Hsl2 & Hm2 & Hsc2 & Hsch2 & Hschc2 & Hrot2 & Hsd2 & Htk2 & Hpw2); [lia|].
    set (w2 := exec (for_each [0; 1; 2; 3] (clear_cell (Z.of_nat n))) w1) in *.
    assert (Hlen : length (slaves w2) = length (slaves w1)).
    { rewrite Hsl2. case_if; [apply length_aset | reflexivity]. }
    splits; try congruence.
    + destruct Hwf1. constructor; try congruence.
      rewrite Hsl2. case_if; [|assumption].
      apply Forall_aset; [assumption | reflexivity].
    + intros s. rewrite Hsl2, Hsc.
      destruct (Z.of_nat n <? slaveCount w) eqn:E.
      * destruct (Z.eq_dec s (Z.of_nat n)) as [->|Hne].
        -- rewrite aget_aset_eq
             by (zbool; destruct Hwf1; unfold MAX_SLAVES in *; lia).
           rewrite Hcells.
           repeat case_if; try reflexivity; zbool; lia.
        -- rewrite aget_aset_ne by congruence. rewrite Hcells.
           repeat case_if; try reflexivity; zbool; lia.
      * rewrite Hcells. repeat case_if; try reflexivity; zbool; lia.
Qed.

Lemma loadRelayStates_run w :
  exec loadRelayStates w =
  if env_sd_begin env (ticks w) then
    match (if env_sd_open env (S (ticks w)) then sd w !! "/states.txt" else None) with
    | Some lines =>
        exec (Serial_println "Relay states loaded")
             (exec (for_each (tail lines) Storage.load_state_line)
                   (set_ticks (S (S (ticks w))) w))
    | None => set_ticks (S (S (ticks w))) w
    end
  else set_ticks (S (ticks w)) (set_trace (trace w ++ [EvSerial "SD Card failed to mount"]) w).
Proof.
  unfold Storage.loadRelayStates. rewrite exec_bind. cbn [SD_begin ask fst snd].
  destruct (env_sd_begin env (ticks w)); cbn [negb]; [|reflexivity].
  rewrite exec_bind.
  cbv beta iota zeta delta [SD_open_read ask bind gets ret fst snd].
  cbn [ticks set_ticks sd].
  destruct (env_sd_open env (S (ticks w))); [|reflexivity].
  destruct (sd w !! "/states.txt"); [|reflexivity].
  apply (exec_seq (for_each (tail l) Storage.load_state_line)
                  (Serial_println "Relay states loaded")).
Qed.

(** Loading a snapshot that [saveRelayStates] wrote, in this session or
    in an earlier one with the directory of [w0]: every relay the
    snapshot lists is read as "off", whatever state was saved.  The
    four master relays are cleared and their pins driven [HIGH]; the
    relays of each slave that the snapshot lists and the directory
    holds are cleared; addresses, names and everything else stay. *)
Theorem loadRelayStates_reads_every_relay_as_off w0 w :
  wf_world w ->
  slaveCount w0 <= MAX_SLAVES ->
  sd w !! "/states.txt" = Some (states_file w0) ->
  env_sd_begin env (ticks w) = true ->
  env_sd_open env (S (ticks w)) = true ->
  let w' := exec loadRelayStates w in
  masterRelayStates w' = all_off /\
  (forall s, aget no_slave (slaves w') s =
             if (0 <=? s) && (s <? slaveCount w0) && (s <? slaveCount w)
             then set_relayStates all_off (aget no_slave (slaves w) s)
             else aget no_slave (slaves w) s) /\
  pin_writes (trace w') =
    pin_writes (trace w) ++ [(12, false); (13, false); (14, false); (15, false)] /\
  slaveCount w' = slaveCount w /\
  sd w' = sd w.
Proof.
  intros Hwf Hc0 Hfile Hbegin Hopen. cbv zeta.
  rewrite loadRelayStates_run, Hbegin, Hopen, Hfile.
  unfold states_file. cbn [tail]. rewrite exec_for_each_app.
  change "Master"%string with (roomName_of (-1)).
  rewrite load_room_lines by lia.
  set (w1 := set_ticks (S (S (ticks w))) w).
  assert (Hwf1 : wf_world w1) by apply wf_world_ticks, Hwf.
  rewrite clear_master_run by apply Hwf1.
  set (w2 := set_trace _ (set_master all_off w1)).
  assert (Hwf2 : wf_world w2).
  { destruct Hwf1. constructor; try assumption. reflexivity. }
  destruct (load_slave_rooms (slaves w0) (Z.to_nat (slaveCount w0)) w2 Hwf2)
    as (_ & Hcells & Hm & Hsc & _ & _ & _ & Hsd & _ & Hpw).
  { unfold MAX_SLAVES in Hc0. lia. }
  set (w3 := exec (for_each _ Storage.load_state_line) w2) in *.
  cbn [exec Serial_println emit modify snd masterRelayStates slaves set_trace trace
       slaveCount sd].
  splits.
  - exact Hm.
  - intros s. rewrite Hcells. simpl slaveCount. simpl slaves.
    repeat case_if; try reflexivity; zbool; lia.
  - unfold pin_writes in *. rewrite omap_app, Hpw. subst w2. simpl trace.
    rewrite omap_app. simpl. rewrite app_nil_r. reflexivity.
  - exact Hsc.
  - exact Hsd.
Qed.

(** *** The directory, read back *)

(** One line of [/slaves.txt]: nothing happens, or the next free slot
    is written and offered to the radio. *)
Lemma load_slave_line_run line w :
  exec (load_slave_line line) w =
  if Storage.startsWith line "#" || (WString.len line <? 17) then w
  else if 0 <? WString.indexOf line "," then
    match sscanf_mac (WString.substring line 0 (WString.indexOf line ",")) with
    | Some macBytes =>
        let added := env_esp_now_add_peer env (ticks w) in
        let w1 :=
          set_trace (trace w ++ [EvAddPeer (mac_of_ints macBytes) added])
            (set_ticks (S (ticks w))
               (set_slaves
                  (aset (slaves w) (slaveCount w)
                        (mkSlave (mac_of_ints macBytes) false all_off
                                 (Storage.substring_from line (WString.indexOf line "," + 1))))
                  w)) in
        if added then set_slaveCount (slaveCount w + 1) w1 else w1
    | None => w
    end
  else w.
Proof.
  unfold Storage.load_slave_line.
  destruct (Storage.startsWith line "#" || (WString.len line <? 17)); [reflexivity|].
  destruct (0 <? WString.indexOf line ","); [|reflexivity]. cbn [when].
  destruct (sscanf_mac _); [|reflexivity].
  cbv beta iota zeta delta [exec bind gets modify esp_now_add_peer ask emit ret when snd fst].
  cbn [ticks set_slaves set_ticks set_trace slaveCount trace].
  destruct (env_esp_now_add_peer env (ticks w)); reflexivity.
Qed.

Lemma load_slave_line_keeps line w :
  wf_world w -> slaveCount w < MAX_SLAVES ->
  let w' := exec (load_slave_line line) w in
  wf_world w' /\
  slaveCount w <= slaveCount w' <= slaveCount w + 1 /\
  (forall s, s <> slaveCount w -> aget no_slave (slaves w') s = aget no_slave (slaves w) s) /\
  masterRelayStates w' = masterRelayStates w /\
  sd w' = sd w /\
  assigns (trace w') = assigns (trace w) /\
  sends (trace w') = sends (trace w) /\
  (ticks w <= ticks w')%nat.
Proof.
  intros Hwf Hroom. cbv zeta. rewrite load_slave_line_run.
  assert (Hsame : wf_world w /\ slaveCount w <= slaveCount w <= slaveCount w + 1 /\
            (forall s, s <> slaveCount w ->
               aget no_slave (slaves w) s = aget no_slave (slaves w) s) /\
            masterRelayStates w = masterRelayStates w /\ sd w = sd w /\
            assigns (trace w) = assigns (trace w) /\ sends (trace w) = sends (trace w) /\
            (ticks w <= ticks w)%nat).
  { splits; try reflexivity; try assumption; lia. }
  destruct (Storage.startsWith line "#" || (WString.len line <? 17)); [exact Hsame|].
  destruct (0 <? WString.indexOf line ","); [|exact Hsame].
  destruct (sscanf_mac _) as [macBytes|]; [|exact Hsame].
  cbv zeta.
  assert (Hwf' : forall c, 0 <= c <= MAX_SLAVES ->
            wf_world (set_slaveCount c
              (set_trace (trace w ++ [EvAddPeer (mac_of_ints macBytes)
                                        (env_esp_now_add_peer env (ticks w))])
                 (set_ticks (S (ticks w))
                    (set_slaves
                       (aset (slaves w) (slaveCount w)
                          (mkSlave (mac_of_ints macBytes) false all_off
                             (Storage.substring_from line (WString.indexOf line "," + 1))))
                       w))))).
  { intros c Hc. destruct Hwf. constructor; simpl; try assumption.
    - rewrite length_aset. assumption.
    - apply Forall_aset; [assumption | reflexivity]. }
  destruct Hwf as [? ? ? Hcount ? ?].
  destruct (env_esp_now_add_peer env (ticks w)); simpl;
    rewrite ?assigns_app, ?sends_app, ?app_nil_r;
    splits; try reflexivity; try lia.
  - apply (Hwf' (slaveCount w + 1)). lia.
  - intros s Hs. apply aget_aset_ne. congruence.
  - apply (Hwf' (slaveCount w)). lia.
  - intros s Hs. apply aget_aset_ne. congruence.
Qed.

(** The loop over the lines: whatever they hold, the directory never
    grows past [MAX_SLAVES], and the entries below the count at which
    the loop starts are not written. *)
Lemma load_slave_lines_keeps lines :
  forall w,
  wf_world w ->
  let w' := exec (load_slave_lines lines) w in
  wf_world w' /\
  slaveCount w <= slaveCount w' <= slaveCount w + Z.of_nat (length lines) /\
  (forall s, s < slaveCount w -> aget no_slave (slaves w') s = aget no_slave (slaves w) s) /\
  masterRelayStates w' = masterRelayStates w /\
  sd w' = sd w /\
  assigns (trace w') = assigns (trace w) /\
  sends (trace w') = sends (trace w).
Proof.
  induction lines as [|line rest IH]; intros w Hwf; cbv zeta.
  - cbn [Storage.load_slave_lines length]. rewrite exec_ret.
    splits; try reflexivity; try assumption; lia.
  - cbn [Storage.load_slave_lines]. rewrite exec_gets.
    destruct (slaveCount w <? MAX_SLAVES) eqn:E.
    + rewrite exec_seq. zbool.
      destruct (load_slave_line_keeps line w Hwf E)
        as (Hwf1 & Hc1 & Hsl1 & Hm1 & Hsd1 & Ha1 & Hs1 & _).
      set (w1 := exec (load_slave_line line) w) in *.
      destruct (IH w1 Hwf1) as (Hwf2 & Hc2 & Hsl2 & Hm2 & Hsd2 & Ha2 & Hs2).
      splits; try congruence.
      * lia.
      * simpl length. lia.
      * intros s Hs. rewrite Hsl2 by lia. apply Hsl1. lia.
    + rewrite exec_ret. splits; try reflexivity; try assumption; lia.
Qed.

Lemma loadSlaveInfo_run w :
  exec loadSlaveInfo w =
  if env_sd_begin env (ticks w) then
    match (if env_sd_open env (S (ticks w)) then sd w !! "/slaves.txt" else None) with
    | Some lines =>
        let w2 := exec (load_slave_lines (tail lines))
                       (set_ticks (S (S (ticks w))) (set_slaveCount 0 w)) in
        set_trace (trace w2 ++
                   [EvSerial ("Loaded " +:+ WString.of_int (slaveCount w2) +:+ " slaves")]) w2
    | None => set_ticks (S (S (ticks w))) (set_slaveCount 0 w)
    end
  else set_ticks (S (ticks w)) (set_trace (trace w ++ [EvSerial "SD Card failed to mount"]) w).
Proof.
  unfold Storage.loadSlaveInfo. rewrite exec_bind. cbn [SD_begin ask fst snd].
  destruct (env_sd_begin env (ticks w)); cbn [negb]; [|reflexivity].
  rewrite exec_seq, exec_bind.
  cbv beta iota zeta delta [SD_open_read ask bind gets ret fst snd].
  cbn [exec modify snd ticks set_ticks set_slaveCount sd].
  destruct (env_sd_open env (S (ticks w))); [|reflexivity].
  destruct (sd w !! "/slaves.txt") as [lines|]; [|reflexivity].
  change (set_ticks (S (S (ticks w))) (set_slaveCount 0 (set_ticks (S (ticks w)) w)))
    with (set_ticks (S (S (ticks w))) (set_slaveCount 0 w)).
  unfold exec.
  destruct (load_slave_lines (tail lines) (set_ticks (S (S (ticks w))) (set_slaveCount 0 w)))
    as [u w2].
  reflexivity.
Qed.

Lemma loadSlaveInfo_wf w : wf_world w -> wf_world (exec loadSlaveInfo w).
Proof.
  intros Hwf. rewrite loadSlaveInfo_run.
  destruct (env_sd_begin env (ticks w)).
  2:{ destruct Hwf. constructor; assumption. }
  assert (Hwf0 : wf_world (set_ticks (S (S (ticks w))) (set_slaveCount 0 w))).
  { destruct Hwf. constructor; simpl; try assumption. unfold MAX_SLAVES. lia. }
  destruct (if env_sd_open env (S (ticks w)) then sd w !! "/slaves.txt" else None)
    as [lines|]; [|exact Hwf0].
  destruct (load_slave_lines_keeps (tail lines) _ Hwf0) as (Hwf2 & _).
  cbv zeta. destruct Hwf2. constructor; assumption.
Qed.

(** A line that is counted in leaves its slave in the slot that was
    free, inactive and with all relays off. *)
Lemma load_slave_line_loaded line w :
  wf_world w -> slaveCount w < MAX_SLAVES ->
  let w' := exec (load_slave_line line) w in
  slaveCount w' = slaveCount w + 1 ->
  active (aget no_slave (slaves w') (slaveCount w)) = false /\
  relayStates (aget no_slave (slaves w') (slaveCount w)) = all_off.
Proof.
  intros Hwf Hroom. cbv zeta. rewrite load_slave_line_run.
  destruct (Storage.startsWith line "#" || (WString.len line <? 17)); [lia|].
  destruct (0 <? WString.indexOf line ","); [|lia].
  destruct (sscanf_mac _) as [macBytes|]; [|lia].
  cbv zeta.
  assert (Hin : 0 <= slaveCount w < Z.of_nat (length (slaves w))).
  { destruct Hwf. unfold MAX_SLAVES in *. lia. }
  destruct (env_esp_now_add_peer env (ticks w)); simpl; [|lia].
  intros _. rewrite aget_aset_eq by exact Hin. split; reflexivity.
Qed.

(** The loop over the lines: every slave it counts in is inactive with
    all relays off, and the slots behind the first free one keep what
    they held. *)
Lemma load_slave_lines_loaded lines :
  forall w,
  wf_world w ->
  let w' := exec (load_slave_lines lines) w in
  (forall s, slaveCount w <= s < slaveCount w' ->
     active (aget no_slave (slaves w') s) = false /\
     relayStates (aget no_slave (slaves w') s) = all_off) /\
  (forall s, slaveCount w' < s ->
     aget no_slave (slaves w') s = aget no_slave (slaves w) s).
Proof.
  induction lines as [|line rest IH]; intros w Hwf; cbv zeta.
  - cbn [Storage.load_slave_lines]. rewrite exec_ret. split; [lia | reflexivity].
  - cbn [Storage.load_slave_lines]. rewrite exec_gets.
    destruct (slaveCount w <? MAX_SLAVES) eqn:E.
    + rewrite exec_seq. zbool.
      destruct (load_slave_line_keeps line w Hwf E)
        as (Hwf1 & Hc1 & Hsl1 & _).
      pose proof (load_slave_line_loaded line w Hwf E) as Hnew.
      set (w1 := exec (load_slave_line line) w) in *.
      destruct (load_slave_lines_keeps rest w1 Hwf1) as (_ & Hc2 & Hsl2 & _).
      destruct (IH w1 Hwf1) as (Hloaded & Hbehind).
      set (w2 := exec (load_slave_lines rest) w1) in *.
      split.
      * intros s Hs.
        destruct (Z.lt_ge_cases s (slaveCount w1)) as [Hlt|Hge].
        -- assert (s = slaveCount w) by lia. subst s.
           rewrite Hsl2 by exact Hlt. apply Hnew. lia.
        -- apply Hloaded. lia.
      * intros s Hs. rewrite Hbehind by lia. apply Hsl1. lia.
    + rewrite exec_ret. split; [lia | reflexivity].
Qed.

(** Whatever [/slaves.txt] holds, [loadSlaveInfo] leaves the directory
    within its bounds, and it touches neither the master relays nor the
    card.  The relay states that the directory held for the slaves are
    not kept: every slave that is loaded comes back inactive and with
    all four relays off, without an assignment being recorded; the
    slots behind the first free one keep what they held.  A card that
    cannot be mounted leaves the directory as it was; a mounted card
    whose file cannot be opened leaves it empty. *)
Theorem loadSlaveInfo_never_overfills w :
  wf_world w ->
  let w' := exec loadSlaveInfo w in
  let file := if env_sd_open env (S (ticks w)) then sd w !! "/slaves.txt" else None in
  wf_world w' /\
  masterRelayStates w' = masterRelayStates w /\
  sd w' = sd w /\
  assigns (trace w') = assigns (trace w) /\
  sends (trace w') = sends (trace w) /\
  (env_sd_begin env (ticks w) = false ->
     slaves w' = slaves w /\ slaveCount w' = slaveCount w) /\
  (env_sd_begin env (ticks w) = true ->
     match file with
     | Some lines =>
         slaveCount w' <= Z.of_nat (length (tail lines)) /\
         (forall s, 0 <= s < slaveCount w' ->
            active (aget no_slave (slaves w') s) = false /\
            relayStates (aget no_slave (slaves w') s) = all_off) /\
         (forall s, slaveCount w' < s ->
            aget no_slave (slaves w') s = aget no_slave (slaves w) s)
     | None => slaveCount w' = 0 /\ slaves w' = slaves w
     end).
Proof.
  intros Hwf. cbv zeta. rewrite loadSlaveInfo_run.
  destruct (env_sd_begin env (ticks w)).
  2:{ simpl. rewrite assigns_app, sends_app, !app_nil_r.
      splits; try reflexivity; try discriminate.
      - destruct Hwf. constructor; assumption.
      - intros _. split; reflexivity. }
  assert (Hwf0 : wf_world (set_ticks (S (S (ticks w))) (set_slaveCount 0 w))).
  { destruct Hwf. constructor; simpl; try assumption. unfold MAX_SLAVES. lia. }
  destruct (if env_sd_open env (S (ticks w)) then sd w !! "/slaves.txt" else None)
    as [lines|].
  - destruct (load_slave_lines_keeps (tail lines) _ Hwf0)
      as (Hwf2 & Hc2 & _ & Hm2 & Hsd2 & Ha2 & Hs2).
    destruct (load_slave_lines_loaded (tail lines) _ Hwf0) as (Hloaded & Hbehind).
    cbv zeta.
    set (w2 := exec (load_slave_lines (tail lines)) _) in *.
    simpl in Hc2, Hm2, Hsd2, Ha2, Hs2, Hloaded, Hbehind. simpl.
    rewrite assigns_app, sends_app, !app_nil_r.
    splits; try assumption; try discriminate.
    + destruct Hwf2. constructor; assumption.
    + intros _. splits; [lia | exact Hloaded | exact Hbehind].
  - simpl. splits; try reflexivity; try assumption; try discriminate.
    intros _. split; reflexivity.
Qed.

Lemma hex_char_plain d :
  0 <= d < 16 ->
  differs_from "," (WString.hex_char d) = true /\
  differs_from "#" (WString.hex_char d) = true.
Proof.
  intros H.
  assert (d = 0 \/ d = 1 \/ d = 2 \/ d = 3 \/ d = 4 \/ d = 5 \/ d = 6 \/ d = 7 \/
          d = 8 \/ d = 9 \/ d = 10 \/ d = 11 \/ d = 12 \/ d = 13 \/ d = 14 \/ d = 15)
    as Hd by lia.
  repeat destruct Hd as [-> | Hd]; try subst d; split; reflexivity.
Qed.

Lemma getMacString_shape mac :
  exists c rest,
    getMacString mac = String c rest /\
    differs_from "#" c = true /\
    all_chars (differs_from ",") (getMacString mac) = true /\
    String.length (getMacString mac) = 17%nat.
Proof.
  unfold getMacString, WString.hex2.
  rewrite !append_cons, !append_nil.
  eexists _, _. split; [reflexivity|].
  assert (Hh : forall b, 0 <= b / 16 mod 16 < 16) by (intros; apply Z.mod_pos_bound; lia).
  assert (Hl : forall b, 0 <= b mod 16 < 16) by (intros; apply Z.mod_pos_bound; lia).
  split; [apply hex_char_plain, Hh|].
  split; [|reflexivity].
  cbn [all_chars].
  rewrite !(proj1 (hex_char_plain _ (Hh _))), !(proj1 (hex_char_plain _ (Hl _))).
  reflexivity.
Qed.

Lemma substring_all s : String.substring 0 (String.length s) s = s.
Proof. induction s as [|c s IH]; [reflexivity|]. simpl. rewrite IH. reflexivity. Qed.

(** What [loadSlaveInfo] takes from a line that [saveSlaveInfo] wrote:
    the address text up to the comma, and as the name everything
    behind it, the carriage return included. *)
Lemma slave_line_fields sl :
  WString.len (name sl) < 2 ^ 31 ->
  let line := slave_line sl in
  Storage.startsWith line "#" || (WString.len line <? 17) = false /\
  WString.indexOf line "," = 17 /\
  WString.substring line 0 17 = getMacString (macAddress sl) /\
  Storage.substring_from line 18 = name sl +:+ CR.
Proof.
  intros Hname. cbv zeta. unfold slave_line.
  destruct (getMacString_shape (macAddress sl)) as (c & rest & Hm & Hc & Hplain & Hlen).
  set (m := getMacString (macAddress sl)) in *.
  rewrite append_cons, append_nil.
  assert (Hlm : WString.len m = 17) by (unfold WString.len; rewrite Hlen; reflexivity).
  assert (Hll : WString.len (m +:+ String "," (name sl +:+ CR)) = 19 + WString.len (name sl)).
  { rewrite len_append, len_cons, len_append, Hlm. change (WString.len CR) with 1. lia. }
  pose proof (len_nonneg (name sl)) as Hn0.
  splits.
  - apply orb_false_iff. split.
    + unfold Storage.startsWith. rewrite Hm, append_cons.
      apply prefix_head_ne. unfold differs_from in *.
      rewrite Ascii.eqb_sym. exact Hc.
    + apply Z.ltb_ge. lia.
  - unfold WString.indexOf, WString.indexOf_from.
    rewrite Hll. change (WString.to_unsigned 0) with 0.
    destruct (19 + WString.len (name sl) <=? 0) eqn:E; [zbool; lia|].
    change (Z.to_nat 0) with 0%nat. rewrite index_comma by exact Hplain.
    rewrite Hlen. reflexivity.
  - unfold WString.substring. rewrite Hll.
    change (WString.to_unsigned 0) with 0. change (WString.to_unsigned 17) with 17.
    cbn [Z.ltb Z.compare].
    destruct (19 + WString.len (name sl) <=? 0) eqn:E; [zbool; lia|].
    destruct (19 + WString.len (name sl) <? 17) eqn:E'; [zbool; lia|].
    change (Z.to_nat 0) with 0%nat. change (Z.to_nat (17 - 0)) with 17%nat.
    rewrite <- Hlen. apply substring_0_app.
  - unfold Storage.substring_from, WString.substring. rewrite Hll.
    change (WString.to_unsigned 18) with 18.
    rewrite to_unsigned_small by lia.
    destruct (19 + WString.len (name sl) <? 18) eqn:E; [zbool; lia|].
    destruct (19 + WString.len (name sl) <=? 18) eqn:E'; [zbool; lia|].
    destruct (19 + WString.len (name sl) <? 19 + WString.len (name sl)) eqn:E'';
      [zbool; lia|].
    replace (m +:+ String "," (name sl +:+ CR))
      with ((m +:+ ",") +:+ (name sl +:+ CR))
      by (rewrite append_assoc, append_cons, append_nil; reflexivity).
    replace (Z.to_nat 18) with (String.length (m +:+ ",") + 0)%nat
      by (rewrite length_append, Hlen; reflexivity).
    rewrite substring_skip_app.
    replace (Z.to_nat (19 + WString.len (name sl) - 18))
      with (String.length (name sl +:+ CR)).
    + apply substring_all.
    + rewrite length_append. unfold WString.len. simpl String.length. lia.
Qed.

Lemma mac_of_ints_id mac : is_mac mac -> mac_of_ints mac = mac.
Proof.
  intros [Hlen Hb].
  destruct mac as [|a [|b [|c [|d [|e [|f [|g mac]]]]]]]; try discriminate.
  unfold mac_of_ints. cbn [fmap list_fmap].
  repeat match goal with
  | H : Forall _ (_ :: _) |- _ => apply Forall_cons in H; destruct H
  end.
  change (aget 0 [a; b; c; d; e; f] 0) with a.
  change (aget 0 [a; b; c; d; e; f] 1) with b.
  change (aget 0 [a; b; c; d; e; f] 2) with c.
  change (aget 0 [a; b; c; d; e; f] 3) with d.
  change (aget 0 [a; b; c; d; e; f] 4) with e.
  change (aget 0 [a; b; c; d; e; f] 5) with f.
  rewrite !Z.mod_small by assumption. reflexivity.
Qed.

Lemma load_slave_lines_full lines w :
  MAX_SLAVES <= slaveCount w -> exec (load_slave_lines lines) w = w.
Proof.
  intros H. destruct lines as [|line rest]; [reflexivity|].
  cbn [Storage.load_slave_lines]. rewrite exec_gets.
  destruct (slaveCount w <? MAX_SLAVES) eqn:E; [zbool; lia | reflexivity].
Qed.

Lemma load_slave_lines_app l1 :
  forall l2 w,
  exec (load_slave_lines (l1 ++ l2)) w =
  exec (load_slave_lines l2) (exec (load_slave_lines l1) w).
Proof.
  induction l1 as [|line l1 IH]; intros l2 w; [reflexivity|].
  rewrite <- app_comm_cons. cbn [Storage.load_slave_lines]. rewrite !exec_gets.
  destruct (slaveCount w <? MAX_SLAVES) eqn:E.
  - rewrite !exec_seq. apply IH.
  - rewrite exec_ret. zbool. symmetry. apply load_slave_lines_full. lia.
Qed.

(** A line feed in a name ends a line of the file. *)
Example lines_of_ex :
  lines_of ("AA:BB:CC:DD:EE:FF,Hall" +:+ String LF_char "up" +:+ CR) =
  ["AA:BB:CC:DD:EE:FF,Hall"; "up" +:+ CR].
Proof. reflexivity. Qed.

Lemma lines_of_plain text : no_line_feed text = true -> lines_of text = [text].
Proof.
  unfold no_line_feed. induction text as [|c rest IH]; [reflexivity|].
  cbn [all_chars lines_of]. intros H. apply andb_true_iff in H. destruct H as [Hc Hrest].
  unfold differs_from in Hc. apply negb_true_iff in Hc. rewrite Hc, (IH Hrest).
  reflexivity.
Qed.

Lemma hex_char_no_line_feed d :
  0 <= d < 16 -> differs_from LF_char (WString.hex_char d) = true.
Proof.
  intros H.
  assert (d = 0 \/ d = 1 \/ d = 2 \/ d = 3 \/ d = 4 \/ d = 5 \/ d = 6 \/ d = 7 \/
          d = 8 \/ d = 9 \/ d = 10 \/ d = 11 \/ d = 12 \/ d = 13 \/ d = 14 \/ d = 15)
    as Hd by lia.
  repeat destruct Hd as [-> | Hd]; try subst d; reflexivity.
Qed.

Lemma getMacString_no_line_feed mac : no_line_feed (getMacString mac) = true.
Proof.
  unfold no_line_feed, getMacString, WString.hex2.
  rewrite !append_cons, !append_nil.
  assert (Hh : forall b, 0 <= b / 16 mod 16 < 16) by (intros; apply Z.mod_pos_bound; lia).
  assert (Hl : forall b, 0 <= b mod 16 < 16) by (intros; apply Z.mod_pos_bound; lia).
  cbn [all_chars].
  rewrite !(hex_char_no_line_feed _ (Hh _)), !(hex_char_no_line_feed _ (Hl _)).
  reflexivity.
Qed.

(** A slave whose name holds no line feed is one line of the file. *)
Lemma slave_line_one sl :
  no_line_feed (name sl) = true -> lines_of (slave_line sl) = [slave_line sl].
Proof.
  intros H. apply lines_of_plain. unfold no_line_feed, slave_line in *.
  rewrite !all_chars_app, H. fold (no_line_feed (getMacString (macAddress sl))).
  rewrite getMacString_no_line_feed. reflexivity.
Qed.

Lemma slaves_file_plain w :
  (forall k, (k < Z.to_nat (slaveCount w))%nat ->
     no_line_feed (name (aget no_slave (slaves w) (Z.of_nat k))) = true) ->
  slaves_file w =
  ("# MAC,Name" +:+ CR) ::
  ((fun k => slave_line (aget no_slave (slaves w) (Z.of_nat k)))
   <$> seq 0 (Z.to_nat (slaveCount w))).
Proof.
  intros H. unfold slaves_file. f_equal.
  assert (Hin : forall k, In k (seq 0 (Z.to_nat (slaveCount w))) ->
            no_line_feed (name (aget no_slave (slaves w) (Z.of_nat k))) = true).
  { intros k Hk. apply in_seq in Hk. apply H. lia. }
  clear H. induction (seq 0 (Z.to_nat (slaveCount w))) as [|k l IH]; [reflexivity|].
  cbn [fmap list_fmap mjoin list_join].
  fold (slave_line (aget no_slave (slaves w) (Z.of_nat k))).
  rewrite slave_line_one by (apply Hin; left; reflexivity).
  cbn [app]. f_equal. apply IH. intros j Hj. apply Hin. right. exact Hj.
Qed.

Lemma load_saved_line sl w :
  restorable sscanf_mac sl ->
  env_esp_now_add_peer env (ticks w) = true ->
  exec (load_slave_line (slave_line sl)) w =
  set_slaveCount (slaveCount w + 1)
    (set_trace (trace w ++ [EvAddPeer (macAddress sl) true])
       (set_ticks (S (ticks w))
          (set_slaves (aset (slaves w) (slaveCount w) (reloaded sl)) w))).
Proof.
  intros (Hscan & Hmac & _ & Hname) Hadd.
  destruct (slave_line_fields sl Hname) as (Hskip & Hcomma & Hm & Hn).
  rewrite load_slave_line_run, Hskip, Hcomma.
  change (0 <? 17) with true. cbv iota.
  rewrite Hm, Hscan. cbv zeta. rewrite Hadd.
  change (17 + 1) with 18. rewrite Hn, mac_of_ints_id by exact Hmac.
  reflexivity.
Qed.

Lemma load_saved_lines (src : list SlaveInfo) n :
  forall w,
  (n <= 10)%nat -> length (slaves w) = 10%nat -> slaveCount w = 0 ->
  (forall t, env_esp_now_add_peer env t = true) ->
  (forall k, (k < n)%nat -> restorable sscanf_mac (aget no_slave src (Z.of_nat k))) ->
  let lines := (fun k => slave_line (aget no_slave src (Z.of_nat k))) <$> seq 0 n in
  let w' := exec (load_slave_lines lines) w in
  slaveCount w' = Z.of_nat n /\
  length (slaves w') = 10%nat /\
  (forall s, aget no_slave (slaves w') s =
             if (0 <=? s) && (s <? Z.of_nat n) then reloaded (aget no_slave src s)
             else aget no_slave (slaves w) s) /\
  masterRelayStates w' = masterRelayStates w.
Proof.
  induction n as [|n IH]; intros w Hn Hlen Hc Hadd Hok; cbv zeta.
  - cbn [seq fmap list_fmap Storage.load_slave_lines]. rewrite exec_ret.
    splits; try assumption; try reflexivity.
    intros s. case_if; [zbool; lia | reflexivity].
  - rewrite seq_S, fmap_app, load_slave_lines_app. cbn [fmap list_fmap Nat.add].
    destruct (IH w) as (Hc1 & Hlen1 & Hcells & Hm); try assumption; [lia | auto with lia |].
    set (w1 := exec (load_slave_lines _) w) in *.
    cbn [Storage.load_slave_lines]. rewrite exec_gets.
    destruct (slaveCount w1 <? MAX_SLAVES) eqn:E; [|unfold MAX_SLAVES in E; zbool; lia].
    rewrite exec_seq, exec_ret, load_saved_line by auto with lia.
    cbn [slaveCount set_slaveCount slaves set_slaves set_trace set_ticks masterRelayStates].
    splits.
    + lia.
    + rewrite length_aset. exact Hlen1.
    + intros s. rewrite Hc1.
      destruct (Z.eq_dec s (Z.of_nat n)) as [->|Hne].
      * rewrite aget_aset_eq by lia.
        repeat case_if; try reflexivity; zbool; lia.
      * rewrite aget_aset_ne by congruence. rewrite Hcells.
        repeat case_if; try reflexivity; zbool; lia.
    + exact Hm.
Qed.

(** The directory that [saveSlaveInfo] wrote, in this session or in an
    earlier one ([w0]), comes back when no name in it holds a line feed
    and the radio accepts every peer: the same number of slaves with
    the same addresses, in the same order, marked inactive and with all
    relays off.  Each name comes back with a carriage return at its
    end.  The slots behind them and the master relays are as before.
    (A name with a line feed is written as two lines and is not read
    back as one slave.) *)
Theorem loadSlaveInfo_restores_addresses w0 w :
  wf_world w -> wf_world w0 ->
  sd w !! "/slaves.txt" = Some (slaves_file w0) ->
  Forall (restorable sscanf_mac) (take (Z.to_nat (slaveCount w0)) (slaves w0)) ->
  env_sd_begin env (ticks w) = true ->
  env_sd_open env (S (ticks w)) = true ->
  (forall t, env_esp_now_add_peer env t = true) ->
  let w' := exec loadSlaveInfo w in
  slaveCount w' = slaveCount w0 /\
  (forall s, 0 <= s < slaveCount w0 ->
     aget no_slave (slaves w') s = reloaded (aget no_slave (slaves w0) s)) /\
  (forall s, slaveCount w0 <= s ->
     aget no_slave (slaves w') s = aget no_slave (slaves w) s) /\
  masterRelayStates w' = masterRelayStates w.
Proof.
  intros Hwf Hwf0 Hfile Hok Hbegin Hopen Hadd. cbv zeta.
  rewrite loadSlaveInfo_run, Hbegin, Hopen, Hfile. cbv zeta.
  rewrite slaves_file_plain.
  2:{ intros k Hk. rewrite Forall_lookup in Hok.
      rewrite aget_of_nat.
      destruct (lookup_lt_is_Some_2 (slaves w0) k) as [sl Hsl];
        [destruct Hwf0; unfold MAX_SLAVES in *; lia|].
      rewrite Hsl. cbn [default from_option id].
      assert (R : restorable sscanf_mac sl).
      { apply (Hok k). rewrite lookup_take_lt by exact Hk. exact Hsl. }
      destruct R as (_ & _ & R & _). exact R. }
  cbn [tail].
  destruct Hwf0 as [_ Hlen0 _ Hc0 _ _]. unfold MAX_SLAVES in Hc0.
  destruct (load_saved_lines (slaves w0) (Z.to_nat (slaveCount w0))
              (set_ticks (S (S (ticks w))) (set_slaveCount 0 w)))
    as (Hc & _ & Hcells & Hm); try reflexivity; try exact Hadd; [lia | apply Hwf | |].
  { intros k Hk. rewrite Forall_lookup in Hok.
    rewrite aget_of_nat.
    destruct (lookup_lt_is_Some_2 (slaves w0) k) as [sl Hsl]; [lia|].
    rewrite Hsl. apply (Hok k). rewrite lookup_take_lt by exact Hk. exact Hsl. }
  set (w2 := exec (load_slave_lines _) _) in *.
  cbn [slaveCount slaves masterRelayStates set_trace].
  splits.
  - rewrite Hc. lia.
  - intros s Hs. rewrite Hcells.
    destruct ((0 <=? s) && (s <? Z.of_nat (Z.to_nat (slaveCount w0)))) eqn:E;
      [reflexivity | zbool; lia].
  - intros s Hs. rewrite Hcells.
    destruct ((0 <=? s) && (s <? Z.of_nat (Z.to_nat (slaveCount w0)))) eqn:E;
      [zbool; lia | reflexivity].
  - exact Hm.
Qed.

End StorageProperties.


(** ** What every entry point keeps *)

Lemma steady_refl w : steady w w.
Proof. split; [tauto | exists []; rewrite app_nil_r; reflexivity]. Qed.

Lemma steady_trans w1 w2 w3 : steady w1 w2 -> steady w2 w3 -> steady w1 w3.
Proof.
  intros [Hwf1 (e1 & H1)] [Hwf2 (e2 & H2)]. split; [tauto|].
  exists (e1 ++ e2). rewrite H2, H1, app_assoc. reflexivity.
Qed.

Lemma quiet_wf w w' : quiet w w' -> wf_world w -> wf_world w'.
Proof. intros [] []. constructor; congruence. Qed.

Lemma steady_quiet w w' :
  quiet w w' -> sd w' !! "/relays.txt" = sd w !! "/relays.txt" -> steady w w'.
Proof.
  intros Q Hsd. split; [apply quiet_wf, Q|].
  exists []. unfold log_of. rewrite Hsd, app_nil_r. reflexivity.
Qed.

Lemma steady_emit e w : steady w (exec (emit e) w).
Proof.
  split; [intros []; constructor; assumption|].
  exists []. rewrite app_nil_r. reflexivity.
Qed.

Lemma steady_ticks t w : steady w (set_ticks t w).
Proof.
  split; [apply wf_world_ticks|]. exists []. rewrite app_nil_r. reflexivity.
Qed.

Lemma steady_for_loop (body : Z -> M unit) n :
  (forall i w, steady w (exec (body i) w)) ->
  forall lo w, steady w (exec (for_loop lo n body) w).
Proof.
  intros Hbody. induction n as [|n IH]; intros lo w.
  - apply steady_refl.
  - rewrite exec_for_loop_S. eapply steady_trans; [apply Hbody | apply IH].
Qed.

Lemma steady_for_each {A} (body : A -> M unit) (l : list A) :
  (forall x w, steady w (exec (body x) w)) ->
  forall w, steady w (exec (for_each l body) w).
Proof.
  intros Hbody. induction l as [|x l IH]; intros w.
  - apply steady_refl.
  - rewrite exec_for_each_cons. eapply steady_trans; [apply Hbody | apply IH].
Qed.

Lemma steady_when b (m : M unit) w :
  steady w (exec m w) -> steady w (exec (when b m) w).
Proof. intros H. destruct b; [exact H | apply steady_refl]. Qed.

Lemma steady_assign_master i v w : steady w (exec (assign_master i v) w).
Proof.
  split.
  - intros []. constructor; simpl; try assumption. rewrite length_aset. assumption.
  - exists []. rewrite app_nil_r. reflexivity.
Qed.

Lemma steady_assign_slave s i v w : steady w (exec (assign_slave s i v) w).
Proof.
  split.
  - intros []. constructor; simpl; try assumption.
    + rewrite length_aset. assumption.
    + apply Forall_aset; [assumption|]. simpl. rewrite length_aset.
      apply (Forall_aget (fun s => length (relayStates s) = 4%nat)); [assumption|].
      reflexivity.
  - exists []. rewrite app_nil_r. reflexivity.
Qed.

Section MachineProperties.

Variable unixtime : DateTime -> Z.
Variable sscanf_mac : string -> option (list Z).
Variable env : Env.

Local Abbreviation logRelayChange := (Hub.logRelayChange unixtime env).
Local Abbreviation saveRelayStates := (Hub.saveRelayStates env).
Local Abbreviation saveSlaveInfo := (Hub.saveSlaveInfo env).
Local Abbreviation sendCommandToSlave := (Hub.sendCommandToSlave unixtime env).
Local Abbreviation relay_command := (Hub.relay_command unixtime env).
Local Abbreviation run_schedule := (Hub.run_schedule unixtime env).
Local Abbreviation processSchedules := (Hub.processSchedules unixtime env).
Local Abbreviation handleRelayToggle := (Hub.handleRelayToggle unixtime env).
Local Abbreviation handleAddSlave := (Hub.handleAddSlave sscanf_mac env).
Local Abbreviation handleSchedule := (Hub.handleSchedule env).
Local Abbreviation reconcile_channel := (Hub.reconcile_channel unixtime env).
Local Abbreviation onDataReceived := (Hub.onDataReceived unixtime env).
Local Abbreviation press_button := (Panel.press_button unixtime env).
Local Abbreviation handleTM1638Buttons := (Panel.handleTM1638Buttons unixtime env).
Local Abbreviation rotary_isr := (Panel.rotary_isr env).
Local Abbreviation run_call := (Machine.run_call unixtime sscanf_mac env).
Local Abbreviation run_calls := (Machine.run_calls unixtime sscanf_mac env).

Lemma steady_logRelayChange room relay state w :
  steady w (exec (logRelayChange room relay state) w).
Proof.
  split; [apply quiet_wf, logRelayChange_quiet|].
  destruct (logRelayChange_log unixtime env room relay state w) as ([H | [line H]] & _).
  - exists []. rewrite app_nil_r. exact H.
  - exists [line]. exact H.
Qed.

Lemma steady_saveRelayStates w : steady w (exec saveRelayStates w).
Proof.
  split; [apply quiet_wf, saveRelayStates_quiet|].
  destruct (saveRelayStates_log env w) as (H & _).
  exists []. rewrite app_nil_r. exact H.
Qed.

Lemma steady_saveSlaveInfo w : steady w (exec saveSlaveInfo w).
Proof.
  destruct (saveSlaveInfo_frame env w) as (Q & Hsd & _).
  apply steady_quiet; [exact Q | apply Hsd; discriminate].
Qed.

Lemma steady_updateTM1638LEDs w : steady w (exec updateTM1638LEDs w).
Proof. apply steady_quiet; [apply updateTM1638LEDs_quiet | reflexivity]. Qed.

Lemma steady_sendCommandToSlave slaveIndex relay state w :
  steady w (exec (sendCommandToSlave slaveIndex relay state) w).
Proof.
  unfold Hub.sendCommandToSlave. rewrite exec_gets.
  destruct ((slaveIndex <? 0) || (slaveCount w <=? slaveIndex)); [apply steady_refl|].
  rewrite exec_gets, exec_bind, esp_now_send_run. cbn [fst snd].
  set (w1 := set_trace _ (set_ticks _ w)).
  assert (S1 : steady w w1).
  { eapply steady_trans; [apply (steady_ticks (S (ticks w)))|].
    apply (steady_emit _ (set_ticks (S (ticks w)) w)). }
  eapply steady_trans; [exact S1|].
  destruct (env_esp_now_send env (ticks w)).
  - rewrite !exec_seq.
    eapply steady_trans; [apply steady_emit|].
    eapply steady_trans; [apply steady_assign_slave|].
    eapply steady_trans; [apply steady_logRelayChange | apply steady_saveRelayStates].
  - apply steady_emit.
Qed.

Lemma steady_relay_command room relay state w :
  steady w (exec (relay_command room relay state) w).
Proof.
  unfold Hub.relay_command. destruct (room =? -1).
  - apply steady_when. rewrite !exec_seq.
    eapply steady_trans; [apply steady_assign_master|].
    eapply steady_trans; [apply steady_emit|].
    eapply steady_trans; [apply steady_logRelayChange | apply steady_saveRelayStates].
  - rewrite exec_gets. apply steady_when, steady_sendCommandToSlave.
Qed.

Lemma steady_handleRelayToggle request w : steady w (exec (handleRelayToggle request) w).
Proof.
  unfold Hub.handleRelayToggle. rewrite exec_seq.
  eapply steady_trans; [apply steady_when, steady_relay_command | apply steady_emit].
Qed.

Lemma steady_register cand w :
  length (relayStates cand) = 4%nat ->
  slaveCount w < MAX_SLAVES ->
  steady w
    (exec (modify (fun w0 => set_slaves (aset (slaves w0) (slaveCount w) cand) w0) ;;
           added <- Hub.esp_now_add_peer env (macAddress cand) ;;
           when added (modify (set_slaveCount (slaveCount w + 1)) ;; saveSlaveInfo)) w).
Proof.
  intros Hcand Hroom.
  destruct (register_candidate env cand w)
    as (Hsl & Hsc & Hm & Hsch & Hschc & _ & _ & _ & _ & Hsd & _).
  split.
  - intros []. constructor; try congruence.
    + rewrite Hsl, length_aset. assumption.
    + rewrite Hsl. apply Forall_aset; assumption.
    + rewrite Hsc. destruct (env_esp_now_add_peer env (ticks w)); lia.
  - exists []. unfold log_of. rewrite Hsd by discriminate. rewrite app_nil_r. reflexivity.
Qed.

Lemma steady_handleAddSlave request w : steady w (exec (handleAddSlave request) w).
Proof.
  unfold Hub.handleAddSlave. rewrite exec_gets, exec_seq.
  eapply steady_trans; [|apply steady_emit].
  destruct (hasParam (post_params request) "mac" && hasParam (post_params request) "name" &&
            (slaveCount w <? MAX_SLAVES)) eqn:E; [|apply steady_refl].
  cbn [when]. destruct (sscanf_mac _) as [macBytes|]; [|apply steady_refl].
  zbool. apply (steady_register (mkSlave _ _ _ _)); [reflexivity | assumption].
Qed.

Lemma steady_handleSchedule request w : steady w (exec (handleSchedule request) w).
Proof.
  unfold Hub.handleSchedule. rewrite exec_gets, exec_seq.
  eapply steady_trans; [|apply steady_emit].
  destruct (hasParam (post_params request) "room" && hasParam (post_params request) "relay" &&
            hasParam (post_params request) "state" &&
            hasParam (post_params request) "minutes" &&
            (scheduleCount w <? MAX_SCHEDULES)) eqn:E; [|apply steady_refl].
  cbn [when]. apply steady_when. zbool.
  split.
  - intros []. constructor; simpl; try assumption.
    + rewrite length_aset. assumption.
    + lia.
  - exists []. rewrite app_nil_r. reflexivity.
Qed.

Lemma steady_reconcile_channel slaveIndex data i w :
  steady w (exec (reconcile_channel slaveIndex data i) w).
Proof.
  unfold Hub.reconcile_channel. rewrite exec_gets. apply steady_when.
  rewrite !exec_seq, exec_gets.
  eapply steady_trans; [apply steady_assign_slave|].
  eapply steady_trans; [apply steady_logRelayChange|].
  eapply steady_trans; [apply steady_saveRelayStates|].
  apply steady_when, steady_updateTM1638LEDs.
Qed.

Lemma steady_onDataReceived mac data w : steady w (exec (onDataReceived mac data) w).
Proof.
  unfold Hub.onDataReceived. rewrite !exec_gets.
  destruct (negb (find_slave mac (slaves w) 0 (Z.to_nat (slaveCount w)) =? -1)).
  - rewrite exec_seq.
    eapply steady_trans;
      [|apply steady_when, steady_for_loop; intros; apply steady_reconcile_channel].
    split.
    + intros []. constructor; simpl; try assumption.
      * rewrite length_aset. assumption.
      * apply Forall_aset; [assumption|]. simpl.
        apply (Forall_aget (fun s => length (relayStates s) = 4%nat)); [assumption|].
        reflexivity.
    + exists []. rewrite app_nil_r. reflexivity.
  - destruct (slaveCount w <? MAX_SLAVES) eqn:E; [|apply steady_refl].
    cbn [when]. zbool.
    apply (steady_register (mkSlave _ _ _ _)); [reflexivity | assumption].
Qed.

Lemma steady_run_schedule now i w : steady w (exec (run_schedule now i) w).
Proof.
  unfold Hub.run_schedule. rewrite exec_gets.
  set (item := aget no_schedule (schedules w) i).
  destruct (negb (executed item) && (targetTime item <=? now)); [|apply steady_refl].
  rewrite !exec_seq.
  match goal with
  | |- steady w (exec _ (exec _ ?x)) => set (w1 := x)
  end.
  assert (S1 : steady w w1).
  { subst w1. destruct (roomIndex item =? -1).
    - apply steady_when. rewrite exec_seq, exec_gets, !exec_seq.
      eapply steady_trans; [apply steady_assign_master|].
      eapply steady_trans; [apply steady_emit|].
      eapply steady_trans; [apply steady_logRelayChange | apply steady_saveRelayStates].
    - rewrite exec_gets. apply steady_when, steady_sendCommandToSlave. }
  eapply steady_trans; [exact S1|].
  match goal with
  | |- steady w1 (exec _ ?x) => set (w2 := x)
  end.
  assert (S2 : steady w1 w2).
  { subst w2. split.
    - intros []. constructor; simpl; try assumption.
      rewrite length_aset. assumption.
    - exists []. rewrite app_nil_r. reflexivity. }
  eapply steady_trans; [exact S2|].
  rewrite exec_gets. apply steady_when, steady_updateTM1638LEDs.
Qed.

Lemma cleanup_loop_sd now n :
  forall lo newCount w,
  sd (snd (cleanup_loop now lo n newCount w)) = sd w.
Proof.
  induction n as [|n IH]; intros lo newCount w; [reflexivity|].
  cbn [cleanup_loop]. unfold bind at 1. cbn [gets].
  destruct (keep_schedule now (aget no_schedule (schedules w) lo)).
  - unfold bind at 1.
    destruct (negb (lo =? newCount)); cbn [when modify ret]; rewrite IH; reflexivity.
  - apply IH.
Qed.

Lemma cleanup_log now count w : log_of (exec (cleanup now count) w) = log_of w.
Proof.
  unfold log_of, cleanup, exec, bind.
  pose proof (cleanup_loop_sd now (Z.to_nat count) 0 0 w) as H.
  destruct (cleanup_loop now 0 (Z.to_nat count) 0 w) as [c w1].
  simpl in *. rewrite H. reflexivity.
Qed.

Lemma cleanup_wf now w : wf_world w -> wf_world (exec (cleanup now (scheduleCount w)) w).
Proof.
  intros Hwf. destruct (cleanup_run now w) as (l' & Hrun & Hlen & Hkept).
  { destruct Hwf. unfold MAX_SCHEDULES in *. lia. }
  { destruct Hwf. lia. }
  rewrite Hrun. destruct Hwf. constructor; simpl; try assumption; [congruence|].
  split; [lia|].
  pose proof (filter_length_le (keep_schedule now)
                (take (Z.to_nat (scheduleCount w)) (schedules w))) as Hle.
  rewrite length_take in Hle. lia.
Qed.

Lemma steady_processSchedules w : steady w (exec processSchedules w).
Proof.
  rewrite processSchedules_run. cbv zeta.
  set (now := env_millis env (ticks w) mod 2 ^ 32).
  set (w0 := set_ticks (S (ticks w)) w).
  set (w1 := exec (for_loop 0 (Z.to_nat (scheduleCount w)) (run_schedule now)) w0).
  assert (S1 : steady w w1).
  { eapply steady_trans; [apply (steady_ticks (S (ticks w)))|].
    apply steady_for_loop. intros. apply steady_run_schedule. }
  split.
  - intros Hwf.
    destruct (first_loop unixtime env now (Z.to_nat (scheduleCount w)) 0 w0)
      as (_ & Hwf1 & Hschc & _).
    { apply wf_world_ticks, Hwf. }
    { lia. }
    { destruct Hwf. simpl. unfold MAX_SCHEDULES in *. lia. }
    fold w1 in Hwf1, Hschc. change (scheduleCount w0) with (scheduleCount w) in Hschc.
    rewrite <- Hschc. apply cleanup_wf, Hwf1.
  - destruct S1 as [_ (extra & He)]. exists extra. rewrite cleanup_log. exact He.
Qed.

Lemma steady_press_button i w : steady w (exec (press_button i) w).
Proof.
  unfold Panel.press_button. rewrite !exec_gets, exec_seq.
  eapply steady_trans; [|apply steady_updateTM1638LEDs].
  destruct (rotaryPosition w =? 0).
  - rewrite exec_gets, exec_seq, exec_gets, !exec_seq.
    eapply steady_trans; [apply steady_assign_master|].
    eapply steady_trans; [apply steady_emit|].
    eapply steady_trans; [apply steady_logRelayChange | apply steady_saveRelayStates].
  - destruct (rotaryPosition w <=? slaveCount w); [|apply steady_refl].
    rewrite exec_gets. apply steady_sendCommandToSlave.
Qed.

Lemma steady_handleTM1638Buttons buttons f w :
  steady w (exec (handleTM1638Buttons buttons f) w).
Proof.
  destruct (0 <? buttons) eqn:E.
  - rewrite handleTM1638Buttons_run by (zbool; assumption).
    eapply steady_trans; [apply (steady_ticks (S (ticks w)))|].
    apply steady_for_loop. intros. apply steady_when, steady_press_button.
  - unfold Panel.handleTM1638Buttons. rewrite E. apply steady_refl.
Qed.

Lemma steady_rotary_isr dt_low f w : steady w (exec (rotary_isr dt_low f) w).
Proof.
  cbv beta iota zeta delta [Panel.rotary_isr exec bind millis ask modify ret fst snd].
  cbn [ticks set_ticks].
  destruct (5 <? _); cbn [snd]; (split; [intros []; constructor; assumption|]);
    exists []; rewrite app_nil_r; reflexivity.
Qed.

Lemma steady_create_file path header w :
  steady w (exec (Storage.create_file env path header) w).
Proof.
  destruct (create_file_frame env path header w) as (Q & _ & O & K & _).
  split; [apply quiet_wf, Q|].
  unfold log_of.
  destruct (sd w !! "/relays.txt") as [content|] eqn:E.
  - exists []. rewrite app_nil_r. f_equal.
    destruct (decide ("/relays.txt" = path)) as [<-|Hne].
    + rewrite (K _ E). exact E.
    + rewrite O by exact Hne. exact E.
  - eexists. reflexivity.
Qed.

Lemma steady_setupSD w : steady w (exec (Storage.setupSD env) w).
Proof.
  rewrite setupSD_run. destruct (env_sd_begin env (ticks w)).
  - eapply steady_trans; [|apply steady_create_file].
    eapply steady_trans; [|apply steady_create_file].
    eapply steady_trans; [|apply steady_create_file].
    eapply steady_trans; [apply (steady_ticks (S (ticks w)))|].
    apply (steady_emit _ (set_ticks (S (ticks w)) w)).
  - eapply steady_trans; [apply steady_emit|].
    apply (steady_ticks (S (ticks w))).
Qed.

Lemma steady_setupRelays w : steady w (exec Storage.setupRelays w).
Proof.
  unfold Storage.setupRelays. apply steady_for_loop. intros. apply steady_emit.
Qed.

Lemma steady_load_state_line line w : steady w (exec (Storage.load_state_line line) w).
Proof.
  unfold Storage.load_state_line.
  destruct (Storage.parse_state_line line) as [[[roomName relayIndex] state]|];
    [|apply steady_refl].
  unfold Storage.apply_state. case_if.
  - rewrite exec_seq. eapply steady_trans; [apply steady_assign_master | apply steady_emit].
  - case_if; [|apply steady_refl].
    rewrite exec_gets. apply steady_when, steady_assign_slave.
Qed.

Lemma steady_loadRelayStates w : steady w (exec (Storage.loadRelayStates env) w).
Proof.
  rewrite loadRelayStates_run. destruct (env_sd_begin env (ticks w)).
  - destruct (if env_sd_open env (S (ticks w)) then sd w !! "/states.txt" else None)
      as [lines|]; [|apply steady_ticks].
    eapply steady_trans; [apply (steady_ticks (S (S (ticks w))))|].
    eapply steady_trans; [|apply steady_emit].
    apply steady_for_each. intros. apply steady_load_state_line.
  - eapply steady_trans; [apply steady_emit|].
    apply (steady_ticks (S (ticks w))).
Qed.

Lemma load_slave_lines_sd lines :
  forall w, sd (exec (Storage.load_slave_lines sscanf_mac env lines) w) = sd w.
Proof.
  induction lines as [|line rest IH]; intros w; [reflexivity|].
  cbn [Storage.load_slave_lines]. rewrite exec_gets.
  destruct (slaveCount w <? MAX_SLAVES); [|reflexivity].
  rewrite exec_seq, IH, load_slave_line_run.
  repeat case_if; try reflexivity.
  destruct (sscanf_mac _); [|reflexivity].
  cbv zeta. case_if; reflexivity.
Qed.

Lemma steady_loadSlaveInfo w : steady w (exec (Storage.loadSlaveInfo sscanf_mac env) w).
Proof.
  split.
  - intros Hwf. apply (loadSlaveInfo_wf sscanf_mac env w Hwf).
  - exists []. rewrite app_nil_r. unfold log_of. f_equal.
    rewrite loadSlaveInfo_run.
    destruct (env_sd_begin env (ticks w)); [|reflexivity].
    destruct (if env_sd_open env (S (ticks w)) then sd w !! "/slaves.txt" else None);
      [|reflexivity].
    cbv zeta. simpl sd. rewrite load_slave_lines_sd. reflexivity.
Qed.

Lemma steady_run_call c f w : steady w (exec (run_call c f) w).
Proof.
  destruct c; cbn [Machine.run_call]; rewrite ?exec_seq, ?exec_ret.
  - apply steady_handleRelayToggle.
  - apply steady_handleAddSlave.
  - apply steady_handleSchedule.
  - apply steady_onDataReceived.
  - apply steady_emit.
  - apply steady_processSchedules.
  - apply steady_handleTM1638Buttons.
  - apply steady_rotary_isr.
  - apply steady_setupSD.
  - apply steady_setupRelays.
  - apply steady_loadSlaveInfo.
  - apply steady_loadRelayStates.
Qed.

Lemma steady_run_calls cs : forall f w, steady w (exec (run_calls cs f) w).
Proof.
  induction cs as [|c cs IH]; intros f w; [apply steady_refl|].
  cbn [Machine.run_calls]. rewrite exec_bind.
  eapply steady_trans; [apply (steady_run_call c f w) | apply IH].
Qed.

(** Whatever the card, the radio and the clock answer and whatever the
    requests and reports hold, every entry point of the sketch keeps
    the counters within the arrays: from a world with at most
    [MAX_SLAVES] slaves and [MAX_SCHEDULES] schedules the sketch never
    reaches one with more. *)
Theorem every_call_keeps_the_bounds cs f w :
  wf_world w ->
  let w' := exec (run_calls cs f) w in
  wf_world w' /\
  0 <= slaveCount w' <= MAX_SLAVES /\
  0 <= scheduleCount w' <= MAX_SCHEDULES.
Proof.
  intros Hwf. cbv zeta.
  pose proof (st_wf _ _ (steady_run_calls cs f w) Hwf) as Hwf'.
  split; [exact Hwf'|]. destruct Hwf'. split; assumption.
Qed.

(** No entry point rewrites, shortens or removes the relay log: through
    any sequence of calls the log keeps the lines it had, in place, and
    new lines come behind them. *)
Theorem relay_log_is_append_only cs f w :
  exists extra, log_of (exec (run_calls cs f) w) = log_of w ++ extra.
Proof. apply (st_log _ _ (steady_run_calls cs f w)). Qed.

End MachineProperties.

(** ** The directory and the peers of the radio *)

Lemma peers_held_app a b : peers_held (a ++ b) = peers_held a ++ peers_held b.
Proof. apply omap_app. Qed.

Lemma same_peers_refl w : same_peers w w.
Proof. constructor; reflexivity. Qed.

Lemma same_peers_trans w1 w2 w3 : same_peers w1 w2 -> same_peers w2 w3 -> same_peers w1 w3.
Proof.
  intros [C1 M1 P1] [C2 M2 P2]. constructor; [congruence | | congruence].
  intros i. rewrite M2. apply M1.
Qed.

Lemma same_peers_held w w' : same_peers w w' -> directory_held w -> directory_held w'.
Proof.
  intros [C M P] H i Hi. rewrite M, P. apply H. lia.
Qed.

Lemma same_peers_emit e w : peers_held [e] = [] -> same_peers w (exec (emit e) w).
Proof.
  intros He. constructor; try reflexivity.
  simpl. rewrite peers_held_app, He. apply app_nil_r.
Qed.

Lemma same_peers_Serial_println msg w : same_peers w (exec (Serial_println msg) w).
Proof. apply same_peers_emit. reflexivity. Qed.

Lemma same_peers_digitalWrite pin low w : same_peers w (exec (digitalWrite pin low) w).
Proof. apply same_peers_emit. reflexivity. Qed.

Lemma same_peers_ticks t w : same_peers w (set_ticks t w).
Proof. constructor; reflexivity. Qed.

Lemma same_peers_quiet w w' :
  quiet w w' -> peers_held (trace w') = peers_held (trace w) -> same_peers w w'.
Proof.
  intros [] P. constructor; [assumption | | exact P].
  intros i. congruence.
Qed.

Lemma same_peers_for_loop (body : Z -> M unit) n :
  (forall i w, same_peers w (exec (body i) w)) ->
  forall lo w, same_peers w (exec (for_loop lo n body) w).
Proof.
  intros Hbody. induction n as [|n IH]; intros lo w.
  - apply same_peers_refl.
  - rewrite exec_for_loop_S. eapply same_peers_trans; [apply Hbody | apply IH].
Qed.

Lemma same_peers_for_each {A} (body : A -> M unit) (l : list A) :
  (forall x w, same_peers w (exec (body x) w)) ->
  forall w, same_peers w (exec (for_each l body) w).
Proof.
  intros Hbody. induction l as [|x l IH]; intros w.
  - apply same_peers_refl.
  - rewrite exec_for_each_cons. eapply same_peers_trans; [apply Hbody | apply IH].
Qed.

Lemma same_peers_when b (m : M unit) w :
  same_peers w (exec m w) -> same_peers w (exec (when b m) w).
Proof. intros H. destruct b; [exact H | apply same_peers_refl]. Qed.

Lemma same_peers_assign_master i v w : same_peers w (exec (assign_master i v) w).
Proof.
  constructor; try reflexivity.
  simpl. rewrite peers_held_app. apply app_nil_r.
Qed.

Lemma same_peers_assign_slave s i v w : same_peers w (exec (assign_slave s i v) w).
Proof.
  constructor; try reflexivity.
  - intros k. simpl.
    destruct (aget_aset_cases no_slave (slaves w) s
                (set_relayStates (aset (relayStates (aget no_slave (slaves w) s)) i v)
                                 (aget no_slave (slaves w) s)) k) as [[-> ->]| ->];
      reflexivity.
  - simpl. rewrite peers_held_app. apply app_nil_r.
Qed.

Section HeldProperties.

Variable unixtime : DateTime -> Z.
Variable sscanf_mac : string -> option (list Z).
Variable env : Env.

Local Abbreviation logRelayChange := (Hub.logRelayChange unixtime env).
Local Abbreviation saveRelayStates := (Hub.saveRelayStates env).
Local Abbreviation saveSlaveInfo := (Hub.saveSlaveInfo env).
Local Abbreviation sendCommandToSlave := (Hub.sendCommandToSlave unixtime env).
Local Abbreviation relay_command := (Hub.relay_command unixtime env).
Local Abbreviation run_schedule := (Hub.run_schedule unixtime env).
Local Abbreviation processSchedules := (Hub.processSchedules unixtime env).
Local Abbreviation handleRelayToggle := (Hub.handleRelayToggle unixtime env).
Local Abbreviation handleAddSlave := (Hub.handleAddSlave sscanf_mac env).
Local Abbreviation handleSchedule := (Hub.handleSchedule env).
Local Abbreviation reconcile_channel := (Hub.reconcile_channel unixtime env).
Local Abbreviation onDataReceived := (Hub.onDataReceived unixtime env).
Local Abbreviation press_button := (Panel.press_button unixtime env).
Local Abbreviation handleTM1638Buttons := (Panel.handleTM1638Buttons unixtime env).
Local Abbreviation rotary_isr := (Panel.rotary_isr env).
Local Abbreviation run_call := (Machine.run_call unixtime sscanf_mac env).
Local Abbreviation run_calls := (Machine.run_calls unixtime sscanf_mac env).

Lemma same_peers_logRelayChange room relay state w :
  same_peers w (exec (logRelayChange room relay state) w).
Proof.
  apply same_peers_quiet; [apply logRelayChange_quiet|].
  rewrite logRelayChange_run.
  destruct (env_sd_begin env (ticks w)); cbv zeta;
    [destruct (env_sd_open env (S (S (S (ticks w)))))|]; simpl;
    rewrite ?peers_held_app, ?app_nil_r; reflexivity.
Qed.

Lemma same_peers_saveRelayStates w : same_peers w (exec saveRelayStates w).
Proof.
  apply same_peers_quiet; [apply saveRelayStates_quiet|].
  rewrite saveRelayStates_run.
  destruct (env_sd_begin env (ticks w));
    [destruct (env_sd_open env (S (ticks w)))|]; simpl;
    rewrite ?peers_held_app, ?app_nil_r; reflexivity.
Qed.

Lemma same_peers_saveSlaveInfo w : same_peers w (exec saveSlaveInfo w).
Proof.
  destruct (saveSlaveInfo_frame env w) as (Q & _).
  apply same_peers_quiet; [exact Q|].
  rewrite saveSlaveInfo_run.
  destruct (env_sd_begin env (ticks w));
    [destruct (env_sd_open env (S (ticks w)))|]; simpl;
    rewrite ?peers_held_app, ?app_nil_r; reflexivity.
Qed.

Lemma same_peers_updateTM1638LEDs w : same_peers w (exec updateTM1638LEDs w).
Proof.
  apply same_peers_quiet; [apply updateTM1638LEDs_quiet|].
  simpl. rewrite peers_held_app. apply app_nil_r.
Qed.

Lemma same_peers_sendCommandToSlave slaveIndex relay state w :
  same_peers w (exec (sendCommandToSlave slaveIndex relay state) w).
Proof.
  unfold Hub.sendCommandToSlave. rewrite exec_gets.
  destruct ((slaveIndex <? 0) || (slaveCount w <=? slaveIndex)); [apply same_peers_refl|].
  rewrite exec_gets, exec_bind, esp_now_send_run. cbn [fst snd].
  set (w1 := set_trace _ (set_ticks _ w)).
  assert (S1 : same_peers w w1).
  { eapply same_peers_trans; [apply (same_peers_ticks (S (ticks w)))|].
    apply (same_peers_emit _ (set_ticks (S (ticks w)) w)). reflexivity. }
  eapply same_peers_trans; [exact S1|].
  destruct (env_esp_now_send env (ticks w)).
  - rewrite !exec_seq.
    eapply same_peers_trans; [apply same_peers_Serial_println|].
    eapply same_peers_trans; [apply same_peers_assign_slave|].
    eapply same_peers_trans; [apply same_peers_logRelayChange | apply same_peers_saveRelayStates].
  - apply same_peers_emit. reflexivity.
Qed.

Lemma same_peers_relay_command room relay state w :
  same_peers w (exec (relay_command room relay state) w).
Proof.
  unfold Hub.relay_command. destruct (room =? -1).
  - apply same_peers_when. rewrite !exec_seq.
    eapply same_peers_trans; [apply same_peers_assign_master|].
    eapply same_peers_trans; [apply same_peers_digitalWrite|].
    eapply same_peers_trans; [apply same_peers_logRelayChange | apply same_peers_saveRelayStates].
  - rewrite exec_gets. apply same_peers_when, same_peers_sendCommandToSlave.
Qed.

Lemma same_peers_handleRelayToggle request w :
  same_peers w (exec (handleRelayToggle request) w).
Proof.
  unfold Hub.handleRelayToggle. rewrite exec_seq.
  eapply same_peers_trans;
    [apply same_peers_when, same_peers_relay_command | apply same_peers_emit; reflexivity].
Qed.

Lemma same_peers_handleSchedule request w :
  same_peers w (exec (handleSchedule request) w).
Proof.
  unfold Hub.handleSchedule. rewrite exec_gets, exec_seq.
  eapply same_peers_trans; [|apply same_peers_emit; reflexivity].
  apply same_peers_when, same_peers_when.
  cbv beta iota zeta delta [exec bind millis ask modify ret fst snd].
  constructor; reflexivity.
Qed.

Lemma same_peers_reconcile_channel slaveIndex data i w :
  same_peers w (exec (reconcile_channel slaveIndex data i) w).
Proof.
  unfold Hub.reconcile_channel. rewrite exec_gets. apply same_peers_when.
  rewrite !exec_seq, exec_gets.
  eapply same_peers_trans; [apply same_peers_assign_slave|].
  eapply same_peers_trans; [apply same_peers_logRelayChange|].
  eapply same_peers_trans; [apply same_peers_saveRelayStates|].
  apply same_peers_when, same_peers_updateTM1638LEDs.
Qed.

Lemma same_peers_run_schedule now i w : same_peers w (exec (run_schedule now i) w).
Proof.
  unfold Hub.run_schedule. rewrite exec_gets.
  set (item := aget no_schedule (schedules w) i).
  destruct (negb (executed item) && (targetTime item <=? now)); [|apply same_peers_refl].
  rewrite !exec_seq.
  match goal with
  | |- same_peers w (exec _ (exec _ ?x)) => set (w1 := x)
  end.
  assert (S1 : same_peers w w1).
  { subst w1. destruct (roomIndex item =? -1).
    - apply same_peers_when. rewrite exec_seq, exec_gets, !exec_seq.
      eapply same_peers_trans; [apply same_peers_assign_master|].
      eapply same_peers_trans; [apply same_peers_digitalWrite|].
      eapply same_peers_trans;
        [apply same_peers_logRelayChange | apply same_peers_saveRelayStates].
    - rewrite exec_gets. apply same_peers_when, same_peers_sendCommandToSlave. }
  eapply same_peers_trans; [exact S1|].
  match goal with
  | |- same_peers w1 (exec _ ?x) => set (w2 := x)
  end.
  assert (S2 : same_peers w1 w2) by (subst w2; constructor; reflexivity).
  eapply same_peers_trans; [exact S2|].
  rewrite exec_gets. apply same_peers_when, same_peers_updateTM1638LEDs.
Qed.

Lemma cleanup_loop_same_peers now n :
  forall lo newCount w, same_peers w (snd (cleanup_loop now lo n newCount w)).
Proof.
  induction n as [|n IH]; intros lo newCount w; [apply same_peers_refl|].
  cbn [cleanup_loop]. unfold bind at 1. cbn [gets].
  destruct (keep_schedule now (aget no_schedule (schedules w) lo)).
  - unfold bind at 1.
    destruct (negb (lo =? newCount)); cbn [when modify ret].
    + eapply same_peers_trans; [|apply IH]. constructor; reflexivity.
    + apply IH.
  - apply IH.
Qed.

Lemma same_peers_cleanup now count w : same_peers w (exec (cleanup now count) w).
Proof.
  unfold cleanup, exec, bind.
  pose proof (cleanup_loop_same_peers now (Z.to_nat count) 0 0 w) as H.
  destruct (cleanup_loop now 0 (Z.to_nat count) 0 w) as [c w1].
  simpl in *. destruct H. constructor; assumption.
Qed.

Lemma same_peers_processSchedules w : same_peers w (exec processSchedules w).
Proof.
  rewrite processSchedules_run. cbv zeta.
  eapply same_peers_trans; [|apply same_peers_cleanup].
  eapply same_peers_trans; [apply (same_peers_ticks (S (ticks w)))|].
  apply same_peers_for_loop. intros. apply same_peers_run_schedule.
Qed.

Lemma same_peers_press_button i w : same_peers w (exec (press_button i) w).
Proof.
  unfold Panel.press_button. rewrite !exec_gets, exec_seq.
  eapply same_peers_trans; [|apply same_peers_updateTM1638LEDs].
  destruct (rotaryPosition w =? 0).
  - rewrite exec_gets, exec_seq, exec_gets, !exec_seq.
    eapply same_peers_trans; [apply same_peers_assign_master|].
    eapply same_peers_trans; [apply same_peers_digitalWrite|].
    eapply same_peers_trans; [apply same_peers_logRelayChange | apply same_peers_saveRelayStates].
  - destruct (rotaryPosition w <=? slaveCount w); [|apply same_peers_refl].
    rewrite exec_gets. apply same_peers_sendCommandToSlave.
Qed.

Lemma same_peers_handleTM1638Buttons buttons f w :
  same_peers w (exec (handleTM1638Buttons buttons f) w).
Proof.
  destruct (0 <? buttons) eqn:E.
  - rewrite handleTM1638Buttons_run by (zbool; assumption).
    eapply same_peers_trans; [apply (same_peers_ticks (S (ticks w)))|].
    apply same_peers_for_loop. intros. apply same_peers_when, same_peers_press_button.
  - unfold Panel.handleTM1638Buttons. rewrite E. apply same_peers_refl.
Qed.

Lemma same_peers_rotary_isr dt_low f w : same_peers w (exec (rotary_isr dt_low f) w).
Proof.
  cbv beta iota zeta delta [Panel.rotary_isr exec bind millis ask modify ret fst snd].
  cbn [ticks set_ticks].
  destruct (5 <? _); cbn [snd]; constructor; reflexivity.
Qed.

Lemma same_peers_create_file path header w :
  same_peers w (exec (Storage.create_file env path header) w).
Proof.
  destruct (create_file_frame env path header w) as (Q & Htr & _).
  apply same_peers_quiet; [exact Q | rewrite Htr; reflexivity].
Qed.

Lemma same_peers_setupSD w : same_peers w (exec (Storage.setupSD env) w).
Proof.
  rewrite setupSD_run. destruct (env_sd_begin env (ticks w)).
  - eapply same_peers_trans; [|apply same_peers_create_file].
    eapply same_peers_trans; [|apply same_peers_create_file].
    eapply same_peers_trans; [|apply same_peers_create_file].
    eapply same_peers_trans; [apply (same_peers_ticks (S (ticks w)))|].
    apply (same_peers_emit _ (set_ticks (S (ticks w)) w)). reflexivity.
  - eapply same_peers_trans; [apply same_peers_Serial_println|].
    apply (same_peers_ticks (S (ticks w))).
Qed.

Lemma same_peers_setupRelays w : same_peers w (exec Storage.setupRelays w).
Proof.
  unfold Storage.setupRelays. apply same_peers_for_loop.
  intros. apply same_peers_emit. reflexivity.
Qed.

Lemma same_peers_load_state_line line w :
  same_peers w (exec (Storage.load_state_line line) w).
Proof.
  unfold Storage.load_state_line.
  destruct (Storage.parse_state_line line) as [[[roomName relayIndex] state]|];
    [|apply same_peers_refl].
  unfold Storage.apply_state. case_if.
  - rewrite exec_seq.
    eapply same_peers_trans; [apply same_peers_assign_master | apply same_peers_emit; reflexivity].
  - case_if; [|apply same_peers_refl].
    rewrite exec_gets. apply same_peers_when, same_peers_assign_slave.
Qed.

Lemma same_peers_loadRelayStates w : same_peers w (exec (Storage.loadRelayStates env) w).
Proof.
  rewrite loadRelayStates_run. destruct (env_sd_begin env (ticks w)).
  - destruct (if env_sd_open env (S (ticks w)) then sd w !! "/states.txt" else None)
      as [lines|]; [|apply same_peers_ticks].
    eapply same_peers_trans; [apply (same_peers_ticks (S (S (ticks w))))|].
    eapply same_peers_trans; [|apply same_peers_emit; reflexivity].
    apply same_peers_for_each. intros. apply same_peers_load_state_line.
  - eapply same_peers_trans; [apply same_peers_Serial_println|].
    apply (same_peers_ticks (S (ticks w))).
Qed.

(** *** The three places that count a slave in *)

Lemma held_app w w' evs :
  slaveCount w' = slaveCount w ->
  (forall i, 0 <= i < slaveCount w ->
     macAddress (aget no_slave (slaves w') i) = macAddress (aget no_slave (slaves w) i)) ->
  trace w' = trace w ++ evs ->
  directory_held w -> directory_held w'.
Proof.
  intros Hc Hm Htr H i Hi. rewrite Hm by lia.
  rewrite Htr, peers_held_app. apply in_or_app. left. apply H. lia.
Qed.

(** What both registration paths do with a candidate keeps every
    registered slave a peer: the candidate is counted in only when the
    radio took its address. *)
Lemma held_register cand w :
  wf_world w -> slaveCount w < MAX_SLAVES ->
  directory_held w ->
  directory_held
    (exec (modify (fun w0 => set_slaves (aset (slaves w0) (slaveCount w) cand) w0) ;;
           added <- Hub.esp_now_add_peer env (macAddress cand) ;;
           when added (modify (set_slaveCount (slaveCount w + 1)) ;; saveSlaveInfo)) w).
Proof.
  intros Hwf Hroom H.
  destruct (register_candidate env cand w)
    as (Hsl & Hsc & _ & _ & _ & _ & _ & _ & _ & _ & _ & evs & Htr).
  set (w' := exec _ w) in *.
  assert (Hin : 0 <= slaveCount w < Z.of_nat (length (slaves w))).
  { destruct Hwf. unfold MAX_SLAVES in *. lia. }
  intros i Hi. rewrite Hsl, Htr, peers_held_app.
  destruct (Z.eq_dec i (slaveCount w)) as [->|Hne].
  - rewrite aget_aset_eq by exact Hin.
    destruct (env_esp_now_add_peer env (ticks w)); [|lia].
    apply in_or_app. right. left. reflexivity.
  - rewrite aget_aset_ne by congruence.
    apply in_or_app. left. apply H.
    destruct (env_esp_now_add_peer env (ticks w)); lia.
Qed.

Lemma held_handleAddSlave request w :
  wf_world w -> directory_held w -> directory_held (exec (handleAddSlave request) w).
Proof.
  intros Hwf H. unfold Hub.handleAddSlave. rewrite exec_gets, exec_seq.
  eapply same_peers_held; [apply same_peers_emit; reflexivity|].
  destruct (hasParam (post_params request) "mac" && hasParam (post_params request) "name" &&
            (slaveCount w <? MAX_SLAVES)) eqn:E; [|exact H].
  cbn [when]. destruct (sscanf_mac _) as [macBytes|]; [|exact H].
  zbool. apply (held_register (mkSlave _ _ _ _)); assumption.
Qed.

Lemma held_onDataReceived mac data w :
  wf_world w -> directory_held w -> directory_held (exec (onDataReceived mac data) w).
Proof.
  intros Hwf H. unfold Hub.onDataReceived. rewrite !exec_gets.
  destruct (negb (find_slave mac (slaves w) 0 (Z.to_nat (slaveCount w)) =? -1)).
  - rewrite exec_seq.
    eapply same_peers_held; [|exact H].
    eapply same_peers_trans;
      [|apply same_peers_when, same_peers_for_loop; intros; apply same_peers_reconcile_channel].
    constructor; try reflexivity.
    intros k. simpl.
    destruct (aget_aset_cases no_slave (slaves w)
                (find_slave mac (slaves w) 0 (Z.to_nat (slaveCount w)))
                (set_active true
                   (aget no_slave (slaves w)
                      (find_slave mac (slaves w) 0 (Z.to_nat (slaveCount w))))) k)
      as [[-> ->]| ->]; reflexivity.
  - destruct (slaveCount w <? MAX_SLAVES) eqn:E; [|exact H].
    cbn [when]. zbool.
    apply (held_register (mkSlave _ _ _ _)); assumption.
Qed.

Lemma held_load_slave_line line w :
  wf_world w -> slaveCount w < MAX_SLAVES ->
  directory_held w ->
  directory_held (exec (Storage.load_slave_line sscanf_mac env line) w).
Proof.
  intros Hwf Hroom H. rewrite load_slave_line_run.
  destruct (Storage.startsWith line "#" || (WString.len line <? 17)); [exact H|].
  destruct (0 <? WString.indexOf line ","); [|exact H].
  destruct (sscanf_mac _) as [macBytes|]; [|exact H].
  cbv zeta.
  assert (Hin : 0 <= slaveCount w < Z.of_nat (length (slaves w))).
  { destruct Hwf. unfold MAX_SLAVES in *. lia. }
  destruct (env_esp_now_add_peer env (ticks w)); intros i Hi; simpl in *;
    rewrite peers_held_app.
  - destruct (Z.eq_dec i (slaveCount w)) as [->|Hne].
    + rewrite aget_aset_eq by exact Hin. apply in_or_app. right. left. reflexivity.
    + rewrite aget_aset_ne by congruence. apply in_or_app. left. apply H. lia.
  - rewrite aget_aset_ne by lia. apply in_or_app. left. apply H. lia.
Qed.

Lemma held_load_slave_lines lines :
  forall w,
  wf_world w -> directory_held w ->
  directory_held (exec (Storage.load_slave_lines sscanf_mac env lines) w).
Proof.
  induction lines as [|line rest IH]; intros w Hwf H; [exact H|].
  cbn [Storage.load_slave_lines]. rewrite exec_gets.
  destruct (slaveCount w <? MAX_SLAVES) eqn:E; [|exact H].
  rewrite exec_seq. zbool.
  destruct (load_slave_line_keeps sscanf_mac env line w Hwf E) as (Hwf1 & _).
  apply IH; [exact Hwf1 | apply held_load_slave_line; assumption].
Qed.

Lemma held_loadSlaveInfo w :
  wf_world w -> directory_held w ->
  directory_held (exec (Storage.loadSlaveInfo sscanf_mac env) w).
Proof.
  intros Hwf H. rewrite loadSlaveInfo_run.
  destruct (env_sd_begin env (ticks w)).
  2:{ intros i Hi. simpl in *. rewrite peers_held_app, app_nil_r. apply H, Hi. }
  assert (Hwf0 : wf_world (set_ticks (S (S (ticks w))) (set_slaveCount 0 w))).
  { destruct Hwf. constructor; simpl; try assumption. unfold MAX_SLAVES. lia. }
  assert (H0 : directory_held (set_ticks (S (S (ticks w))) (set_slaveCount 0 w))).
  { intros i Hi. simpl in Hi. lia. }
  destruct (if env_sd_open env (S (ticks w)) then sd w !! "/slaves.txt" else None)
    as [lines|]; [|exact H0].
  cbv zeta.
  pose proof (held_load_slave_lines (tail lines) _ Hwf0 H0) as H2.
  set (w2 := exec (Storage.load_slave_lines sscanf_mac env (tail lines)) _) in *.
  intros i Hi. simpl in *. rewrite peers_held_app, app_nil_r. apply H2, Hi.
Qed.

Lemma held_run_call c f w :
  wf_world w -> directory_held w -> directory_held (exec (run_call c f) w).
Proof.
  intros Hwf H.
  destruct c; cbn [Machine.run_call]; rewrite ?exec_seq, ?exec_ret.
  - apply (same_peers_held _ _ (same_peers_handleRelayToggle _ _) H).
  - apply held_handleAddSlave; assumption.
  - apply (same_peers_held _ _ (same_peers_handleSchedule _ _) H).
  - apply held_onDataReceived; assumption.
  - apply (same_peers_held _ _ (same_peers_Serial_println _ _) H).
  - apply (same_peers_held _ _ (same_peers_processSchedules _) H).
  - apply (same_peers_held _ _ (same_peers_handleTM1638Buttons _ _ _) H).
  - apply (same_peers_held _ _ (same_peers_rotary_isr _ _ _) H).
  - apply (same_peers_held _ _ (same_peers_setupSD _) H).
  - apply (same_peers_held _ _ (same_peers_setupRelays _) H).
  - apply held_loadSlaveInfo; assumption.
  - apply (same_peers_held _ _ (same_peers_loadRelayStates _) H).
Qed.


End HeldProperties.


(** ** The dashboard *)

Lemma zrange_length n : forall lo, length (zrange lo n) = n.
Proof. induction n as [|n IH]; intros lo; simpl; [reflexivity | rewrite IH; reflexivity]. Qed.

Lemma zrange_lookup n :
  forall lo i, (i < n)%nat -> zrange lo n !! i = Some (lo + Z.of_nat i).
Proof.
  induction n as [|n IH]; intros lo i Hi; [lia|].
  destruct i as [|i]; simpl.
  - f_equal. lia.
  - rewrite IH by lia. f_equal. lia.
Qed.

(** The ring of ten slots: after [k] lines, slot [j mod 10] holds line
    [j] for each of the last ten [j < k]. *)
Lemma ring_fill_spec lines :
  forall (seen lastLines : list string),
  length lastLines = 10%nat ->
  Z.of_nat (length seen + length lines) < 2 ^ 31 ->
  (forall j, (j < length seen)%nat -> (length seen <= j + 10)%nat ->
     aget EmptyString lastLines (Z.of_nat j mod 10) = default EmptyString (seen !! j)) ->
  let all := seen ++ List.filter nonempty lines in
  exists lastLines',
    ring_fill lines lastLines (Z.of_nat (length seen)) = (lastLines', Z.of_nat (length all)) /\
    length lastLines' = 10%nat /\
    (forall j, (j < length all)%nat -> (length all <= j + 10)%nat ->
       aget EmptyString lastLines' (Z.of_nat j mod 10) = default EmptyString (all !! j)).
Proof.
  induction lines as [|line rest IH]; intros seen lastLines Hlen Hfit Hinv; cbv zeta.
  - exists lastLines. rewrite app_nil_r. auto.
  - cbn [ring_fill List.filter].
    destruct (nonempty line) eqn:E.
    + rewrite Z.rem_mod_nonneg by lia.
      rewrite to_long_small by (simpl length in Hfit; lia).
      replace (Z.of_nat (length seen) + 1) with (Z.of_nat (length (seen ++ [line])))
        by (rewrite length_app; simpl; lia).
      destruct (IH (seen ++ [line]) (aset lastLines (Z.of_nat (length seen) mod 10) line))
        as (buf & Hrun & Hlen' & Hinv').
      * rewrite length_aset. exact Hlen.
      * rewrite length_app. simpl length in *. lia.
      * intros j Hj Hnear. rewrite length_app in Hj, Hnear. simpl in Hj, Hnear.
        destruct (Nat.eq_dec j (length seen)) as [->|Hne].
        -- rewrite aget_aset_eq.
           ++ rewrite lookup_app_r, Nat.sub_diag by lia. reflexivity.
           ++ rewrite Hlen. pose proof (Z.mod_pos_bound (Z.of_nat (length seen)) 10). lia.
        -- rewrite aget_aset_ne.
           ++ rewrite Hinv by lia. rewrite lookup_app_l by lia. reflexivity.
           ++ intros Heq.
              pose proof (Z.div_mod (Z.of_nat (length seen)) 10).
              pose proof (Z.div_mod (Z.of_nat j) 10).
              pose proof (Z.mod_pos_bound (Z.of_nat (length seen)) 10).
              pose proof (Z.mod_pos_bound (Z.of_nat j) 10).
              lia.
      * exists buf. rewrite <- app_assoc in Hrun, Hinv'. cbn [app] in Hrun, Hinv'.
        auto.
    + destruct (IH seen lastLines Hlen) as (buf & Hrun & Hlen' & Hinv').
      * simpl length in Hfit. lia.
      * exact Hinv.
      * exists buf. auto.
Qed.

(** The page shows the last ten lines of the log that are not empty
    (all of them when there are fewer), the oldest first. *)
Lemma recent_lines_spec lines :
  Z.of_nat (length lines) < 2 ^ 31 ->
  let all := List.filter nonempty (tail lines) in
  recent_lines lines = drop (length all - 10) all.
Proof.
  intros Hfit all. unfold recent_lines.
  destruct (ring_fill_spec (tail lines) [] (replicate 10 EmptyString))
    as (buf & Hrun & Hlen & Hinv).
  { reflexivity. }
  { destruct lines; simpl in *; lia. }
  { intros j Hj. simpl in Hj. lia. }
  cbn [app length] in Hrun, Hinv. change (Z.of_nat 0) with 0 in Hrun.
  fold all in Hrun, Hinv. rewrite Hrun.
  set (c := length all) in *.
  apply list_eq. intros i.
  rewrite list_lookup_fmap, lookup_drop.
  destruct (Nat.lt_ge_cases i (Nat.min c 10)) as [Hi|Hi].
  - rewrite zrange_lookup by lia. cbn [fmap option_fmap option_map]. cbn [Z.add].
    destruct (lookup_lt_is_Some_2 all (c - 10 + i)) as [x Hx]; [lia|].
    rewrite Hx. f_equal.
    destruct (Z.of_nat c <? 10) eqn:E; zbool.
    + replace (0 + (0 + Z.of_nat i)) with (Z.of_nat i) by lia.
      rewrite Z.rem_mod_nonneg by lia.
      replace (c - 10 + i)%nat with i in Hx by lia.
      rewrite Hinv, Hx by lia. reflexivity.
    + replace (0 + Z.of_nat i) with (Z.of_nat i) by lia.
      rewrite (Z.rem_mod_nonneg (Z.of_nat c)) by lia.
      rewrite Z.rem_mod_nonneg.
      2:{ pose proof (Z.mod_pos_bound (Z.of_nat c) 10). lia. }
      2:{ lia. }
      replace ((Z.of_nat c mod 10 + Z.of_nat i) mod 10)
        with (Z.of_nat (c - 10 + i) mod 10).
      * rewrite Hinv, Hx by lia. reflexivity.
      * rewrite Z.add_mod_idemp_l by lia.
        replace (Z.of_nat (c - 10 + i)) with (Z.of_nat c + Z.of_nat i + (-1) * 10) by lia.
        rewrite Z.mod_add by lia. reflexivity.
  - rewrite (lookup_ge_None_2 (zrange _ _)) by (rewrite zrange_length; lia).
    rewrite lookup_ge_None_2 by lia. reflexivity.
Qed.

Lemma pad0_2_table :
  forallb (fun n =>
    bool_decide (pad0 2 n =
                 String (WString.digit_char (n / 10))
                   (String (WString.digit_char (n mod 10)) EmptyString)) &&
    (WString.toInt (pad0 2 n) =? n)) (zrange 0 (Z.to_nat 100)) = true.
Proof. vm_compute. reflexivity. Qed.

Lemma pad0_4_table :
  forallb (fun n =>
    bool_decide (pad0 4 n =
                 String (WString.digit_char (n / 1000))
                   (String (WString.digit_char (n / 100 mod 10))
                      (String (WString.digit_char (n / 10 mod 10))
                         (String (WString.digit_char (n mod 10)) EmptyString)))) &&
    (WString.toInt (pad0 4 n) =? n)) (zrange 0 (Z.to_nat 10000)) = true.
Proof. vm_compute. reflexivity. Qed.

Lemma pad0_2_spec n :
  0 <= n <= 99 ->
  pad0 2 n = String (WString.digit_char (n / 10))
               (String (WString.digit_char (n mod 10)) EmptyString) /\
  WString.toInt (pad0 2 n) = n.
Proof.
  intros H. pose proof pad0_2_table as T. rewrite forallb_forall in T.
  specialize (T n). rewrite in_zrange, Z2Nat.id in T by lia. specialize (T ltac:(lia)).
  apply andb_true_iff in T. destruct T as [T1 T2].
  apply bool_decide_eq_true in T1. apply Z.eqb_eq in T2. auto.
Qed.

Lemma pad0_4_spec n :
  0 <= n <= 9999 ->
  pad0 4 n = String (WString.digit_char (n / 1000))
               (String (WString.digit_char (n / 100 mod 10))
                  (String (WString.digit_char (n / 10 mod 10))
                     (String (WString.digit_char (n mod 10)) EmptyString))) /\
  WString.toInt (pad0 4 n) = n.
Proof.
  intros H. pose proof pad0_4_table as T. rewrite forallb_forall in T.
  specialize (T n). rewrite in_zrange, Z2Nat.id in T by lia. specialize (T ltac:(lia)).
  apply andb_true_iff in T. destruct T as [T1 T2].
  apply bool_decide_eq_true in T1. apply Z.eqb_eq in T2. auto.
Qed.

Lemma time_text_spec t :
  0 <= dt_year t <= 9999 -> 0 <= dt_month t <= 99 -> 0 <= dt_day t <= 99 ->
  0 <= dt_hour t <= 99 -> 0 <= dt_minute t <= 99 -> 0 <= dt_second t <= 99 ->
  String.length (time_text t) = 19%nat /\
  parse_lastTime (time_text t) = t.
Proof.
  intros Hy Hm Hd Hh Hi Hs.
  destruct (pad0_4_spec _ Hy) as [Fy Ty]. destruct (pad0_2_spec _ Hm) as [Fm Tm].
  destruct (pad0_2_spec _ Hd) as [Fd Td]. destruct (pad0_2_spec _ Hh) as [Fh Th].
  destruct (pad0_2_spec _ Hi) as [Fi Ti]. destruct (pad0_2_spec _ Hs) as [Fs Ts].
  unfold time_text.
  rewrite Fy, Fm, Fd, Fh, Fi, Fs in *.
  rewrite !append_cons, !append_nil.
  split; [reflexivity|].
  rewrite parse_columns, Ty, Tm, Td, Th, Ti, Ts. destruct t; reflexivity.
Qed.

Section PageProperties.

Variable env : Env.

(** The text of [getCurrentTimeString] has nineteen characters whenever
    the clock shows a year of at most four digits and two-digit fields,
    which is what its buffer of twenty holds with the terminator.  Its
    six fields stand at the columns at which [logRelayChange] reads a
    time stamp: read there, the text gives the time of the clock
    back. *)
Theorem getCurrentTimeString_fits_its_buffer w :
  let now := env_rtc_now env (ticks w) in
  0 <= dt_year now <= 9999 -> 0 <= dt_month now <= 99 -> 0 <= dt_day now <= 99 ->
  0 <= dt_hour now <= 99 -> 0 <= dt_minute now <= 99 -> 0 <= dt_second now <= 99 ->
  let text := fst (Pages.getCurrentTimeString env w) in
  String.length text = 19%nat /\ parse_lastTime text = now.
Proof.
  intros now Hy Hm Hd Hh Hi Hs text.
  apply (time_text_spec now); assumption.
Qed.

(** The "Recent Logs" block of the dashboard.  On a card that mounts
    and opens the log, the block shows the last ten non-empty lines
    behind the header line, the oldest of them first, one paragraph
    each; with fewer than ten such lines it shows them all. *)
Theorem recent_logs_are_the_last_ten_oldest_first w lines :
  env_sd_begin env (ticks w) = true ->
  env_sd_open env (S (ticks w)) = true ->
  sd w !! "/relays.txt" = Some lines ->
  Z.of_nat (length lines) < 2 ^ 31 ->
  let all := List.filter nonempty (tail lines) in
  fst (Pages.recent_logs_html env w) =
  fold_left (fun html line => html +:+ "<p>" +:+ line +:+ "</p>" +:+ LF)
            (drop (length all - 10) all) EmptyString.
Proof.
  intros Hb Ho Hf Hfit all.
  cbv beta iota zeta delta [Pages.recent_logs_html bind SD_begin SD_open_read ask gets ret
                            fst snd].
  rewrite Hb. cbn [ticks set_ticks sd]. rewrite Ho, Hf.
  rewrite (recent_lines_spec lines Hfit). reflexivity.
Qed.

End PageProperties.

(** ** Requests and reports that are turned away *)

Section EdgeProperties.

Variable unixtime : DateTime -> Z.
Variable sscanf_mac : string -> option (list Z).
Variable env : Env.

Local Abbreviation saveRelayStates := (Hub.saveRelayStates env).
Local Abbreviation saveSlaveInfo := (Hub.saveSlaveInfo env).
Local Abbreviation relay_command := (Hub.relay_command unixtime env).
Local Abbreviation handleRelayToggle := (Hub.handleRelayToggle unixtime env).
Local Abbreviation handleAddSlave := (Hub.handleAddSlave sscanf_mac env).
Local Abbreviation onDataReceived := (Hub.onDataReceived unixtime env).

(** A toggle request that lacks one of its three parameters, or that
    names a relay outside 0..3 or a room that is neither [-1] nor the
    index of a registered slave, changes nothing: the caller is
    redirected to the dashboard and that is all. *)
Theorem toggle_for_no_target_only_redirects request w :
  let q := get_params request in
  hasParam q "room" && hasParam q "relay" && hasParam q "state" = false \/
  valid_target w (param_toInt q "room") (param_toInt q "relay") = false ->
  exec (handleRelayToggle request) w = set_trace (trace w ++ [EvRedirect "/"]) w.
Proof.
  intros q H.
  destruct (hasParam q "room" && hasParam q "relay" && hasParam q "state") eqn:E.
  - destruct H as [H|H]; [discriminate|].
    rewrite (handleRelayToggle_run unixtime env request w E). fold q.
    unfold exec at 2. rewrite (relay_command_invalid unixtime env _ _ _ w H). reflexivity.
  - unfold Hub.handleRelayToggle. fold q. rewrite E. reflexivity.
Qed.

(** A request to add a slave that lacks a field, that arrives when the
    directory holds ten slaves, or whose address does not scan as six
    hexadecimal groups, changes nothing: no entry is written, the radio
    is not asked, the card is not touched; the caller is redirected. *)
Theorem add_slave_turned_away_only_redirects request w :
  let q := post_params request in
  hasParam q "mac" && hasParam q "name" = false \/
  MAX_SLAVES <= slaveCount w \/
  sscanf_mac (default EmptyString (lookup_param q "mac")) = None ->
  exec (handleAddSlave request) w = set_trace (trace w ++ [EvRedirect "/"]) w.
Proof.
  intros q H. unfold Hub.handleAddSlave. fold q. rewrite exec_gets.
  destruct (hasParam q "mac" && hasParam q "name" && (slaveCount w <? MAX_SLAVES)) eqn:E.
  - apply andb_true_iff in E. destruct E as [Ep Ec]. apply Z.ltb_lt in Ec.
    destruct H as [H|[H|H]]; [congruence | lia |].
    cbn [when]. rewrite exec_seq, H. reflexivity.
  - reflexivity.
Qed.

(** A report from a registered slave that is not four bytes long marks
    the slave active and does nothing else: no channel is compared or
    assigned, nothing is logged or saved. *)
Theorem short_report_only_marks_active mac data w :
  let slaveIndex := find_slave mac (slaves w) 0 (Z.to_nat (slaveCount w)) in
  slaveIndex <> -1 ->
  length data <> 4%nat ->
  exec (onDataReceived mac data) w =
  set_slaves (aset (slaves w) slaveIndex
                   (set_active true (aget no_slave (slaves w) slaveIndex))) w.
Proof.
  intros slaveIndex Hk Hlen. unfold Hub.onDataReceived. rewrite !exec_gets.
  fold slaveIndex.
  destruct (slaveIndex =? -1) eqn:E; [zbool; congruence|]. cbn [negb].
  rewrite exec_seq.
  destruct (Z.of_nat (length data) =? 4) eqn:E4; [zbool; lia|]. reflexivity.
Qed.

(** A report from an address that is not in the directory, arriving
    when the directory holds ten slaves, is dropped: the world is as it
    was. *)
Theorem report_from_stranger_is_dropped_when_full mac data w :
  find_slave mac (slaves w) 0 (Z.to_nat (slaveCount w)) = -1 ->
  MAX_SLAVES <= slaveCount w ->
  exec (onDataReceived mac data) w = w.
Proof.
  intros Hmiss Hfull. unfold Hub.onDataReceived. rewrite !exec_gets, Hmiss.
  cbn [Z.eqb negb].
  destruct (slaveCount w <? MAX_SLAVES) eqn:E; [zbool; lia|]. reflexivity.
Qed.

(** Saving is not atomic: both save functions remove the old file
    before they open the new one.  On a card that mounts but does not
    give the file, the old snapshot of the relay states (or the old
    directory file) is gone afterwards and nothing is written in its
    place, and no message is printed. *)
Theorem failed_save_deletes_the_old_file w :
  env_sd_begin env (ticks w) = true ->
  env_sd_open env (S (ticks w)) = false ->
  let w1 := exec saveRelayStates w in
  let w2 := exec saveSlaveInfo w in
  sd w1 = delete "/states.txt" (sd w) /\ trace w1 = trace w /\
  sd w2 = delete "/slaves.txt" (sd w) /\ trace w2 = trace w.
Proof.
  intros Hb Ho w1 w2. subst w1 w2.
  rewrite saveRelayStates_run, saveSlaveInfo_run, Hb, Ho. repeat split.
Qed.

(** A command for a master relay does not depend on the card: when the
    card cannot be mounted the relay state is assigned and the pin is
    driven all the same, the failure is printed twice (once by the log,
    once by the snapshot) and the card is left as it was. *)
Theorem master_command_without_card relay state w :
  0 <= relay < 4 ->
  env_sd_begin env (ticks w) = false ->
  env_sd_begin env (S (ticks w)) = false ->
  exec (relay_command (-1) relay state) w =
  set_ticks (S (S (ticks w)))
    (set_trace (trace w ++ [EvAssign (-1) relay state;
                            EvDigitalWrite (aget 0 relayPins relay) state;
                            EvSerial "SD Card failed to mount";
                            EvSerial "SD Card failed to mount"])
       (set_master (aset (masterRelayStates w) relay state) w)).
Proof.
  intros Hr Hb1 Hb2.
  set (w1 := set_trace (trace w ++ [EvAssign (-1) relay state;
                                    EvDigitalWrite (aget 0 relayPins relay) state])
               (set_master (aset (masterRelayStates w) relay state) w)).
  assert (Hw' : exec (relay_command (-1) relay state) w =
                exec saveRelayStates (exec (Hub.logRelayChange unixtime env (-1) relay state) w1)).
  { subst w1. unfold Hub.relay_command. cbn [Z.eqb Pos.eqb].
    destruct ((0 <=? relay) && (relay <? 4)) eqn:E; [|zbool; lia]. cbn [when].
    rewrite !exec_seq. f_equal. f_equal.
    unfold exec, assign_master, digitalWrite, emit, modify, bind. simpl.
    rewrite <- !app_assoc. reflexivity. }
  rewrite Hw', logRelayChange_run.
  change (ticks w1) with (ticks w). rewrite Hb1.
  rewrite saveRelayStates_run. cbn [ticks set_ticks set_trace]. rewrite Hb2.
  subst w1. cbn. rewrite <- !app_assoc. reflexivity.
Qed.

End EdgeProperties.

(** * The further properties at concrete worlds *)

(** The encoder is turned up once while the master room is selected
    and one slave is registered: room 1 is selected; a second edge in
    the same direction stays there. *)
Lemma rotary_isr_keeps_room_in_range_witness :
  let f := mkFront false 0 0 in
  let w1 := exec (Panel.rotary_isr env_ok true f) kitchen_world in
  wf_world kitchen_world /\
  0 <= rotaryPosition kitchen_world <= slaveCount kitchen_world /\
  rotaryPosition w1 = 1 /\
  rotaryPosition (exec (Panel.rotary_isr env_ok true f) w1) = 1.
Proof.
  cbv zeta. split; [wf_by_computation|]. split; [by_computation|].
  destruct (rotary_isr_keeps_room_in_range env_ok true (mkFront false 0 0) kitchen_world)
    as (_ & H & _); [wf_by_computation | by_computation |].
  split; [rewrite H; reflexivity | by_computation].
Defined.

(** Buttons 1 and 3 are down while the master room is selected. *)
Lemma buttons_flip_master_relays_witness :
  let w' := exec (Panel.handleTM1638Buttons rtclib_unixtime env_ok 5 (mkFront false 0 0))
                 kitchen_world in
  wf_world kitchen_world /\ rotaryPosition kitchen_world = 0 /\ 0 < 5 /\
  masterRelayStates w' = [true; false; true; false] /\
  assigns (trace w') = [(-1, 0, true); (-1, 2, true)].
Proof.
  cbv zeta. split; [wf_by_computation|]. split; [reflexivity|]. split; [lia|].
  destruct (buttons_flip_master_relays rtclib_unixtime env_ok 5 (mkFront false 0 0)
              kitchen_world) as (_ & _ & H & _); [wf_by_computation | reflexivity | lia |].
  split; [by_computation | rewrite H; reflexivity].
Defined.

(** Button 3 is down while the kitchen is selected. *)
Lemma button_commands_selected_slave_witness :
  let w := set_rotaryPosition 1 kitchen_world in
  let w' := exec (Panel.handleTM1638Buttons rtclib_unixtime env_ok (2 ^ 2) (mkFront false 0 0))
                 w in
  wf_world w /\ 1 <= rotaryPosition w <= slaveCount w /\ 0 <= 2 < 4 /\
  sends (trace w') = [(kitchen_mac, 2, true, true)] /\
  channel_state w' 0 2 = true.
Proof.
  cbv zeta. split; [wf_by_computation|]. split; [by_computation|]. split; [lia|].
  destruct (button_commands_selected_slave rtclib_unixtime env_ok 2 (mkFront false 0 0)
              (set_rotaryPosition 1 kitchen_world)) as (H1 & H2 & _);
    [wf_by_computation | by_computation | lia |].
  split; [rewrite H1; reflexivity | etransitivity; [exact H2 | reflexivity]].
Defined.

(** Button 6 alone. *)
Lemma upper_buttons_are_ignored_witness :
  0 < 32 /\ Z.land 32 15 = 0 /\
  exec (Panel.handleTM1638Buttons rtclib_unixtime env_ok 32 (mkFront false 0 0)) kitchen_world
  = set_ticks (S (ticks kitchen_world)) kitchen_world.
Proof.
  split; [lia|]. split; [reflexivity|].
  unfold exec.
  rewrite (upper_buttons_are_ignored rtclib_unixtime env_ok 32 (mkFront false 0 0)
             kitchen_world); [reflexivity | lia | reflexivity].
Defined.

(** Master relays 1 and 3 are on and the master room is selected: LEDs
    1 and 3 are lit. *)
Lemma leds_show_selected_room_witness :
  let w := set_master [true; false; true; false] kitchen_world in
  0 <= rotaryPosition w /\ 0 <= slaveCount w /\
  exists ledValues,
    exec updateTM1638LEDs w = set_trace (trace w ++ [EvSetLEDs ledValues]) w /\
    Z.testbit ledValues 0 = true /\ Z.testbit ledValues 1 = false /\
    Z.testbit ledValues 2 = true /\ Z.testbit ledValues 7 = false.
Proof.
  cbv zeta. split; [by_computation|]. split; [by_computation|].
  destruct (leds_show_selected_room (set_master [true; false; true; false] kitchen_world))
    as (v & Hv & Hbits); [by_computation | by_computation |].
  exists v. split; [exact Hv|].
  rewrite !Hbits by lia. repeat split.
Defined.

(** On a card without files [setupSD] makes the three files, and the
    card is then the one the examples start from. *)
Lemma setupSD_creates_only_missing_files_witness :
  let w' := exec (Storage.setupSD env_ok) blank_world in
  env_sd_begin env_ok (ticks blank_world) = true /\
  is_Some (sd w' !! "/relays.txt") /\
  sd w' !! "/relays.txt" = sd boot_world !! "/relays.txt".
Proof.
  cbv zeta. split; [reflexivity|].
  destruct (setupSD_creates_only_missing_files env_ok blank_world) as (_ & _ & _ & H & _).
  split; [|reflexivity].
  apply (H eq_refl (fun _ => eq_refl) "/relays.txt" "Timestamp,Room,Relay,State,Duration").
  left. reflexivity.
Defined.

(** The snapshot of [lit_world] says that master relay 2 and relay 3
    of the kitchen are on; after loading it they are off. *)
Lemma loadRelayStates_reads_every_relay_as_off_witness :
  let w' := exec (Storage.loadRelayStates env_ok) lit_world in
  wf_world lit_world /\ slaveCount lit_world <= MAX_SLAVES /\
  sd lit_world !! "/states.txt" = Some (states_file lit_world) /\
  master_state lit_world 1 = true /\ channel_state lit_world 0 2 = true /\
  masterRelayStates w' = all_off /\
  channel_state w' 0 2 = false.
Proof.
  cbv zeta. split; [wf_by_computation|]. split; [by_computation|].
  split; [by_computation|]. split; [by_computation|]. split; [by_computation|].
  destruct (loadRelayStates_reads_every_relay_as_off env_ok lit_world lit_world)
    as (Hm & Hs & _); [wf_by_computation | by_computation | by_computation | by_computation
                      | by_computation |].
  split; [exact Hm|].
  unfold channel_state. rewrite Hs. by_computation.
Defined.

(** Twelve lines in the file, ten slaves in the directory.  And in
    [lit_world] relay 3 of the kitchen is on; after loading the
    directory it is off, and no assignment has been recorded. *)
Lemma loadSlaveInfo_never_overfills_witness :
  let w' := exec (Storage.loadSlaveInfo scan_mac env_ok) crowded_world in
  let v' := exec (Storage.loadSlaveInfo scan_mac env_ok) lit_world in
  wf_world crowded_world /\ wf_world w' /\ slaveCount w' = 10 /\
  wf_world lit_world /\
  relayStates (aget no_slave (slaves lit_world) 0) = [false; false; true; false] /\
  slaveCount v' = 1 /\
  relayStates (aget no_slave (slaves v') 0) = all_off /\
  assigns (trace v') = assigns (trace lit_world).
Proof.
  cbv zeta. split; [wf_by_computation|].
  split; [apply (loadSlaveInfo_never_overfills scan_mac env_ok crowded_world);
          wf_by_computation|].
  split; [by_computation|]. split; [wf_by_computation|]. split; [by_computation|].
  split; [by_computation|].
  destruct (loadSlaveInfo_never_overfills scan_mac env_ok lit_world)
    as (_ & _ & _ & Ha & _ & _ & Hb); [wf_by_computation|].
  split; [|exact Ha].
  specialize (Hb eq_refl).
  replace (sd lit_world !! "/slaves.txt") with (Some (slaves_file kitchen_world)) in Hb
    by by_computation.
  cbv iota beta in Hb. destruct Hb as (_ & Hl & _).
  apply Hl. by_computation.
Defined.

(** The kitchen comes back at its address, its name longer by a
    carriage return. *)
Lemma loadSlaveInfo_restores_addresses_witness :
  let w' := exec (Storage.loadSlaveInfo scan_mac env_ok) kitchen_world in
  wf_world kitchen_world /\
  sd kitchen_world !! "/slaves.txt" = Some (slaves_file kitchen_world) /\
  Forall (restorable scan_mac)
         (take (Z.to_nat (slaveCount kitchen_world)) (slaves kitchen_world)) /\
  slaveCount w' = 1 /\
  aget no_slave (slaves w') 0 = mkSlave kitchen_mac false all_off ("Kitchen" +:+ CR).
Proof.
  cbv zeta. split; [wf_by_computation|]. split; [by_computation|].
  assert (Hok : Forall (restorable scan_mac)
                  (take (Z.to_nat (slaveCount kitchen_world)) (slaves kitchen_world))).
  { replace (take (Z.to_nat (slaveCount kitchen_world)) (slaves kitchen_world))
      with [mkSlave kitchen_mac false all_off "Kitchen"] by (vm_compute; reflexivity).
    repeat constructor; simpl; lia. }
  split; [exact Hok|].
  destruct (loadSlaveInfo_restores_addresses scan_mac env_ok kitchen_world kitchen_world)
    as (Hc & Hs & _);
    [wf_by_computation | wf_by_computation | by_computation | exact Hok | by_computation
    | by_computation | intros; reflexivity |].
  split; [rewrite Hc; by_computation|].
  rewrite Hs by by_computation. by_computation.
Defined.

(** A slave is registered, one of its relays is switched from the
    dashboard, a tick passes, two buttons are pressed and the encoder is
    turned. *)
Lemma every_call_keeps_the_bounds_witness :
  let cs := [AddSlave (add_slave_request "AA:BB:CC:DD:EE:FF" "Kitchen");
             Toggle (toggle_request "0" "2" "1"); Tick; Buttons 5; Turn true] in
  let w' := exec (Machine.run_calls rtclib_unixtime scan_mac env_ok cs (mkFront false 0 0))
                 boot_world in
  wf_world boot_world /\ wf_world w' /\ slaveCount w' = 1.
Proof.
  cbv zeta. split; [wf_by_computation|].
  split; [|by_computation].
  apply (every_call_keeps_the_bounds rtclib_unixtime scan_mac env_ok).
  wf_by_computation.
Defined.

(** The clock of the examples shows 2025-11-12 13:14:10. *)
Lemma getCurrentTimeString_fits_its_buffer_witness :
  let now := env_rtc_now env_ok (ticks boot_world) in
  (0 <= dt_year now <= 9999 /\ 0 <= dt_month now <= 99 /\ 0 <= dt_day now <= 99 /\
   0 <= dt_hour now <= 99 /\ 0 <= dt_minute now <= 99 /\ 0 <= dt_second now <= 99) /\
  fst (Pages.getCurrentTimeString env_ok boot_world) = "2025-11-12 13:14:10"%string /\
  String.length (fst (Pages.getCurrentTimeString env_ok boot_world)) = 19%nat.
Proof.
  cbv zeta. split; [by_computation|]. split; [by_computation|].
  apply (getCurrentTimeString_fits_its_buffer env_ok boot_world); by_computation.
Defined.

(** Of twelve records the page shows the last ten, record 3 first. *)
Lemma recent_logs_are_the_last_ten_oldest_first_witness :
  env_sd_begin env_ok (ticks busy_world) = true /\
  env_sd_open env_ok (S (ticks busy_world)) = true /\
  fst (Pages.recent_logs_html env_ok busy_world) =
  fold_left (fun html line => html +:+ "<p>" +:+ line +:+ "</p>" +:+ LF)
            ((fun k => "record " +:+ WString.of_int k +:+ CR) <$> zrange 3 10) EmptyString.
Proof.
  split; [reflexivity|]. split; [reflexivity|].
  rewrite (recent_logs_are_the_last_ten_oldest_first env_ok busy_world
             (default [] (sd busy_world !! "/relays.txt")));
    [by_computation | reflexivity | reflexivity | by_computation | by_computation].
Defined.

(** Relay 7 of the master bank does not exist. *)
Lemma toggle_for_no_target_only_redirects_witness :
  let request := toggle_request "-1" "7" "1" in
  valid_target kitchen_world (param_toInt (get_params request) "room")
               (param_toInt (get_params request) "relay") = false /\
  exec (handleRelayToggle rtclib_unixtime env_ok request) kitchen_world =
  set_trace (trace kitchen_world ++ [EvRedirect "/"]) kitchen_world.
Proof.
  cbv zeta. split; [by_computation|].
  apply (toggle_for_no_target_only_redirects rtclib_unixtime env_ok
           (toggle_request "-1" "7" "1") kitchen_world).
  right. by_computation.
Defined.

(** An address of five groups. *)
Lemma add_slave_turned_away_only_redirects_witness :
  let request := add_slave_request "AA:BB:CC:DD:EE" "Hall" in
  scan_mac (default EmptyString (lookup_param (post_params request) "mac")) = None /\
  exec (handleAddSlave scan_mac env_ok request) kitchen_world =
  set_trace (trace kitchen_world ++ [EvRedirect "/"]) kitchen_world.
Proof.
  cbv zeta. split; [by_computation|].
  apply (add_slave_turned_away_only_redirects scan_mac env_ok
           (add_slave_request "AA:BB:CC:DD:EE" "Hall") kitchen_world).
  right. right. by_computation.
Defined.

(** The kitchen reports two bytes. *)
Lemma short_report_only_marks_active_witness :
  let w' := exec (onDataReceived rtclib_unixtime env_ok kitchen_mac [1; 0]) kitchen_world in
  find_slave kitchen_mac (slaves kitchen_world) 0 (Z.to_nat (slaveCount kitchen_world)) = 0 /\
  active (aget no_slave (slaves w') 0) = true /\
  relayStates (aget no_slave (slaves w') 0) = all_off /\
  trace w' = trace kitchen_world /\ sd w' = sd kitchen_world.
Proof.
  cbv zeta. split; [by_computation|].
  rewrite (short_report_only_marks_active rtclib_unixtime env_ok kitchen_mac [1; 0]
             kitchen_world); [| by_computation | simpl; lia].
  split; [by_computation|]. split; [by_computation|]. split; by_computation.
Defined.

(** An eleventh room reports to a full directory. *)
Lemma report_from_stranger_is_dropped_when_full_witness :
  slaveCount full_world = MAX_SLAVES /\
  exec (onDataReceived rtclib_unixtime env_ok [1; 2; 3; 4; 5; 6] [1; 1; 1; 1]) full_world
  = full_world.
Proof.
  split; [by_computation|].
  apply (report_from_stranger_is_dropped_when_full rtclib_unixtime env_ok).
  - by_computation.
  - by_computation.
Defined.

(** The card of the kitchen holds both files; after a save on a card
    that gives no file they are gone. *)
Lemma failed_save_deletes_the_old_file_witness :
  env_sd_begin env_open_fails (ticks kitchen_world) = true /\
  env_sd_open env_open_fails (S (ticks kitchen_world)) = false /\
  is_Some (sd kitchen_world !! "/states.txt") /\
  is_Some (sd kitchen_world !! "/slaves.txt") /\
  sd (exec (saveRelayStates env_open_fails) kitchen_world) !! "/states.txt" = None /\
  sd (exec (saveSlaveInfo env_open_fails) kitchen_world) !! "/slaves.txt" = None.
Proof.
  split; [reflexivity|]. split; [reflexivity|].
  split; [by_computation; eauto|]. split; [by_computation; eauto|].
  destruct (failed_save_deletes_the_old_file env_open_fails kitchen_world)
    as (H1 & _ & H2 & _); [reflexivity | reflexivity |].
  rewrite H1, H2. split; apply lookup_delete_eq.
Defined.

(** Master relay 2 is switched on while no card is in the slot. *)
Lemma master_command_without_card_witness :
  let w' := exec (relay_command rtclib_unixtime env_no_card (-1) 1 true) boot_world in
  0 <= 1 < 4 /\
  env_sd_begin env_no_card (ticks boot_world) = false /\
  env_sd_begin env_no_card (S (ticks boot_world)) = false /\
  masterRelayStates w' = [false; true; false; false] /\
  pin_writes (trace w') = [(aget 0 relayPins 1, true)] /\
  sd w' = sd boot_world.
Proof.
  cbv zeta. split; [lia|]. split; [reflexivity|]. split; [reflexivity|].
  rewrite (master_command_without_card rtclib_unixtime env_no_card 1 true boot_world);
    [| lia | reflexivity | reflexivity].
  split; [reflexivity|]. split; reflexivity.
Defined.

